(** * Foresight: the interview session orchestrator

    A shallow embedding of the conversational core of the Foresight
    application: [generateFollowUpQuestion] and [transcribeAudio] from
    [services/geminiService.ts], and the [InterviewScreen] component from
    [components/foresight/InterviewScreen.tsx].

    Conventions of the embedding.
    - A JavaScript string is a [string]: a sequence of 8-bit code units,
      read as Latin-1 where the code looks at individual characters
      ([trim]).
    - An optional property ([theme?: string]) is an [option]; [None] is
      [undefined].
    - A promise is modelled by the value it settles with ([Settled]); what
      the remote collaborators do during one call is a parameter of the
      call ([ServiceOutcome], [SttBackend], [SpeechResult]).
    - The React component is a record of its [useState] cells and [useRef]
      cells; every handler is a function on that record, and a closure that
      runs later ([setTimeout], promise continuation) is stored in the
      record together with the values it captured at creation.
    - A handler runs to its first [await] without interruption, and the
      screen is rendered again before the next handler runs: every handler
      reads the state its predecessor left. *)

From Stdlib Require Import String Ascii List Bool Arith Lia.
Import ListNotations.
Open Scope string_scope.
Open Scope list_scope.

(** ** JavaScript strings *)

Module JS.

(** [WhiteSpace] and [LineTerminator] code points below 256: TAB, LF, VT,
    FF, CR, SP and NBSP. *)
Definition isWhiteSpace (c : ascii) : bool :=
  let n := nat_of_ascii c in
  ((n =? 9) || (n =? 10) || (n =? 11) || (n =? 12) || (n =? 13)
   || (n =? 32) || (n =? 160))%nat.

Fixpoint trimStart (s : string) : string :=
  match s with
  | EmptyString => EmptyString
  | String c r => if isWhiteSpace c then trimStart r else s
  end.

Fixpoint trimEnd (s : string) : string :=
  match s with
  | EmptyString => EmptyString
  | String c r =>
      match trimEnd r with
      | EmptyString => if isWhiteSpace c then EmptyString else String c EmptyString
      | r' => String c r'
      end
  end.

(** [String.prototype.trim] *)
Definition trim (s : string) : string := trimEnd (trimStart s).

(** [String.prototype.includes] *)
Fixpoint includes (s sub : string) : bool :=
  if String.prefix sub s then true
  else match s with
       | EmptyString => false
       | String _ r => includes r sub
       end.

(** Truthiness of a string value: every string but the empty one. *)
Definition truthy (s : string) : bool := negb (s =? "").

(** Truthiness of an optional string property. *)
Definition truthyOpt (o : option string) : bool :=
  match o with
  | Some s => truthy s
  | None => false
  end.

(** [a || b] on strings. *)
Definition orElse (a b : string) : string := if truthy a then a else b.

(** The value a promise settles with. *)
Inductive Settled (A : Type) : Type :=
| Rejected (message : string)
| Resolved (value : A).
Arguments Rejected {A} message.
Arguments Resolved {A} value.

End JS.
Import JS.

(** ** types.ts *)

Inductive LanguageCode : Type := en_US | en_IN | hi_IN.

Definition LANGUAGE_OPTIONS (l : LanguageCode) : string :=
  match l with
  | en_US => "English (US)"
  | en_IN => "English (India)"
  | hi_IN => "Hindi (India)"
  end.

Module KeyQuestionnaireItem.
Record t : Type := mk { theme : string; questions : list string }.
End KeyQuestionnaireItem.

Module ResearchPlan.
Record t : Type := mk {
  researchMethods : list string;
  keyQuestionnaire : list KeyQuestionnaireItem.t;
  guardrailsProbes : list string;
  estimatedParticipants : nat;
  participantRecruitmentCriteria : list string;
  timelineSuggestion : option string;
  ethicalConsiderations : option (list string)
}.
End ResearchPlan.

Inductive Speaker : Type := AI | User.

Definition Speaker_eqb (a b : Speaker) : bool :=
  match a, b with
  | AI, AI | User, User => true
  | _, _ => false
  end.

Module InterviewTranscriptItem.
Record t : Type := mk {
  speaker : Speaker;
  theme : option string;
  question : option string;
  answer : option string;
  text : option string;
  isProbing : option bool
}.
End InterviewTranscriptItem.

Module AIQuestionResponse.
Record t : Type := mk {
  nextQuestionText : string;
  theme : string;
  isProbing : bool;
  isEndOfInterview : bool
}.
End AIQuestionResponse.

Inductive InterviewStage : Type :=
| initial | processing | asking | listening | concluding | finished.

Definition Transcript : Type := list InterviewTranscriptItem.t.

(** ** services/geminiService.ts: generateFollowUpQuestion *)

Module PlannedQuestion.
(** the local [{ theme: string; question: string }] *)
Record t : Type := mk { theme : string; question : string }.
End PlannedQuestion.

(** [interviewTranscript.filter(item => item.speaker === 'AI' && item.question)
      .map(item => item.question)] *)
Definition askedQuestionsInTranscript (interviewTranscript : Transcript)
  : list (option string) :=
  map InterviewTranscriptItem.question
    (filter (fun item =>
               Speaker_eqb (InterviewTranscriptItem.speaker item) AI
               && truthyOpt (InterviewTranscriptItem.question item))
            interviewTranscript).

(** [Array.prototype.includes] on the list of asked questions. *)
Definition includesQuestion (asked : list (option string)) (question : string) : bool :=
  existsb (fun o => match o with
                    | Some q => q =? question
                    | None => false
                    end) asked.

(** The inner loop: [for (const question of themeItem.questions)] with its
    [break]. *)
Fixpoint scanQuestions (asked : list (option string)) (theme : string)
  (questions : list string) : option PlannedQuestion.t :=
  match questions with
  | [] => None
  | question :: rest =>
      if negb (includesQuestion asked question)
      then Some (PlannedQuestion.mk theme question)
      else scanQuestions asked theme rest
  end.

(** The outer loop: [for (const themeItem of researchPlan.keyQuestionnaire)],
    left as soon as the inner loop has found a question. *)
Fixpoint scanThemes (asked : list (option string))
  (keyQuestionnaire : list KeyQuestionnaireItem.t) : option PlannedQuestion.t :=
  match keyQuestionnaire with
  | [] => None
  | themeItem :: rest =>
      match scanQuestions asked (KeyQuestionnaireItem.theme themeItem)
                          (KeyQuestionnaireItem.questions themeItem) with
      | Some found => Some found
      | None => scanThemes asked rest
      end
  end.

Definition nextPlannedQuestion (researchPlan : ResearchPlan.t)
  (interviewTranscript : Transcript) : option PlannedQuestion.t :=
  scanThemes (askedQuestionsInTranscript interviewTranscript)
             (ResearchPlan.keyQuestionnaire researchPlan).

Definition closingRemark : string :=
  "Thank you for your time today. That's all the questions I have. Is there anything else you'd like to add or share before we finish?".

Definition shortClosingRemark : string :=
  "Thank you for your time today. That's all the questions I have.".

Definition fillerQuestion : string := "I'm ready for your response.".

Definition genericPhrase : string := "Is there anything else you'd like to share".

(** What the remote model does during one call of
    [generateFollowUpQuestion]. *)
Inductive ServiceOutcome : Type :=
| ClientInitFails (message : string)
    (** [getAiClient()] throws, before the [try] block is entered *)
| GenerateContentFails
    (** [model.generateContent] or [result.response.text()] throws *)
| ResponseText (parsed : option AIQuestionResponse.t)
    (** the call returns; [parsed] is [parseJsonFromText(responseText)],
        [None] for [null] and for every other falsy value. The code casts
        the parsed value to [AIQuestionResponse] without looking at it; here
        it is an object of that shape: two strings and two booleans. *).

(** The object built when [parseJsonFromText] yields [null]. *)
Definition unparsedFallback (npq : option PlannedQuestion.t)
  (selectedLanguage : LanguageCode) : AIQuestionResponse.t :=
  AIQuestionResponse.mk
    (match npq with
     | Some p => PlannedQuestion.question p
     | None => "Thank you for your responses. Is there anything else you'd like to share in "
                 ++ LANGUAGE_OPTIONS selectedLanguage ++ "?"
     end)
    (match npq with
     | Some p => PlannedQuestion.theme p
     | None => "General Feedback"
     end)
    false
    false.

(** The block between [CRUCIAL LOGIC FOR INTERVIEW CONCLUSION] and
    [END CRUCIAL LOGIC]. *)
Definition concludeOrRepair (npq : option PlannedQuestion.t)
  (finalResponse : AIQuestionResponse.t) : AIQuestionResponse.t :=
  let r :=
    match npq with
    | None =>
        let txt := AIQuestionResponse.nextQuestionText finalResponse in
        AIQuestionResponse.mk
          (if (txt =? "") || includes txt genericPhrase then closingRemark else txt)
          "Conclusion"
          false
          true
    | Some _ =>
        if AIQuestionResponse.isEndOfInterview finalResponse
           && (AIQuestionResponse.nextQuestionText finalResponse =? "")
        then
          AIQuestionResponse.mk
            (match npq with
             | Some p => PlannedQuestion.question p
             | None => shortClosingRemark
             end)
            (match npq with
             | Some p => PlannedQuestion.theme p
             | None => "Conclusion"
             end)
            false
            (match npq with Some _ => false | None => true end)
        else finalResponse
    end in
  if AIQuestionResponse.nextQuestionText r =? ""
  then AIQuestionResponse.mk fillerQuestion
         (AIQuestionResponse.theme r)
         (AIQuestionResponse.isProbing r)
         (AIQuestionResponse.isEndOfInterview r)
  else r.

(** The object returned from the [catch] block. *)
Definition callFailureFallback (npq : option PlannedQuestion.t)
  (selectedLanguage : LanguageCode) : AIQuestionResponse.t :=
  AIQuestionResponse.mk
    (match npq with
     | Some p => PlannedQuestion.question p
     | None => "Apologies, I encountered an issue. Let's try this: Is there anything else you'd like to share in "
                 ++ LANGUAGE_OPTIONS selectedLanguage ++ "?"
     end)
    (match npq with
     | Some p => PlannedQuestion.theme p
     | None => "Conclusion"
     end)
    false
    (match npq with Some _ => false | None => true end).

Definition generateFollowUpQuestion (researchPlan : ResearchPlan.t)
  (interviewTranscript : Transcript) (selectedLanguage : LanguageCode)
  (service : ServiceOutcome) : Settled (option AIQuestionResponse.t) :=
  let npq := nextPlannedQuestion researchPlan interviewTranscript in
  match service with
  | ClientInitFails message => Rejected message
  | ResponseText parsed =>
      let finalResponse :=
        match parsed with
        | Some p => p
        | None => unparsedFallback npq selectedLanguage
        end in
      Resolved (Some (concludeOrRepair npq finalResponse))
  | GenerateContentFails =>
      Resolved (Some (callFailureFallback npq selectedLanguage))
  end.

(** ** services/geminiService.ts: transcribeAudio *)

Module Blob.
Record t : Type := mk { size : nat }.
End Blob.

Module SttJson.
(** the body of a successful reply of the transcription backend *)
Record t : Type := mk { transcript : option string }.
End SttJson.

(** What the transcription backend does during one call of
    [transcribeAudio]. *)
Inductive SttBackend : Type :=
| FetchThrows (message : string)
    (** [fetch] or [response.json()] throws *)
| NotOk (errorData statusText : string)
    (** [response.ok] is false *)
| OkJson (result : option SttJson.t)
    (** [response.ok]; [result] is the parsed body, [None] for [null] *).

(** [!result || !result.transcript]: the reply has no usable transcript. *)
Definition lacksTranscript (result : option SttJson.t) : bool :=
  match result with
  | None => true
  | Some body => negb (truthyOpt (SttJson.transcript body))
  end.

Definition transcribeAudio (audioBlob : option Blob.t) (lang : LanguageCode)
  (backend : SttBackend) : Settled string :=
  match audioBlob with
  | None => Rejected "transcribeAudio: No audio blob provided for transcription."
  | Some _ =>
      match backend with
      | FetchThrows message => Rejected message
      | NotOk errorData statusText =>
          Rejected ("Failed to transcribe audio: " ++ orElse errorData statusText)%string
      | OkJson result =>
          if lacksTranscript result then Resolved ""
          else match result with
               | Some (SttJson.mk (Some transcript)) => Resolved transcript
               | _ => Resolved ""
               end
      end
  end.

(** ** components/foresight/InterviewScreen.tsx *)

Module VoiceInputStage.
Inductive t : Type := idle | recording | transcribing | error | readyToSubmit.
End VoiceInputStage.

Module Utterance.
(** what the callbacks of one [speechOperation] captured *)
Record t : Type := mk { text : string; theme : string }.
End Utterance.

Module FetchClosure.
(** what the [setTimeout] callback of [handleSubmitResponse] captured:
    [currentUserResponse], [currentAIQuestion], and through
    [fetchAndProcessNextQuestion] the [transcript] and [isFetchingQuestion] of
    the render in which the handler was created *)
Record t : Type := mk {
  currentUserResponse : string;
  currentAIQuestion : option AIQuestionResponse.t;
  transcript : Transcript;
  isFetchingQuestion : bool
}.
End FetchClosure.

Module RecognitionClosure.
(** what [recognition.onend] captured from the render in which
    [startListening] was created *)
Record t : Type := mk { isListening : bool; currentUserResponse : string }.
End RecognitionClosure.

(** How the session left the component: [onInterviewComplete(transcript)]
    or [onCancel()]. Either makes the parent unmount the screen. *)
Inductive Outcome : Type :=
| Completed (handedOff : Transcript)
| Cancelled.

(** How one [speechOperation] settles. *)
Inductive SpeechResult : Type :=
| Ended                          (** [audioInstance.onended] *)
| PlaybackError                  (** [audioInstance.onerror] *)
| SynthesisNull                  (** [synthesizeSpeech] resolved to [null] *)
| SynthesisThrows (message : string)
    (** [synthesizeSpeech] or [audioInstance.play()] rejected *).

(** What [startFallbackRecording] meets. *)
Inductive FallbackStart : Type :=
| RecorderStarts
| MicrophoneFails (message : string).

(** What [startListening] meets. *)
Inductive CaptureStart : Type :=
| TierAStarts
| TierAThrows (message : string) (fallback : FallbackStart)
    (** [new SpeechRecognition()] throws *)
| TierAStartThrows (message : string) (fallback : FallbackStart)
    (** [recognition.start()] throws, the recognition being stored already *)
| TierAUnsupported (fallback : FallbackStart).

Module InterviewScreen.

(** The [useState] cells (without [displayedQuestionText], which only the
    progressive reveal reads), the [useRef] cells that carry control state,
    the asynchronous work that is pending, and what the component has sent
    to its props.
    - [speakingPromiseRef] holds the pending [speechOperation]; an audio
      element that was paused or replaced never settles.
    - [mediaRecorderRef] is [true] while a recorder exists whose [onstop]
      has not run.
    - [request] is the argument of the pending [generateFollowUpQuestion]
      call, [requestLog] the arguments of all calls made so far.
    - [errors] collects the [onError] notifications. *)
Record State : Type := mkState {
  currentAIQuestion : option AIQuestionResponse.t;
  currentUserResponse : string;
  transcript : Transcript;
  interviewStage : InterviewStage;
  isFetchingQuestion : bool;
  isSpeaking : bool;
  isListening : bool;
  sttError : option string;
  voiceInputStage : VoiceInputStage.t;
  lastSpokenQuestionTextRef : option string;
  speakingPromiseRef : option Utterance.t;
  submitDebounceRef : option FetchClosure.t;
  speechRecognitionRef : option RecognitionClosure.t;
  mediaRecorderRef : bool;
  request : option Transcript;
  transcription : bool;
  requestLog : list Transcript;
  errors : list string;
  outcome : option Outcome
}.

Definition setCurrentAIQuestion (v : option AIQuestionResponse.t) (s : State) : State :=
  mkState v (currentUserResponse s) (transcript s) (interviewStage s) (isFetchingQuestion s) (isSpeaking s) (isListening s) (sttError s) (voiceInputStage s) (lastSpokenQuestionTextRef s) (speakingPromiseRef s) (submitDebounceRef s) (speechRecognitionRef s) (mediaRecorderRef s) (request s) (transcription s) (requestLog s) (errors s) (outcome s).

Definition setCurrentUserResponse (v : string) (s : State) : State :=
  mkState (currentAIQuestion s) v (transcript s) (interviewStage s) (isFetchingQuestion s) (isSpeaking s) (isListening s) (sttError s) (voiceInputStage s) (lastSpokenQuestionTextRef s) (speakingPromiseRef s) (submitDebounceRef s) (speechRecognitionRef s) (mediaRecorderRef s) (request s) (transcription s) (requestLog s) (errors s) (outcome s).

Definition setTranscript (v : Transcript) (s : State) : State :=
  mkState (currentAIQuestion s) (currentUserResponse s) v (interviewStage s) (isFetchingQuestion s) (isSpeaking s) (isListening s) (sttError s) (voiceInputStage s) (lastSpokenQuestionTextRef s) (speakingPromiseRef s) (submitDebounceRef s) (speechRecognitionRef s) (mediaRecorderRef s) (request s) (transcription s) (requestLog s) (errors s) (outcome s).

Definition setInterviewStage (v : InterviewStage) (s : State) : State :=
  mkState (currentAIQuestion s) (currentUserResponse s) (transcript s) v (isFetchingQuestion s) (isSpeaking s) (isListening s) (sttError s) (voiceInputStage s) (lastSpokenQuestionTextRef s) (speakingPromiseRef s) (submitDebounceRef s) (speechRecognitionRef s) (mediaRecorderRef s) (request s) (transcription s) (requestLog s) (errors s) (outcome s).

Definition setIsFetchingQuestion (v : bool) (s : State) : State :=
  mkState (currentAIQuestion s) (currentUserResponse s) (transcript s) (interviewStage s) v (isSpeaking s) (isListening s) (sttError s) (voiceInputStage s) (lastSpokenQuestionTextRef s) (speakingPromiseRef s) (submitDebounceRef s) (speechRecognitionRef s) (mediaRecorderRef s) (request s) (transcription s) (requestLog s) (errors s) (outcome s).

Definition setIsSpeaking (v : bool) (s : State) : State :=
  mkState (currentAIQuestion s) (currentUserResponse s) (transcript s) (interviewStage s) (isFetchingQuestion s) v (isListening s) (sttError s) (voiceInputStage s) (lastSpokenQuestionTextRef s) (speakingPromiseRef s) (submitDebounceRef s) (speechRecognitionRef s) (mediaRecorderRef s) (request s) (transcription s) (requestLog s) (errors s) (outcome s).

Definition setIsListening (v : bool) (s : State) : State :=
  mkState (currentAIQuestion s) (currentUserResponse s) (transcript s) (interviewStage s) (isFetchingQuestion s) (isSpeaking s) v (sttError s) (voiceInputStage s) (lastSpokenQuestionTextRef s) (speakingPromiseRef s) (submitDebounceRef s) (speechRecognitionRef s) (mediaRecorderRef s) (request s) (transcription s) (requestLog s) (errors s) (outcome s).

Definition setSttError (v : option string) (s : State) : State :=
  mkState (currentAIQuestion s) (currentUserResponse s) (transcript s) (interviewStage s) (isFetchingQuestion s) (isSpeaking s) (isListening s) v (voiceInputStage s) (lastSpokenQuestionTextRef s) (speakingPromiseRef s) (submitDebounceRef s) (speechRecognitionRef s) (mediaRecorderRef s) (request s) (transcription s) (requestLog s) (errors s) (outcome s).

Definition setVoiceInputStage (v : VoiceInputStage.t) (s : State) : State :=
  mkState (currentAIQuestion s) (currentUserResponse s) (transcript s) (interviewStage s) (isFetchingQuestion s) (isSpeaking s) (isListening s) (sttError s) v (lastSpokenQuestionTextRef s) (speakingPromiseRef s) (submitDebounceRef s) (speechRecognitionRef s) (mediaRecorderRef s) (request s) (transcription s) (requestLog s) (errors s) (outcome s).

Definition setLastSpokenQuestionTextRef (v : option string) (s : State) : State :=
  mkState (currentAIQuestion s) (currentUserResponse s) (transcript s) (interviewStage s) (isFetchingQuestion s) (isSpeaking s) (isListening s) (sttError s) (voiceInputStage s) v (speakingPromiseRef s) (submitDebounceRef s) (speechRecognitionRef s) (mediaRecorderRef s) (request s) (transcription s) (requestLog s) (errors s) (outcome s).

Definition setSpeakingPromiseRef (v : option Utterance.t) (s : State) : State :=
  mkState (currentAIQuestion s) (currentUserResponse s) (transcript s) (interviewStage s) (isFetchingQuestion s) (isSpeaking s) (isListening s) (sttError s) (voiceInputStage s) (lastSpokenQuestionTextRef s) v (submitDebounceRef s) (speechRecognitionRef s) (mediaRecorderRef s) (request s) (transcription s) (requestLog s) (errors s) (outcome s).

Definition setSubmitDebounceRef (v : option FetchClosure.t) (s : State) : State :=
  mkState (currentAIQuestion s) (currentUserResponse s) (transcript s) (interviewStage s) (isFetchingQuestion s) (isSpeaking s) (isListening s) (sttError s) (voiceInputStage s) (lastSpokenQuestionTextRef s) (speakingPromiseRef s) v (speechRecognitionRef s) (mediaRecorderRef s) (request s) (transcription s) (requestLog s) (errors s) (outcome s).

Definition setSpeechRecognitionRef (v : option RecognitionClosure.t) (s : State) : State :=
  mkState (currentAIQuestion s) (currentUserResponse s) (transcript s) (interviewStage s) (isFetchingQuestion s) (isSpeaking s) (isListening s) (sttError s) (voiceInputStage s) (lastSpokenQuestionTextRef s) (speakingPromiseRef s) (submitDebounceRef s) v (mediaRecorderRef s) (request s) (transcription s) (requestLog s) (errors s) (outcome s).

Definition setMediaRecorderRef (v : bool) (s : State) : State :=
  mkState (currentAIQuestion s) (currentUserResponse s) (transcript s) (interviewStage s) (isFetchingQuestion s) (isSpeaking s) (isListening s) (sttError s) (voiceInputStage s) (lastSpokenQuestionTextRef s) (speakingPromiseRef s) (submitDebounceRef s) (speechRecognitionRef s) v (request s) (transcription s) (requestLog s) (errors s) (outcome s).

Definition setRequest (v : option Transcript) (s : State) : State :=
  mkState (currentAIQuestion s) (currentUserResponse s) (transcript s) (interviewStage s) (isFetchingQuestion s) (isSpeaking s) (isListening s) (sttError s) (voiceInputStage s) (lastSpokenQuestionTextRef s) (speakingPromiseRef s) (submitDebounceRef s) (speechRecognitionRef s) (mediaRecorderRef s) v (transcription s) (requestLog s) (errors s) (outcome s).

Definition setTranscription (v : bool) (s : State) : State :=
  mkState (currentAIQuestion s) (currentUserResponse s) (transcript s) (interviewStage s) (isFetchingQuestion s) (isSpeaking s) (isListening s) (sttError s) (voiceInputStage s) (lastSpokenQuestionTextRef s) (speakingPromiseRef s) (submitDebounceRef s) (speechRecognitionRef s) (mediaRecorderRef s) (request s) v (requestLog s) (errors s) (outcome s).

Definition setRequestLog (v : list Transcript) (s : State) : State :=
  mkState (currentAIQuestion s) (currentUserResponse s) (transcript s) (interviewStage s) (isFetchingQuestion s) (isSpeaking s) (isListening s) (sttError s) (voiceInputStage s) (lastSpokenQuestionTextRef s) (speakingPromiseRef s) (submitDebounceRef s) (speechRecognitionRef s) (mediaRecorderRef s) (request s) (transcription s) v (errors s) (outcome s).

Definition setErrors (v : list string) (s : State) : State :=
  mkState (currentAIQuestion s) (currentUserResponse s) (transcript s) (interviewStage s) (isFetchingQuestion s) (isSpeaking s) (isListening s) (sttError s) (voiceInputStage s) (lastSpokenQuestionTextRef s) (speakingPromiseRef s) (submitDebounceRef s) (speechRecognitionRef s) (mediaRecorderRef s) (request s) (transcription s) (requestLog s) v (outcome s).

Definition setOutcome (v : option Outcome) (s : State) : State :=
  mkState (currentAIQuestion s) (currentUserResponse s) (transcript s) (interviewStage s) (isFetchingQuestion s) (isSpeaking s) (isListening s) (sttError s) (voiceInputStage s) (lastSpokenQuestionTextRef s) (speakingPromiseRef s) (submitDebounceRef s) (speechRecognitionRef s) (mediaRecorderRef s) (request s) (transcription s) (requestLog s) (errors s) v.


Definition initialState : State :=
  mkState None "" [] initial false false false None VoiceInputStage.idle
          None None None None false None false [] [] None.

Definition InterviewStage_eqb (a b : InterviewStage) : bool :=
  match a, b with
  | initial, initial | processing, processing | asking, asking
  | listening, listening | concluding, concluding | finished, finished => true
  | _, _ => false
  end.

Definition isTranscribing (v : VoiceInputStage.t) : bool :=
  match v with VoiceInputStage.transcribing => true | _ => false end.

Definition isRecording (v : VoiceInputStage.t) : bool :=
  match v with VoiceInputStage.recording => true | _ => false end.

Definition isSome {A : Type} (o : option A) : bool :=
  match o with Some _ => true | None => false end.

(** [x?.theme === "Conclusion"] *)
Definition themeIsConclusion (q : option AIQuestionResponse.t) : bool :=
  match q with
  | Some r => AIQuestionResponse.theme r =? "Conclusion"
  | None => false
  end.

(** [theme !== "Conclusion" ? 'listening' : 'concluding'] *)
Definition stageAfterSpeech (theme : string) : InterviewStage :=
  if negb (theme =? "Conclusion") then listening else concluding.

Definition onError (message : string) (s : State) : State :=
  setErrors (errors s ++ [message]) s.

Definition userItem (answer : string) (theme : option string)
  : InterviewTranscriptItem.t :=
  InterviewTranscriptItem.mk User theme None (Some answer) None None.

Definition aiItem (r : AIQuestionResponse.t) : InterviewTranscriptItem.t :=
  InterviewTranscriptItem.mk AI
    (Some (AIQuestionResponse.theme r))
    (Some (AIQuestionResponse.nextQuestionText r))
    None None
    (Some (AIQuestionResponse.isProbing r)).

Definition emergencyConclusion : AIQuestionResponse.t :=
  AIQuestionResponse.mk
    "An error occurred. We'll end the interview here. Thanks for your time."
    "Conclusion" false true.

Section Props.

Variable researchPlan : ResearchPlan.t.
Variable selectedLanguage : LanguageCode.

(** [stopListening]: the recognition and the recorder are asked to stop,
    which their [onend] and [onstop] callbacks answer later. *)
Definition stopListening (s : State) : State := setIsListening false s.

(** [updatedTranscriptWithUserAnswer] *)
Definition updatedTranscriptWithUserAnswer (transcript : Transcript)
  (userAnswer : option string)
  (currentQuestionData : option AIQuestionResponse.t) : Transcript :=
  let theme := option_map AIQuestionResponse.theme currentQuestionData in
  match userAnswer with
  | Some a =>
      if truthy (trim a) then transcript ++ [userItem (trim a) theme]
      else if negb (themeIsConclusion currentQuestionData)
           then transcript ++ [userItem "No response provided." theme]
           else transcript
  | None => transcript
  end.

(** [fetchAndProcessNextQuestion] up to the [await]. [closure] gives the
    [transcript] and [isFetchingQuestion] the callback was created with. *)
Definition fetchAndProcessNextQuestion (closure : FetchClosure.t)
  (userAnswer : option string)
  (currentQuestionData : option AIQuestionResponse.t) (s : State) : State :=
  if FetchClosure.isFetchingQuestion closure then s
  else
    let updated :=
      updatedTranscriptWithUserAnswer (FetchClosure.transcript closure)
                                      userAnswer currentQuestionData in
    setRequestLog (requestLog s ++ [updated])
      (setRequest (Some updated)
        (setCurrentUserResponse ""
          (setTranscript updated
            (setVoiceInputStage VoiceInputStage.idle
              (stopListening
                (setInterviewStage processing
                  (setIsFetchingQuestion true s))))))).

(** The continuation of [fetchAndProcessNextQuestion] after the [await],
    with its [catch] and [finally]. *)
Definition questionArrives (service : ServiceOutcome) (s : State) : State :=
  match request s with
  | None => s
  | Some sent =>
      let failed (message : string) :=
        setInterviewStage concluding
          (setCurrentAIQuestion (Some emergencyConclusion)
            (setTranscript (transcript s ++ [aiItem emergencyConclusion])
              (onError ("Failed to get next question: " ++ message ++ ".")%string s))) in
      let settled :=
        match generateFollowUpQuestion researchPlan sent selectedLanguage service with
        | Resolved (Some aiResponse) =>
            setInterviewStage
              (if AIQuestionResponse.isEndOfInterview aiResponse
               then concluding else asking)
              (setCurrentAIQuestion (Some aiResponse)
                (setTranscript (transcript s ++ [aiItem aiResponse]) s))
        | Resolved None => failed "AI returned a null or invalid response."
        | Rejected message => failed message
        end in
      setRequest None (setIsFetchingQuestion false settled)
  end.

(** The mount effect. *)
Definition mountEffect (s : State) : State :=
  if InterviewStage_eqb (interviewStage s) initial
     && (length (transcript s) =? 0)%nat
  then fetchAndProcessNextQuestion
         (FetchClosure.mk (currentUserResponse s) (currentAIQuestion s)
                          (transcript s) (isFetchingQuestion s))
         None None s
  else s.

(** [speakText] up to the start of [speechOperation]. *)
Definition speakText (text : string) (lang : LanguageCode) (theme : string)
  (forceSpeak : bool) (s : State) : State :=
  if match lastSpokenQuestionTextRef s with
     | Some spoken => spoken =? text
     | None => false
     end && negb forceSpeak
  then setInterviewStage (stageAfterSpeech theme) (setIsSpeaking false s)
  else if isSome (speakingPromiseRef s) && negb forceSpeak then s
  else if negb (truthy (trim text))
  then setSpeakingPromiseRef None
         (setInterviewStage (stageAfterSpeech theme) (setIsSpeaking false s))
  else setSpeakingPromiseRef (Some (Utterance.mk text theme))
         (setIsSpeaking true (setLastSpokenQuestionTextRef (Some text) s)).

(** [handleSpeechEnd], and the two branches of [speechOperation] that end
    the turn without it. A speech operation settles once: the [onerror] of an
    audio element whose [play()] has been rejected is not followed. *)
Definition speechSettles (result : SpeechResult) (s : State) : State :=
  match speakingPromiseRef s with
  | None => s
  | Some u =>
      let finish (s0 : State) :=
        setSpeakingPromiseRef None
          (setInterviewStage (stageAfterSpeech (Utterance.theme u))
            (setIsSpeaking false s0)) in
      match result with
      | Ended => finish s
      | PlaybackError => finish (onError "Audio playback error." s)
      | SynthesisNull => finish (onError "Speech generation failed." s)
      | SynthesisThrows message =>
          finish
            (onError ("Failed to get speech: " ++ message ++ ".")%string
              (if match lastSpokenQuestionTextRef s with
                  | Some spoken => spoken =? Utterance.text u
                  | None => false
                  end
               then setLastSpokenQuestionTextRef None s
               else s))
      end
  end.

(** The effect that speaks the current question. *)
Definition speakEffect (s : State) : State :=
  match currentAIQuestion s with
  | Some q =>
      if InterviewStage_eqb (interviewStage s) asking
         || InterviewStage_eqb (interviewStage s) concluding
      then speakText (AIQuestionResponse.nextQuestionText q) selectedLanguage
                     (AIQuestionResponse.theme q) false s
      else s
  | None => s
  end.

(** The 500 ms timer of the last effect. *)
Definition finishTimer (s : State) : State :=
  if InterviewStage_eqb (interviewStage s) concluding
     && negb (isSpeaking s)
     && themeIsConclusion (currentAIQuestion s)
  then setInterviewStage finished s
  else s.

(** The second half of the last effect. *)
Definition finishedEffect (s : State) : State :=
  if InterviewStage_eqb (interviewStage s) finished
     && (0 <? length (transcript s))%nat
  then setOutcome (Some (Completed (transcript s))) s
  else s.

Definition handleSubmitResponse (s : State) : State :=
  if isSpeaking s || isListening s
     || InterviewStage_eqb (interviewStage s) processing
  then s
  else if (trim (currentUserResponse s) =? "")
          && negb (themeIsConclusion (currentAIQuestion s))
  then onError "Please enter a response or use voice input." s
  else if isSome (submitDebounceRef s) then s
  else setSubmitDebounceRef
         (Some (FetchClosure.mk (currentUserResponse s) (currentAIQuestion s)
                                (transcript s) (isFetchingQuestion s)))
         s.

(** The callback of the 300 ms timer set by [handleSubmitResponse]. *)
Definition submitTimerFires (s : State) : State :=
  match submitDebounceRef s with
  | None => s
  | Some closure =>
      setSubmitDebounceRef None
        (fetchAndProcessNextQuestion closure
           (Some (FetchClosure.currentUserResponse closure))
           (FetchClosure.currentAIQuestion closure) s)
  end.

(** [finalTranscript] of [handleCompleteInterview] *)
Definition finalTranscript (s : State) : Transcript :=
  if truthy (trim (currentUserResponse s))
  then transcript s
         ++ [userItem (trim (currentUserResponse s))
               (Some (match currentAIQuestion s with
                      | Some q => orElse (AIQuestionResponse.theme q) "Conclusion"
                      | None => "Conclusion"
                      end))]
  else transcript s.

Definition handleCompleteInterview (s : State) : State :=
  setOutcome (Some (Completed (finalTranscript s))) s.

Definition startFallbackRecording (fallback : FallbackStart) (s : State) : State :=
  match fallback with
  | RecorderStarts => setMediaRecorderRef true s
  | MicrophoneFails message =>
      setVoiceInputStage VoiceInputStage.error
        (setIsListening false
          (setSttError (Some ("Microphone error: " ++ message ++ ".")%string) s))
  end.

(** [startListening]. The audio element of [audioRef] is taken to exist for
    as long as the speech operation is pending. The recognition is stored in
    [speechRecognitionRef] as soon as it has been constructed, so it stays
    there when its [start()] throws. *)
Definition startListening (capture : CaptureStart) (s : State) : State :=
  let s1 :=
    setIsListening true
      (setVoiceInputStage VoiceInputStage.recording
        (setCurrentUserResponse "" (setSttError None s))) in
  let s2 :=
    if isSome (speakingPromiseRef s) && isSpeaking s
    then setIsSpeaking false s1 else s1 in
  match capture with
  | TierAStarts =>
      setSpeechRecognitionRef
        (Some (RecognitionClosure.mk (isListening s) (currentUserResponse s))) s2
  | TierAThrows message fallback =>
      startFallbackRecording fallback
        (setVoiceInputStage VoiceInputStage.error
          (setSttError
             (Some ("Speech recognition unavailable: " ++ message
                      ++ ". Falling back to manual transcription.")%string) s2))
  | TierAStartThrows message fallback =>
      startFallbackRecording fallback
        (setVoiceInputStage VoiceInputStage.error
          (setSttError
             (Some ("Speech recognition unavailable: " ++ message
                      ++ ". Falling back to manual transcription.")%string)
             (setSpeechRecognitionRef
                (Some (RecognitionClosure.mk (isListening s) (currentUserResponse s)))
                s2)))
  | TierAUnsupported fallback =>
      startFallbackRecording fallback
        (setSttError
           (Some "Real-time transcription not supported. Using manual transcription.")
           s2)
  end.

(** [recognition.onresult]; [heard] is [finalTranscript + interimTranscript]. *)
Definition recognitionResult (heard : string) (s : State) : State :=
  match speechRecognitionRef s with
  | Some _ => setCurrentUserResponse heard s
  | None => s
  end.

(** [recognition.onerror] *)
Definition recognitionError (error : string) (fallback : FallbackStart)
  (s : State) : State :=
  match speechRecognitionRef s with
  | Some _ =>
      startFallbackRecording fallback
        (setSpeechRecognitionRef None
          (setIsListening false
            (setVoiceInputStage VoiceInputStage.error
              (setSttError
                 (Some ("Speech recognition error: " ++ error
                          ++ ". Falling back to manual transcription.")%string) s))))
  | None => s
  end.

(** [recognition.onend] of the recognition held in [speechRecognitionRef];
    the [onend] of a recognition that [onerror] has released is not
    followed. *)
Definition recognitionEnd (s : State) : State :=
  match speechRecognitionRef s with
  | Some closure =>
      if RecognitionClosure.isListening closure then s
      else setSpeechRecognitionRef None
             (setVoiceInputStage
                (if truthy (trim (RecognitionClosure.currentUserResponse closure))
                 then VoiceInputStage.readyToSubmit else VoiceInputStage.idle)
                s)
  | None => s
  end.

(** [mediaRecorderRef.current.onstop] up to the [await]; [chunks] are the
    sizes of the blobs delivered to [ondataavailable]. *)
Definition recorderStops (chunks : list nat) (s : State) : State :=
  if mediaRecorderRef s then
    let audioBlob := Blob.mk (list_sum (filter (fun n => (0 <? n)%nat) chunks)) in
    let s1 := setMediaRecorderRef false (setIsListening false s) in
    if (Blob.size audioBlob =? 0)%nat
    then setVoiceInputStage VoiceInputStage.error
           (setSttError (Some "No audio recorded.") s1)
    else setTranscription true
           (setCurrentUserResponse "Transcribing audio..."
             (setVoiceInputStage VoiceInputStage.transcribing s1))
  else s.

(** The continuation of [onstop] after [await transcribeAudio(...)]. *)
Definition transcriptionSettles (audioBlob : Blob.t) (backend : SttBackend)
  (s : State) : State :=
  if transcription s then
    setTranscription false
      match transcribeAudio (Some audioBlob) selectedLanguage backend with
      | Resolved transcribedText =>
          setSttError None
            (setVoiceInputStage VoiceInputStage.readyToSubmit
              (setCurrentUserResponse transcribedText s))
      | Rejected message =>
          setVoiceInputStage VoiceInputStage.error
            (setCurrentUserResponse ""
              (setSttError
                 (Some ("Transcription failed: " ++ message ++ ". Please try again.")%string)
                 s))
      end
  else s.

(** *** The rendered controls *)

Definition isConcludingQuestion (s : State) : bool :=
  themeIsConclusion (currentAIQuestion s).

Definition isGlobalInteractionDisabled (s : State) : bool :=
  isSpeaking s
  || InterviewStage_eqb (interviewStage s) processing
  || isTranscribing (voiceInputStage s).

(** [isDisabledForThisButton] of [getVoiceButtonProps] *)
Definition voiceButtonDisabled (s : State) : bool :=
  match voiceInputStage s with
  | VoiceInputStage.recording =>
      isSpeaking s || InterviewStage_eqb (interviewStage s) processing
  | VoiceInputStage.transcribing => true
  | _ => isGlobalInteractionDisabled s || isListening s
  end.

(** The loading spinner is returned instead of the screen. *)
Definition spinnerShown (s : State) : bool :=
  InterviewStage_eqb (interviewStage s) initial
  && (length (transcript s) =? 0)%nat.

(** The branch [interviewStage !== 'finished'] of the screen. *)
Definition panelShown (s : State) : bool :=
  negb (spinnerShown s) && negb (InterviewStage_eqb (interviewStage s) finished).

(** *** Events *)

(** Everything that can run a piece of the component's code: the controls
    the participant can use, and the completions of timers, promises and
    media callbacks. *)
Inductive Event : Type :=
| TypeResponse (value : string)      (** [onChange] of the text area *)
| ClickSubmit                        (** "Submit Response" *)
| ClickReplay                        (** "Replay Question" *)
| ClickVoice (capture : CaptureStart)(** the voice button *)
| ClickFinish                        (** "Finish Interview" / "Proceed to Generate Report" *)
| ClickCancel                        (** "Cancel Interview" *)
| SubmitTimerFires
| QuestionArrives (service : ServiceOutcome)
| SpeakEffect
| SpeechSettles (result : SpeechResult)
| FinishTimer
| FinishedEffect
| RecognitionResult (heard : string)
| RecognitionError (error : string) (fallback : FallbackStart)
| RecognitionEnd
| RecorderStops (chunks : list nat)
| TranscriptionSettles (audioBlob : Blob.t) (backend : SttBackend).

(** Whether the control behind a participant event is rendered and enabled.
    Completions are always possible; their handlers look at what is
    pending. *)
Definition offered (s : State) (e : Event) : bool :=
  match e with
  | TypeResponse _ =>
      panelShown s && negb (isGlobalInteractionDisabled s || isListening s)
  | ClickSubmit =>
      panelShown s && negb (isConcludingQuestion s)
      && negb (isGlobalInteractionDisabled s
               || negb (truthy (trim (currentUserResponse s))))
  | ClickReplay =>
      panelShown s && isSome (currentAIQuestion s) && negb (isSpeaking s)
      && negb (InterviewStage_eqb (interviewStage s) processing)
  | ClickVoice _ => panelShown s && negb (voiceButtonDisabled s)
  | ClickFinish =>
      negb (spinnerShown s)
      && (InterviewStage_eqb (interviewStage s) finished
          || (isConcludingQuestion s && negb (isGlobalInteractionDisabled s)))
  | ClickCancel => panelShown s && negb (isGlobalInteractionDisabled s)
  | _ => true
  end.

(** The code an event runs. Once the session has been handed off or
    cancelled the screen is unmounted and nothing runs any more. *)
Definition step (s : State) (e : Event) : State :=
  match outcome s with
  | Some _ => s
  | None =>
      match e with
      | TypeResponse value => setCurrentUserResponse value s
      | ClickSubmit => handleSubmitResponse s
      | ClickReplay =>
          match currentAIQuestion s with
          | Some q => speakText (AIQuestionResponse.nextQuestionText q)
                                selectedLanguage (AIQuestionResponse.theme q) true s
          | None => s
          end
      | ClickVoice capture =>
          if isRecording (voiceInputStage s) then stopListening s
          else startListening capture s
      | ClickFinish => handleCompleteInterview s
      | ClickCancel => setOutcome (Some Cancelled) s
      | SubmitTimerFires => submitTimerFires s
      | QuestionArrives service => questionArrives service s
      | SpeakEffect => speakEffect s
      | SpeechSettles result => speechSettles result s
      | FinishTimer => finishTimer s
      | FinishedEffect => finishedEffect s
      | RecognitionResult heard => recognitionResult heard s
      | RecognitionError error fallback => recognitionError error fallback s
      | RecognitionEnd => recognitionEnd s
      | RecorderStops chunks => recorderStops chunks s
      | TranscriptionSettles audioBlob backend =>
          transcriptionSettles audioBlob backend s
      end
  end.

Fixpoint run (s : State) (events : list Event) : State :=
  match events with
  | [] => s
  | e :: rest => run (step s e) rest
  end.

(** Every participant event of the run used a control that was on offer. *)
Fixpoint allOffered (s : State) (events : list Event) : bool :=
  match events with
  | [] => true
  | e :: rest => offered s e && allOffered (step s e) rest
  end.

(** The screen after its first render: the mount effect has run. *)
Definition mounted : State := mountEffect initialState.

End Props.

(** *** Shapes of transcripts *)

Definition otherSpeaker (sp : Speaker) : Speaker :=
  match sp with AI => User | User => AI end.

(** The turns alternate, the first one being spoken by [next]. *)
Fixpoint alternates (next : Speaker) (t : Transcript) : bool :=
  match t with
  | [] => true
  | item :: rest =>
      Speaker_eqb (InterviewTranscriptItem.speaker item) next
      && alternates (otherSpeaker next) rest
  end.

(** The speaker of the last turn. *)
Fixpoint lastSpeaker (t : Transcript) : option Speaker :=
  match t with
  | [] => None
  | item :: rest =>
      match lastSpeaker rest with
      | Some sp => Some sp
      | None => Some (InterviewTranscriptItem.speaker item)
      end
  end.

Definition countSpeaker (sp : Speaker) (t : Transcript) : nat :=
  length (filter (fun item => Speaker_eqb (InterviewTranscriptItem.speaker item) sp) t).

(** [t] is an initial segment of [t']. *)
Definition extends (t t' : Transcript) : Prop := exists added, t' = t ++ added.

(** [handleSubmitResponse] scheduled the submission: no timer was pending
    before the call and one is pending after it. *)
Definition submissionAccepted (s : State) : bool :=
  negb (isSome (submitDebounceRef s))
  && isSome (submitDebounceRef (handleSubmitResponse s)).

(** *** Invariants of the sessions *)

(** A submission that was scheduled while no request was pending still sees
    the transcript it captured. *)
Definition closureFresh (s : State) (c : FetchClosure.t) : Prop :=
  FetchClosure.isFetchingQuestion c = false ->
  isFetchingQuestion s = false /\ FetchClosure.transcript c = transcript s.

(** The re-entrancy flag is set exactly while a request is pending, and the
    scheduled submission is fresh. *)
Definition consistent (s : State) : Prop :=
  isSome (request s) = isFetchingQuestion s
  /\ forall c, submitDebounceRef s = Some c -> closureFresh s c.

(** What holds in the sessions driven through the rendered controls: the
    transcript alternates and starts with the agent; while a request is
    pending the agent has not the last word and the current question is not
    a concluding one, otherwise the agent has the last word; a scheduled
    submission carries a non-blank answer; the stage [finished] is only
    reached on a concluding question; what was handed off alternates. *)
Definition orderly (s : State) : Prop :=
  consistent s
  /\ alternates AI (transcript s) = true
  /\ (if isFetchingQuestion s
      then lastSpeaker (transcript s) <> Some AI /\ isConcludingQuestion s = false
      else lastSpeaker (transcript s) = Some AI)
  /\ (forall c, submitDebounceRef s = Some c ->
        FetchClosure.isFetchingQuestion c = false ->
        truthy (trim (FetchClosure.currentUserResponse c)) = true
        /\ isConcludingQuestion s = false)
  /\ (interviewStage s = finished -> isConcludingQuestion s = true)
  /\ (forall t, outcome s = Some (Completed t) -> alternates AI t = true).

(** The events that leave the conversation alone. *)
Definition quiet (e : Event) : bool :=
  match e with
  | ClickSubmit | SubmitTimerFires | QuestionArrives _ => false
  | _ => true
  end.

(** The sessions in which the question generation call is rejected: either
    the first call is still pending and nothing has been said, or the
    emergency conclusion is the whole transcript; one call has been made. *)
Definition rejectedSession (s : State) : Prop :=
  submitDebounceRef s = None
  /\ requestLog s = [[]]
  /\ ((isFetchingQuestion s = true /\ request s = Some []
       /\ transcript s = [] /\ currentAIQuestion s = None
       /\ speakingPromiseRef s = None /\ interviewStage s = processing)
      \/ (isFetchingQuestion s = false /\ request s = None
          /\ transcript s = [aiItem emergencyConclusion]
          /\ currentAIQuestion s = Some emergencyConclusion)).

(** Every reply of the question generation call in [events] is a rejection
    of the promise. *)
Definition everyCallRejected (events : list Event) : bool :=
  forallb (fun e => match e with
                    | QuestionArrives (ClientInitFails _) => true
                    | QuestionArrives _ => false
                    | _ => true
                    end) events.

(** The candidate that becomes the next AGENT turn when the pending call
    settles: the validated reply, or the emergency conclusion. *)
Definition arrivingQuestion (researchPlan : ResearchPlan.t)
  (selectedLanguage : LanguageCode) (sent : Transcript)
  (service : ServiceOutcome) : AIQuestionResponse.t :=
  match generateFollowUpQuestion researchPlan sent selectedLanguage service with
  | Resolved (Some aiResponse) => aiResponse
  | _ => emergencyConclusion
  end.

(** *** Example sessions *)

Definition twoQuestionPlan : ResearchPlan.t :=
  ResearchPlan.mk [] [KeyQuestionnaireItem.mk "Onboarding"
                        ["How did you find our app?"; "What did you try first?"]]
                  [] 5 [] None None.

Definition firstQuestion : AIQuestionResponse.t :=
  AIQuestionResponse.mk "How did you find our app?" "Onboarding" false false.

Definition farewell : AIQuestionResponse.t :=
  AIQuestionResponse.mk "Thanks, that is all." "Conclusion" false true.

(** The first question is asked and spoken, the participant types
    "Via a friend". *)
Definition typedSession : list Event :=
  [QuestionArrives (ResponseText (Some firstQuestion)); SpeakEffect;
   SpeechSettles Ended; TypeResponse "Via a friend"].

(** ... and submits. *)
Definition submittedSession : list Event := typedSession ++ [ClickSubmit].

(** ... and the debounce window elapses. *)
Definition answeredSession : list Event := submittedSession ++ [SubmitTimerFires].

(** The service concludes at once; the closing remark is spoken to its end. *)
Definition concludedSession : list Event :=
  [QuestionArrives (ResponseText (Some farewell)); SpeakEffect;
   SpeechSettles Ended].

(** The participant answers the first question, submits, and replays the
    question within the debounce window; while the replay is still playing
    the timer fires and the service concludes; then the replay ends. *)
Definition replayRace : list Event :=
  [QuestionArrives (ResponseText (Some firstQuestion)); SpeakEffect;
   SpeechSettles Ended; TypeResponse "Via a friend"; ClickSubmit; ClickReplay;
   SubmitTimerFires; QuestionArrives (ResponseText (Some farewell));
   SpeakEffect; SpeechSettles Ended].

(** The participant answers, submits and replays the question within the
    debounce window; the timer fires and the request is sent while the replay
    is playing; the replay ends, which sets the stage back to [listening]
    while the request is still pending; the participant types again. *)
Definition overlappedSession : list Event :=
  [QuestionArrives (ResponseText (Some firstQuestion)); SpeakEffect;
   SpeechSettles Ended; TypeResponse "Via a friend"; ClickSubmit; ClickReplay;
   SubmitTimerFires; SpeechSettles Ended; TypeResponse "And from an ad"].

(** A recorder is running in the fallback tier. *)
Definition fallbackRecording : list Event :=
  [QuestionArrives (ResponseText (Some firstQuestion)); SpeakEffect;
   SpeechSettles Ended; ClickVoice (TierAUnsupported RecorderStarts)].

End InterviewScreen.

(** ** Example plans and sessions *)

Definition onboardingPlan : ResearchPlan.t :=
  ResearchPlan.mk [] [KeyQuestionnaireItem.mk "Onboarding" ["How did you find our app?"]]
                  [] 5 [] None None.

Definition onboardingTranscript : Transcript :=
  [InterviewTranscriptItem.mk AI (Some "Onboarding") (Some "How did you find our app?")
     None None (Some false);
   InterviewTranscriptItem.mk User (Some "Onboarding") None (Some "Via a friend")
     None None].

Definition planWithEmptyQuestion : ResearchPlan.t :=
  ResearchPlan.mk [] [KeyQuestionnaireItem.mk "Onboarding" [""]] [] 5 [] None None.

Definition emptyAgentTurn : InterviewTranscriptItem.t :=
  InterviewTranscriptItem.mk AI (Some "Onboarding") (Some "") None None (Some false).

(** ** The next-question protocol as the specification words it *)

(** The planned questions in scan order: themes in declared order, the
    questions of a theme in declared order. *)
Definition plannedQuestions (researchPlan : ResearchPlan.t) : list PlannedQuestion.t :=
  flat_map (fun themeItem =>
              map (PlannedQuestion.mk (KeyQuestionnaireItem.theme themeItem))
                  (KeyQuestionnaireItem.questions themeItem))
           (ResearchPlan.keyQuestionnaire researchPlan).

(** The exact text [q] appears as an AGENT turn of the transcript. *)
Definition appearsAsAgentTurn (t : Transcript) (q : string) : bool :=
  existsb (fun item =>
             Speaker_eqb (InterviewTranscriptItem.speaker item) AI
             && match InterviewTranscriptItem.question item with
                | Some asked => asked =? q
                | None => false
                end) t.

(** The specification's [nextPlannedQuestion]: the first planned question
    whose exact text is absent from all AGENT turns. *)
Definition spec_nextPlannedQuestion (researchPlan : ResearchPlan.t)
  (t : Transcript) : option PlannedQuestion.t :=
  find (fun p => negb (appearsAsAgentTurn t (PlannedQuestion.question p)))
       (plannedQuestions researchPlan).

(** The exact text [q] appears as an AGENT turn whose text is not empty. *)
Definition appearsAsSpokenAgentTurn (t : Transcript) (q : string) : bool :=
  appearsAsAgentTurn t q && truthy q.

(** * The rest of the services, and the application shell

    What surrounds the conversational core: the validation of generated
    plans and reports, the cached client and [synthesizeSpeech] from
    [services/geminiService.ts], the two handlers of the backend
    ([server.js]), [getEffectiveDisplayIndex] of
    [components/foresight/StepIndicator.tsx], [QuestionnaireDisplay], and
    [startInterviewProcess] of [App.tsx].

    A function that can throw returns an [option]: [None] when it throws.
    An index that can be [-1] is a [Z]. *)

From Stdlib Require Import ZArith.

(** ** Values produced by [JSON.parse] *)

(** Of a number the code below asks only whether it is zero; an object
    lists its properties, each key once. *)
#[warnings="-register-all"] Inductive Json : Type :=
| JNull
| JBool (b : bool)
| JNumber (isZero : bool)
| JString (s : string)
| JArray (items : list Json)
| JObject (members : list (string * Json)).

(** Truthiness of a parsed value. *)
Definition truthyJson (value : Json) : bool :=
  match value with
  | JNull => false
  | JBool b => b
  | JNumber isZero => negb isZero
  | JString s => truthy s
  | JArray _ | JObject _ => true
  end.

Fixpoint lookupMember (key : string) (members : list (string * Json)) : option Json :=
  match members with
  | [] => None
  | (k, v) :: rest => if k =? key then Some v else lookupMember key rest
  end.

(** [value.key] for a key that is not a built-in property of strings,
    numbers, booleans or arrays: [None] when the access throws a [TypeError]
    (on [null]), [Some None] when it yields [undefined]. *)
Definition getProp (value : Json) (key : string) : option (option Json) :=
  match value with
  | JNull => None
  | JObject members => Some (lookupMember key members)
  | _ => Some None
  end.

(** [typeof item === 'string' && item.trim() !== ''] *)
Definition isNonBlankString (item : Json) : bool :=
  match item with
  | JString s => negb (trim s =? "")
  | _ => false
  end.

(** The strings among the values of an array that holds only strings. *)
Definition stringsOf (items : list Json) : list string :=
  flat_map (fun item => match item with JString s => [s] | _ => [] end) items.

(** ** services/geminiService.ts: normalizeStringOrArray *)

Definition normalizeStringOrArray (value : option Json) : list string :=
  match value with
  | Some (JArray items) => stringsOf (filter isNonBlankString items)
  | Some (JString s) => if negb (trim s =? "") then [trim s] else []
  | _ => []
  end.

(** ** services/geminiService.ts: generateResearchPlan, the questionnaire *)

(** [typeof v === 'string' ? v : fallback] *)
Definition stringOr (v : option Json) (fallback : string) : string :=
  match v with
  | Some (JString s) => s
  | _ => fallback
  end.

(** The object built for one element of [parsed.keyQuestionnaire]; [None]
    when reading [item.theme] throws. *)
Definition questionnaireItem (item : Json) : option KeyQuestionnaireItem.t :=
  match getProp item "theme", getProp item "questions" with
  | Some theme, Some questions =>
      Some (KeyQuestionnaireItem.mk (stringOr theme "Untitled Theme")
                                    (normalizeStringOrArray questions))
  | _, _ => None
  end.

(** [Array.prototype.map] with a callback that may throw. *)
Fixpoint mapOrThrow {A B : Type} (f : A -> option B) (items : list A) : option (list B) :=
  match items with
  | [] => Some []
  | item :: rest =>
      match f item with
      | None => None
      | Some b =>
          match mapOrThrow f rest with
          | None => None
          | Some bs => Some (b :: bs)
          end
      end
  end.

Definition defaultQuestionnaire : list KeyQuestionnaireItem.t :=
  [KeyQuestionnaireItem.mk "General Questions" ["What are your initial thoughts?"]].

Definition emergencyQuestionnaire : list KeyQuestionnaireItem.t :=
  [KeyQuestionnaireItem.mk "General Questions"
     ["What are your initial thoughts regarding this topic?"]].

(** The [keyQuestionnaire] of what [generateResearchPlan] returns, [parsed]
    being the result of [parseJsonFromText]: the field of the object literal,
    then the check that replaces an empty questionnaire. [None] when the
    [map] callback throws, which makes the promise reject; [Some None] when
    the function returns [null]. *)
Definition validatedKeyQuestionnaire (parsed : Json)
  : option (option (list KeyQuestionnaireItem.t)) :=
  let ensure (kq : list KeyQuestionnaireItem.t) :=
    if (length kq =? 0)%nat then emergencyQuestionnaire else kq in
  if truthyJson parsed then
    match getProp parsed "keyQuestionnaire" with
    | None => None
    | Some (Some (JArray items)) =>
        match mapOrThrow questionnaireItem items with
        | None => None
        | Some mapped =>
            Some (Some (ensure
                          (filter (fun item =>
                                     (0 <? length (KeyQuestionnaireItem.questions item))%nat)
                                  mapped)))
        end
    | Some _ => Some (Some (ensure defaultQuestionnaire))
    end
  else Some None.

(** A questionnaire as [generateResearchPlan] hands it on: some theme, every
    theme with a question, no blank question. *)
Definition wellFormedQuestionnaire (kq : list KeyQuestionnaireItem.t) : Prop :=
  kq <> []
  /\ Forall (fun item =>
               KeyQuestionnaireItem.questions item <> []
               /\ Forall (fun s => trim s <> "") (KeyQuestionnaireItem.questions item))
            kq.

(** A reply of the model to [generateResearchPlan]: of its two themes the
    first has one usable question, the second none. *)
Definition onboardingReply : Json :=
  JObject
    [("researchMethods", JString "Moderated User Interviews");
     ("keyQuestionnaire",
      JArray
        [JObject [("theme", JString "Onboarding");
                  ("questions", JArray [JString "How did you find our app?";
                                        JString "  "; JNumber false])];
         JObject [("theme", JNumber false); ("questions", JString "   ")]])].

(** ** services/geminiService.ts: generateResearchReport, the validation *)

Module IdentifiedTheme.
Record t : Type := mk { theme : string; description : string }.
End IdentifiedTheme.

Module IllustrativeQuote.
Record t : Type := mk { quote : string; attribution : string }.
End IllustrativeQuote.

Module ResearchReport.
Record t : Type := mk {
  executiveSummary : string;
  keyFindings : list string;
  identifiedThemes : list IdentifiedTheme.t;
  illustrativeQuotes : list IllustrativeQuote.t;
  recommendations : list string
}.
End ResearchReport.

Definition reportTheme (item : Json) : option IdentifiedTheme.t :=
  match getProp item "theme", getProp item "description" with
  | Some theme, Some description =>
      Some (IdentifiedTheme.mk (stringOr theme "Untitled Theme")
                               (stringOr description "No description provided."))
  | _, _ => None
  end.

Definition reportQuote (item : Json) : option IllustrativeQuote.t :=
  match getProp item "quote", getProp item "attribution" with
  | Some quote, Some attribution =>
      Some (IllustrativeQuote.mk (stringOr quote "No quote available.")
                                 (stringOr attribution "Participant"))
  | _, _ => None
  end.

(** [normalizeStringOrArray(v).length > 0 ? normalizeStringOrArray(v) : [fallback]] *)
Definition normalizedOr (v : option Json) (fallback : string) : list string :=
  if (0 <? length (normalizeStringOrArray v))%nat
  then normalizeStringOrArray v else [fallback].

(** What [generateResearchReport] returns, [parsed] being the result of
    [parseJsonFromText]; [None] when a [map] callback throws, [Some None]
    when the function returns [null]. *)
Definition validatedReport (parsed : Json) : option (option ResearchReport.t) :=
  if truthyJson parsed then
    match getProp parsed "executiveSummary", getProp parsed "keyFindings",
          getProp parsed "identifiedThemes", getProp parsed "illustrativeQuotes",
          getProp parsed "recommendations" with
    | Some summary, Some findings, Some themes, Some quotes, Some recommendations =>
        let executiveSummary :=
          match summary with
          | Some (JString s) =>
              if negb (trim s =? "") then s else "Executive summary not available."
          | _ => "Executive summary not available."
          end in
        let identifiedThemes :=
          match themes with
          | Some (JArray items) =>
              option_map
                (filter (fun item =>
                           negb (IdentifiedTheme.theme item =? "Untitled Theme")
                           || negb (IdentifiedTheme.description item
                                    =? "No description provided.")))
                (mapOrThrow reportTheme items)
          | _ => Some [IdentifiedTheme.mk "General Theme"
                         "General observations from the interview."]
          end in
        let illustrativeQuotes :=
          match quotes with
          | Some (JArray items) =>
              option_map
                (filter (fun item =>
                           negb (IllustrativeQuote.quote item =? "No quote available.")))
                (mapOrThrow reportQuote items)
          | _ => Some [IllustrativeQuote.mk
                         "No illustrative quotes were extracted from the interview."
                         "System Note"]
          end in
        match identifiedThemes, illustrativeQuotes with
        | Some ts, Some qs =>
            Some (Some (ResearchReport.mk executiveSummary
                          (normalizedOr findings
                             "No specific key findings were derived from the interview.")
                          ts qs
                          (normalizedOr recommendations
                             "No specific recommendations were derived from the interview.")))
        | _, _ => None
        end
    | _, _, _, _, _ => None
    end
  else Some None.

(** A reply of the model to [generateResearchReport] with a blank summary,
    one finding given as a string, an empty theme, a theme without
    description, [null] for the quotes and no recommendations. *)
Definition sparseReportReply : Json :=
  JObject
    [("executiveSummary", JString " ");
     ("keyFindings", JString " Friends recommend the app. ");
     ("identifiedThemes",
      JArray [JObject []; JObject [("theme", JString "Discovery")]]);
     ("illustrativeQuotes", JNull)].

Definition sparseReport : ResearchReport.t :=
  ResearchReport.mk
    "Executive summary not available."
    ["Friends recommend the app."]
    [IdentifiedTheme.mk "Discovery" "No description provided."]
    [IllustrativeQuote.mk "No illustrative quotes were extracted from the interview."
       "System Note"]
    ["No specific recommendations were derived from the interview."].

(** ** services/geminiService.ts: the cached client *)

Module AiClient.

(** The instance made by [new GoogleGenerativeAI(apiKey)]. *)
Record Client : Type := mkClient { apiKey : string }.

(** The two module variables. *)
Record Cache : Type := mkCache {
  aiClientInstance : option Client;
  clientInitializationError : option string
}.

Definition empty : Cache := mkCache None None.

(** [getAiClient()]; [envKey] is [import.meta.env.VITE_GEMINI_API_KEY]. *)
Definition getAiClient (envKey : option string) (cache : Cache)
  : Cache * Settled Client :=
  match clientInitializationError cache with
  | Some message => (cache, Rejected message)
  | None =>
      match aiClientInstance cache with
      | Some client => (cache, Resolved client)
      | None =>
          let failed :=
            let message :=
              ("Failed to initialize AI Client: "
               ++ "VITE_GEMINI_API_KEY environment variable is not set.")%string in
            (mkCache (aiClientInstance cache) (Some message), Rejected message) in
          match envKey with
          | Some key =>
              if truthy key
              then (mkCache (Some (mkClient key)) (clientInitializationError cache),
                    Resolved (mkClient key))
              else failed
          | None => failed
          end
      end
  end.

Definition resetAiClientState (cache : Cache) : Cache := mkCache None None.

(** The results of successive calls of [getAiClient], [envKeys] being the
    value of the environment variable at each call. *)
Fixpoint calls (envKeys : list (option string)) (cache : Cache)
  : list (Settled Client) :=
  match envKeys with
  | [] => []
  | envKey :: rest =>
      snd (getAiClient envKey cache) :: calls rest (fst (getAiClient envKey cache))
  end.

End AiClient.

(** ** services/geminiService.ts: synthesizeSpeech *)

Module Audio.
(** the [HTMLAudioElement] made from the received blob *)
Record t : Type := mk { source : Blob.t }.
End Audio.

Module TtsRequest.
(** the JSON body of the request to the speech backend *)
Record t : Type := mk { text : string; lang : LanguageCode }.
End TtsRequest.

(** What the speech backend does during one call of [synthesizeSpeech]. *)
Inductive TtsBackend : Type :=
| TtsFetchThrows (message : string)
| TtsNotOk (errorData statusText : string)
| TtsOk (audioBlob : Blob.t).

(** [synthesizeSpeech]: what the promise settles with, and the requests that
    were sent. *)
Definition synthesizeSpeech (text : string) (lang : LanguageCode)
  (backend : TtsBackend) : Settled (option Audio.t) * list TtsRequest.t :=
  if negb (truthy text) || (trim text =? "") then (Resolved None, [])
  else
    (match backend with
     | TtsFetchThrows message => Rejected message
     | TtsNotOk errorData statusText =>
         Rejected ("Failed to synthesize speech: " ++ orElse errorData statusText)%string
     | TtsOk audioBlob => Resolved (Some (Audio.mk audioBlob))
     end,
     [TtsRequest.mk text lang]).

(** How the playback of the audio element goes. *)
Inductive Playback : Type :=
| PlaybackEnds                     (** [onended] fires *)
| PlaybackFails                    (** [onerror] fires *)
| PlayRejects (message : string)   (** [audioInstance.play()] rejects *).

(** [speechOperation] of [speakText], for the [text] and [lang] it
    captured: how it settles. *)
Definition speechOperation (text : string) (lang : LanguageCode)
  (backend : TtsBackend) (playback : Playback) : SpeechResult :=
  match fst (synthesizeSpeech text lang backend) with
  | Rejected message => SynthesisThrows message
  | Resolved None => SynthesisNull
  | Resolved (Some _) =>
      match playback with
      | PlaybackEnds => Ended
      | PlaybackFails => PlaybackError
      | PlayRejects message => SynthesisThrows message
      end
  end.

(** ** The backend (server.js) *)

Module Server.

Inductive HttpBody : Type :=
| TextBody (text : string)
| JsonTranscript (transcript : string)   (** [res.json({ transcript })] *)
| AudioBody (audio : Blob.t).

Record HttpResponse : Type := mkResponse { status : nat; body : HttpBody }.

(** What the handler of [/transcribe-speech] meets after the form has been
    parsed: reading the upload or the recognition throws, or the recognition
    returns its results, each with the transcripts of its alternatives. *)
Inductive Recognition : Type :=
| ReadFileThrows (message : string)
| RecognizeThrows (message : string)
| Recognized (results : list (list string)).

(** [result.alternatives[0].transcript]; [None] when there is no alternative
    and the access throws. *)
Definition firstTranscript (alternatives : list string) : option string :=
  match alternatives with
  | [] => None
  | transcript :: _ => Some transcript
  end.

(** The handler of [/transcribe-speech]; [formError] is the [err] of
    [form.parse], [audioFile] is [files.audio?.[0]], [lang] is
    [fields.lang?.[0]], [typeErrorMessage] the message of the [TypeError]
    the engine raises for a property read on [undefined]. *)
Definition transcribeSpeech (formError : bool) (audioFile : option Blob.t)
  (lang : option string) (typeErrorMessage : string) (recognition : Recognition)
  : HttpResponse :=
  if formError then mkResponse 400 (TextBody "Invalid form data.")
  else
    match audioFile with
    | None => mkResponse 400 (TextBody "No audio file provided.")
    | Some _ =>
        if negb (truthyOpt lang)
        then mkResponse 400 (TextBody "Language code not provided.")
        else
          let failed (message : string) :=
            mkResponse 500
              (TextBody ("Internal server error during transcription: " ++ message)%string) in
          match recognition with
          | ReadFileThrows message => failed message
          | RecognizeThrows message => failed message
          | Recognized results =>
              match mapOrThrow firstTranscript results with
              | Some transcripts =>
                  mkResponse 200 (JsonTranscript (String.concat (String (ascii_of_nat 10) "") transcripts))
              | None => failed typeErrorMessage
              end
          end
    end.

(** What the handler of [/synthesize-speech] meets when it calls the speech
    API. *)
Inductive SpeechApi : Type :=
| ApiThrows
| ApiNotOk (apiStatus : nat) (errorText : string)
| ApiOk (audioContent : option Blob.t)
    (** [responseData.audioContent] decoded; [None] when it is missing and
        [Buffer.from] throws *).

(** The handler of [/synthesize-speech]. *)
Definition synthesizeSpeechEndpoint (text lang : option string) (api : SpeechApi)
  : HttpResponse :=
  if negb (truthyOpt text) || negb (truthyOpt lang)
  then mkResponse 400 (TextBody "Text and language are required.")
  else
    match api with
    | ApiThrows =>
        mkResponse 500 (TextBody "Internal server error during speech synthesis.")
    | ApiNotOk apiStatus errorText =>
        mkResponse apiStatus (TextBody ("Google Cloud TTS API Error: " ++ errorText)%string)
    | ApiOk None =>
        mkResponse 500 (TextBody "Internal server error during speech synthesis.")
    | ApiOk (Some audio) => mkResponse 200 (AudioBody audio)
    end.

(** [response.ok] *)
Definition ok (response : HttpResponse) : bool :=
  ((200 <=? status response) && (status response <=? 299))%nat.

(** What [transcribeAudio] sees of a response, [fetch] having delivered it:
    [response.ok] is a status from 200 to 299, [response.text()] is the body
    of a failed one, [response.json()] the parsed body of a successful one
    and throws for a body that is not JSON. *)
Definition asSttBackend (response : HttpResponse) (statusText : string) : SttBackend :=
  if ok response then
    match body response with
    | JsonTranscript transcript => OkJson (Some (SttJson.mk (Some transcript)))
    | _ => FetchThrows "The response body is not JSON."
    end
  else
    match body response with
    | TextBody text => NotOk text statusText
    | _ => NotOk "" statusText
    end.

End Server.

(** ** types.ts: AppStep *)

Inductive AppStep : Type :=
| WELCOME
| COMPANY_BACKGROUND_INPUT
| COMPANY_BACKGROUND_LOADING
| COMPANY_BACKGROUND_DISPLAY
| RESEARCH_DEFINITION_OBJECTIVES
| RESEARCH_DEFINITION_AUDIENCE
| RESEARCH_DEFINITION_ASSUMPTIONS
| RESEARCH_PLAN_GENERATING
| RESEARCH_PLAN_DISPLAY_EDIT
| INTERVIEW_PREPARATION
| INTERVIEW_SESSION
| REPORT_GENERATING
| REPORT_DISPLAY
| DASHBOARD_SUMMARY.

(** The number the enum member stands for. *)
Definition AppStep_value (step : AppStep) : nat :=
  match step with
  | WELCOME => 0
  | COMPANY_BACKGROUND_INPUT => 1
  | COMPANY_BACKGROUND_LOADING => 2
  | COMPANY_BACKGROUND_DISPLAY => 3
  | RESEARCH_DEFINITION_OBJECTIVES => 4
  | RESEARCH_DEFINITION_AUDIENCE => 5
  | RESEARCH_DEFINITION_ASSUMPTIONS => 6
  | RESEARCH_PLAN_GENERATING => 7
  | RESEARCH_PLAN_DISPLAY_EDIT => 8
  | INTERVIEW_PREPARATION => 9
  | INTERVIEW_SESSION => 10
  | REPORT_GENERATING => 11
  | REPORT_DISPLAY => 12
  | DASHBOARD_SUMMARY => 13
  end.

(** [a === b] on enum members *)
Definition AppStep_eqb (a b : AppStep) : bool :=
  (AppStep_value a =? AppStep_value b)%nat.

(** The string a [LanguageCode] is. *)
Definition LanguageCode_value (l : LanguageCode) : string :=
  match l with
  | en_US => "en-US"
  | en_IN => "en-IN"
  | hi_IN => "hi-IN"
  end.

(** ** components/foresight/StepIndicator.tsx *)

Module StepIndicator.

(** [Array.prototype.indexOf]: the first position, or [-1]. *)
Fixpoint indexOf (steps : list AppStep) (step : AppStep) : Z :=
  match steps with
  | [] => -1
  | x :: rest =>
      if AppStep_eqb x step then 0
      else let i := indexOf rest step in
           if (i =? -1)%Z then -1 else (i + 1)%Z
  end.

(** [steps[i]]; [None] is [undefined]. *)
Definition at_ (steps : list AppStep) (i : Z) : option AppStep :=
  if (i <? 0)%Z then None else nth_error steps (Z.to_nat i).

(** [steps.indexOf(x)] for an [x] that may be [undefined], which no array of
    steps holds. *)
Definition indexOfOpt (steps : list AppStep) (x : option AppStep) : Z :=
  match x with
  | Some step => indexOf steps step
  | None => -1
  end.

(** One of the two [for] loops: the display index of the first of
    [candidates] that is displayable. *)
Fixpoint firstDisplayable (displayableSteps candidates : list AppStep) : option Z :=
  match candidates with
  | [] => None
  | candidate :: rest =>
      if negb (indexOf displayableSteps candidate =? -1)%Z
      then Some (indexOf displayableSteps candidate)
      else firstDisplayable displayableSteps rest
  end.

Definition getEffectiveDisplayIndex (currentStep : AppStep)
  (allAppStepsOrdered displayableSteps : list AppStep) : Z :=
  let currentDisplayableIndex := indexOf displayableSteps currentStep in
  if negb (currentDisplayableIndex =? -1)%Z then currentDisplayableIndex
  else
    let logicalCurrentIndex := indexOf allAppStepsOrdered currentStep in
    if (logicalCurrentIndex =? -1)%Z then 0%Z
    else
      (* for (let i = logicalCurrentIndex + 1; i < allAppStepsOrdered.length; i++) *)
      match firstDisplayable displayableSteps
              (skipn (Z.to_nat (logicalCurrentIndex + 1)) allAppStepsOrdered) with
      | Some nextDisplayableIndex => nextDisplayableIndex
      | None =>
          (* for (let i = logicalCurrentIndex - 1; i >= 0; i--) *)
          match firstDisplayable displayableSteps
                  (rev (firstn (Z.to_nat logicalCurrentIndex) allAppStepsOrdered)) with
          | Some prevDisplayableIndex => prevDisplayableIndex
          | None =>
              let lastDisplayableStepIndex :=
                (Z.of_nat (length displayableSteps) - 1)%Z in
              if (logicalCurrentIndex
                  >=? indexOfOpt allAppStepsOrdered
                        (at_ displayableSteps lastDisplayableStepIndex))%Z
              then lastDisplayableStepIndex
              else 0%Z
          end
      end.

End StepIndicator.

(** ** components/foresight/QuestionnaireDisplay.tsx *)

Module QuestionnaireDisplay.

(** The card of one theme: its heading, and the list of its questions or,
    for [None], the note "No questions for this theme.". *)
Record Card : Type := mkCard { heading : string; listed : option (list string) }.

(** What the component renders: the cards of the themes or, for [None], the
    note "No themes or questions defined.". *)
Definition render (questionnaire : option (list KeyQuestionnaireItem.t))
  : option (list Card) :=
  match questionnaire with
  | None => None
  | Some items =>
      if (length items =? 0)%nat then None
      else Some (map (fun item =>
                        mkCard (orElse (KeyQuestionnaireItem.theme item) "Untitled Theme")
                               (if (0 <? length (KeyQuestionnaireItem.questions item))%nat
                                then Some (KeyQuestionnaireItem.questions item)
                                else None))
                     items)
  end.

End QuestionnaireDisplay.

(** ** App.tsx *)

Module App.

Definition ALL_APP_STEPS_ORDERED : list AppStep :=
  [WELCOME; COMPANY_BACKGROUND_LOADING; COMPANY_BACKGROUND_DISPLAY;
   RESEARCH_DEFINITION_OBJECTIVES; RESEARCH_DEFINITION_AUDIENCE;
   RESEARCH_DEFINITION_ASSUMPTIONS; RESEARCH_PLAN_GENERATING;
   RESEARCH_PLAN_DISPLAY_EDIT; INTERVIEW_PREPARATION; INTERVIEW_SESSION;
   REPORT_GENERATING; REPORT_DISPLAY; DASHBOARD_SUMMARY].

Definition DISPLAYABLE_STEPS_FOR_INDICATOR : list AppStep :=
  [COMPANY_BACKGROUND_DISPLAY; RESEARCH_DEFINITION_OBJECTIVES;
   RESEARCH_DEFINITION_AUDIENCE; RESEARCH_DEFINITION_ASSUMPTIONS;
   RESEARCH_PLAN_DISPLAY_EDIT; INTERVIEW_PREPARATION; INTERVIEW_SESSION;
   REPORT_DISPLAY; DASHBOARD_SUMMARY].

(** [showStepIndicator] *)
Definition showStepIndicator (currentStep : AppStep) : bool :=
  negb (existsb (AppStep_eqb currentStep)
          [WELCOME; COMPANY_BACKGROUND_LOADING; RESEARCH_PLAN_GENERATING;
           REPORT_GENERATING]).

(** The cells [startInterviewProcess] reads and writes. *)
Record State : Type := mkState {
  currentStep : AppStep;
  researchPlan : option ResearchPlan.t;
  error : option string
}.

Definition setError (v : option string) (s : State) : State :=
  mkState (currentStep s) (researchPlan s) v.

Definition setCurrentStep (v : AppStep) (s : State) : State :=
  mkState v (researchPlan s) (error s).

Definition startInterviewProcess (s : State) : State :=
  match researchPlan s with
  | None => setError (Some "Research plan is missing. Cannot start interview.") s
  | Some plan =>
      if (length (ResearchPlan.keyQuestionnaire plan) =? 0)%nat
         || forallb (fun theme =>
                       (length (KeyQuestionnaireItem.questions theme) =? 0)%nat)
                    (ResearchPlan.keyQuestionnaire plan)
      then setError
             (Some "Research plan has no questions. Please edit the plan to add questions before starting the interview.")
             s
      else setCurrentStep INTERVIEW_PREPARATION (setError None s)
  end.

End App.

(** ** Shapes of sessions *)

Module Sessions.
Import InterviewScreen.

Definition isAgentTurn (item : InterviewTranscriptItem.t) : bool :=
  Speaker_eqb (InterviewTranscriptItem.speaker item) AI.

(** The last AGENT turn of a transcript. *)
Fixpoint lastAgentTurn (t : Transcript) : option InterviewTranscriptItem.t :=
  match t with
  | [] => None
  | item :: rest =>
      match lastAgentTurn rest with
      | Some found => Some found
      | None => if isAgentTurn item then Some item else None
      end
  end.

Definition optionString_eqb (a b : option string) : bool :=
  match a, b with
  | Some x, Some y => x =? y
  | None, None => true
  | _, _ => false
  end.

(** Every PARTICIPANT turn carries the theme of the AGENT turn that precedes
    it most closely, [current] standing for the theme of the AGENT turn before
    the transcript. *)
Fixpoint filedFrom (current : option string) (t : Transcript) : bool :=
  match t with
  | [] => true
  | item :: rest =>
      if isAgentTurn item
      then filedFrom (InterviewTranscriptItem.theme item) rest
      else optionString_eqb (InterviewTranscriptItem.theme item) current
           && filedFrom current rest
  end.

(** A PARTICIPANT turn with an answer that is not empty and has no white
    space at its ends. *)
Definition wellAnswered (item : InterviewTranscriptItem.t) : bool :=
  isAgentTurn item
  || match InterviewTranscriptItem.answer item with
     | Some a => negb (a =? "") && (trim a =? a)
     | None => false
     end.

(** An AGENT turn with a question text that is not empty. *)
Definition wellAsked (item : InterviewTranscriptItem.t) : bool :=
  negb (isAgentTurn item) || truthyOpt (InterviewTranscriptItem.question item).

(** An AGENT turn with the theme "Conclusion". *)
Definition isConclusionTurn (item : InterviewTranscriptItem.t) : bool :=
  isAgentTurn item
  && optionString_eqb (InterviewTranscriptItem.theme item) (Some "Conclusion").

(** The text of the panel shown in the stage [finished]:
    [transcript.find(item => item.speaker === 'AI' && item.theme === 'Conclusion')?.question
     || "Thank you for your responses."] *)
Definition completionMessage (t : Transcript) : string :=
  match find isConclusionTurn t with
  | Some item =>
      match InterviewTranscriptItem.question item with
      | Some q => orElse q "Thank you for your responses."
      | None => "Thank you for your responses."
      end
  | None => "Thank you for your responses."
  end.

(** What holds in every session: the requests and the AGENT turns are
    accounted for, the current question is the last AGENT turn, a scheduled
    submission still sees the question it answers, and the PARTICIPANT turns
    are well answered and filed under the theme of their question. *)
Definition accounted (s : State) : Prop :=
  consistent s
  /\ length (requestLog s)
     = countSpeaker AI (transcript s) + (if isFetchingQuestion s then 1 else 0)
  /\ lastAgentTurn (transcript s) = option_map aiItem (currentAIQuestion s)
  /\ (forall c, submitDebounceRef s = Some c ->
        FetchClosure.isFetchingQuestion c = false ->
        FetchClosure.currentAIQuestion c = currentAIQuestion s)
  /\ forallb wellAnswered (transcript s) = true
  /\ filedFrom None (transcript s) = true.

(** The pending utterance has a text that is not blank. *)
Definition audible (s : State) : Prop :=
  forall u, speakingPromiseRef s = Some u -> truthy (trim (Utterance.text u)) = true.

(** The recognition that is running was started while the screen was not
    listening. *)
Definition recognitionIdle (s : State) : Prop :=
  forall c, speechRecognitionRef s = Some c -> RecognitionClosure.isListening c = false.

(** A transcript handed off at the end of an interview: it ends with a
    concluding AGENT turn, the only one with the theme "Conclusion", after
    which the participant has at most the last word. *)
Definition concludedTranscript (t : Transcript) : Prop :=
  exists pre q,
    AIQuestionResponse.theme q = "Conclusion"
    /\ existsb isConclusionTurn pre = false
    /\ (t = pre ++ [aiItem q]
        \/ exists a, truthy (trim a) = true
                     /\ t = pre ++ [aiItem q; userItem (trim a) (Some "Conclusion")]).

(** What holds besides in the sessions driven through the rendered
    controls: a concluding question is the last turn on record and the only
    AGENT turn with the theme "Conclusion"; what was handed off is a concluded
    transcript. *)
Definition concluding_last (s : State) : Prop :=
  orderly s
  /\ (if isConcludingQuestion s
      then exists pre q, currentAIQuestion s = Some q
                         /\ transcript s = pre ++ [aiItem q]
                         /\ existsb isConclusionTurn pre = false
      else existsb isConclusionTurn (transcript s) = false)
  /\ forall t, outcome s = Some (Completed t) -> concludedTranscript t.

(** *** The scripted interview *)

(** One round of an interview during which the model cannot be reached: the
    call fails, the question that arrives is spoken to its end, the
    participant types [answer] and submits, the debounce window elapses. *)
Definition scriptedRound (answer : string) : list Event :=
  [QuestionArrives GenerateContentFails; SpeakEffect; SpeechSettles Ended;
   TypeResponse answer; ClickSubmit; SubmitTimerFires].

(** The last call fails too; the remark that arrives is spoken to its end,
    the timer of the concluding stage fires and the effect hands off. *)
Definition scriptedClosing : list Event :=
  [QuestionArrives GenerateContentFails; SpeakEffect; SpeechSettles Ended;
   FinishTimer; FinishedEffect].

Definition scriptedInterview (answers : list string) : list Event :=
  flat_map scriptedRound answers ++ scriptedClosing.

(** The planned question as the failed call returns it. *)
Definition scriptedQuestion (p : PlannedQuestion.t) : AIQuestionResponse.t :=
  AIQuestionResponse.mk (PlannedQuestion.question p) (PlannedQuestion.theme p)
                        false false.

(** The planned questions in order, each followed by its answer. *)
Fixpoint scriptedTranscript (questions : list PlannedQuestion.t)
  (answers : list string) : Transcript :=
  match questions, answers with
  | p :: questions', answer :: answers' =>
      aiItem (scriptedQuestion p)
      :: userItem (trim answer) (Some (PlannedQuestion.theme p))
      :: scriptedTranscript questions' answers'
  | _, _ => []
  end.

(** The screen waits for the reply to the request it has sent with the
    transcript [t]; nothing else is going on, and no error was reported. *)
Definition awaiting (t : Transcript) (s : State) : Prop :=
  transcript s = t
  /\ request s = Some t
  /\ isFetchingQuestion s = true
  /\ interviewStage s = processing
  /\ isSpeaking s = false
  /\ isListening s = false
  /\ voiceInputStage s = VoiceInputStage.idle
  /\ speakingPromiseRef s = None
  /\ submitDebounceRef s = None
  /\ outcome s = None
  /\ errors s = [].

(** The reply [q] has arrived for the transcript [t] and has been spoken;
    the screen waits for the participant. *)
Definition hearing (t : Transcript) (q : AIQuestionResponse.t) (s : State) : Prop :=
  transcript s = t ++ [aiItem q]
  /\ currentAIQuestion s = Some q
  /\ request s = None
  /\ isFetchingQuestion s = false
  /\ interviewStage s = stageAfterSpeech (AIQuestionResponse.theme q)
  /\ isSpeaking s = false
  /\ isListening s = false
  /\ voiceInputStage s = VoiceInputStage.idle
  /\ speakingPromiseRef s = None
  /\ submitDebounceRef s = None
  /\ outcome s = None
  /\ errors s = [].

(** *** More example sessions *)

(** The first question is being spoken. *)
Definition speakingSession : list Event :=
  [QuestionArrives (ResponseText (Some firstQuestion)); SpeakEffect].

(** The participant dictates an answer and stops the capture. *)
Definition dictatedSession : list Event :=
  [QuestionArrives (ResponseText (Some firstQuestion)); SpeakEffect;
   SpeechSettles Ended; ClickVoice TierAStarts; RecognitionResult "Via a friend";
   ClickVoice TierAStarts].

(** After the closing remark the participant types a last word and clicks
    "Finish Interview". *)
Definition lastWordSession : list Event :=
  concludedSession ++ [TypeResponse " Bye "; ClickFinish].

(** After the closing remark the timer of the concluding stage fires. *)
Definition finishedSession : list Event := concludedSession ++ [FinishTimer].

(** What the participant and the timers can still do after the closing
    remark. *)
Definition afterwards : list Event :=
  [TypeResponse "One more thing"; ClickReplay; SpeechSettles Ended; FinishTimer].

End Sessions.

(** * Properties of the next-question protocol *)

Module GenerationFacts.

Lemma includesQuestion_asked (t : Transcript) (q : string) :
  includesQuestion (askedQuestionsInTranscript t) q = appearsAsSpokenAgentTurn t q.
Proof.
  unfold appearsAsSpokenAgentTurn, askedQuestionsInTranscript, includesQuestion.
  induction t as [|[sp th [asked|] an tx pr] t IH]; simpl.
  - reflexivity.
  - destruct sp; simpl; [|exact IH].
    unfold truthy at 1.
    destruct (String.eqb_spec asked "") as [E|E]; simpl.
    + rewrite IH. subst asked.
      destruct (String.eqb_spec "" q) as [Q|Q]; simpl; [|reflexivity].
      subst q. unfold truthy. simpl. now rewrite !andb_false_r.
    + rewrite IH.
      destruct (String.eqb_spec asked q) as [Q|Q]; simpl; [|reflexivity].
      subst q. unfold truthy.
      destruct (String.eqb_spec asked "") as [E'|_]; [contradiction|].
      reflexivity.
  - destruct sp; simpl; exact IH.
Qed.

Lemma scanQuestions_find (asked : list (option string)) (theme : string)
  (questions : list string) :
  scanQuestions asked theme questions
  = find (fun p => negb (includesQuestion asked (PlannedQuestion.question p)))
         (map (PlannedQuestion.mk theme) questions).
Proof.
  induction questions as [|q rest IH]; simpl; [reflexivity|].
  destruct (includesQuestion asked q); simpl; [exact IH | reflexivity].
Qed.

Lemma find_app_first {A : Type} (f : A -> bool) (l1 l2 : list A) :
  find f (l1 ++ l2) = match find f l1 with
                      | Some x => Some x
                      | None => find f l2
                      end.
Proof.
  induction l1 as [|x l1 IH]; simpl; [reflexivity|].
  destruct (f x); [reflexivity | exact IH].
Qed.

Lemma scanThemes_find (asked : list (option string))
  (keyQuestionnaire : list KeyQuestionnaireItem.t) :
  scanThemes asked keyQuestionnaire
  = find (fun p => negb (includesQuestion asked (PlannedQuestion.question p)))
         (flat_map (fun themeItem =>
                      map (PlannedQuestion.mk (KeyQuestionnaireItem.theme themeItem))
                          (KeyQuestionnaireItem.questions themeItem))
                   keyQuestionnaire).
Proof.
  induction keyQuestionnaire as [|themeItem rest IH]; simpl; [reflexivity|].
  rewrite find_app_first, <- scanQuestions_find, IH. reflexivity.
Qed.

Lemma find_ext_in {A : Type} (f g : A -> bool) (l : list A) :
  (forall x, In x l -> f x = g x) -> find f l = find g l.
Proof.
  induction l as [|x l IH]; simpl; intros H; [reflexivity|].
  rewrite (H x) by now left.
  destruct (g x); [reflexivity|]. apply IH. intros y Hy. apply H. now right.
Qed.

(** C4, as the claim states it, fails: the plan's only question is the empty
    string and the transcript holds an AGENT turn with exactly that text;
    the specification calls the plan exhausted, the code still returns the
    question as unasked. *)
Lemma nextPlannedQuestion_empty_text_counterexample :
  spec_nextPlannedQuestion planWithEmptyQuestion [emptyAgentTurn] = None
  /\ nextPlannedQuestion planWithEmptyQuestion [emptyAgentTurn]
     = Some (PlannedQuestion.mk "Onboarding" "").
Proof. split; reflexivity. Qed.

(** C4 (amended): for every plan and every transcript, the next planned
    question computed by [generateFollowUpQuestion] is the first question,
    scanning themes in declared order and the questions of each theme in
    declared order, whose exact text (compared character by character) does
    not appear among the AGENT turns that carry a non-empty text; if there is
    no such question the plan is exhausted. *)
Theorem nextPlannedQuestion_first_unasked (researchPlan : ResearchPlan.t)
  (t : Transcript) :
  nextPlannedQuestion researchPlan t
  = find (fun p => negb (appearsAsSpokenAgentTurn t (PlannedQuestion.question p)))
         (plannedQuestions researchPlan).
Proof.
  unfold nextPlannedQuestion, plannedQuestions.
  rewrite scanThemes_find.
  apply find_ext_in. intros p _.
  now rewrite includesQuestion_asked.
Qed.

(** On the transcripts whose AGENT turns all carry a non-empty text, the code
    and the specification's wording agree. *)
Lemma nextPlannedQuestion_meets_spec (researchPlan : ResearchPlan.t)
  (t : Transcript) :
  appearsAsAgentTurn t "" = false ->
  nextPlannedQuestion researchPlan t = spec_nextPlannedQuestion researchPlan t.
Proof.
  intros H. unfold nextPlannedQuestion, spec_nextPlannedQuestion, plannedQuestions.
  rewrite scanThemes_find.
  apply find_ext_in. intros p _. rewrite includesQuestion_asked.
  unfold appearsAsSpokenAgentTurn, truthy.
  destruct (String.eqb_spec (PlannedQuestion.question p) "") as [E|E]; simpl.
  - rewrite E, H. reflexivity.
  - now rewrite andb_true_r.
Qed.

(** *** Validation of the service's reply *)

Lemma concludeOrRepair_text_nonempty (npq : option PlannedQuestion.t)
  (finalResponse : AIQuestionResponse.t) :
  AIQuestionResponse.nextQuestionText (concludeOrRepair npq finalResponse) <> "".
Proof.
  unfold concludeOrRepair.
  match goal with
  | |- context [if (AIQuestionResponse.nextQuestionText ?r =? "") then _ else _] =>
      destruct (String.eqb_spec (AIQuestionResponse.nextQuestionText r) "") as [E|E]
  end.
  - simpl. discriminate.
  - exact E.
Qed.

Lemma concludeOrRepair_exhausted (finalResponse : AIQuestionResponse.t) :
  let txt := AIQuestionResponse.nextQuestionText finalResponse in
  concludeOrRepair None finalResponse
  = AIQuestionResponse.mk
      (if (txt =? "") || includes txt genericPhrase then closingRemark else txt)
      "Conclusion" false true.
Proof.
  unfold concludeOrRepair. cbn zeta.
  cbn [AIQuestionResponse.nextQuestionText AIQuestionResponse.theme
       AIQuestionResponse.isProbing AIQuestionResponse.isEndOfInterview].
  destruct (String.eqb_spec (AIQuestionResponse.nextQuestionText finalResponse) "")
    as [E|E]; cbn [orb].
  - reflexivity.
  - destruct (includes (AIQuestionResponse.nextQuestionText finalResponse) genericPhrase).
    + reflexivity.
    + destruct (String.eqb_spec (AIQuestionResponse.nextQuestionText finalResponse) "");
        [contradiction | reflexivity].
Qed.




(** C6, as the claim states it, fails: the plan's only question is the empty
    string, so it stays unasked; the service answers [isEndOfInterview = true]
    with an empty text; the candidate's text is the neutral filler, not the
    planned question. *)
Lemma empty_planned_question_counterexample :
  nextPlannedQuestion planWithEmptyQuestion [] = Some (PlannedQuestion.mk "Onboarding" "")
  /\ generateFollowUpQuestion planWithEmptyQuestion [] en_US
       (ResponseText (Some (AIQuestionResponse.mk "" "Conclusion" false true)))
     = Resolved (Some (AIQuestionResponse.mk fillerQuestion "Onboarding" false false))
  /\ fillerQuestion <> "".
Proof. repeat split. discriminate. Qed.

(** C6 (amended): for every reply of the service with
    [isEndOfInterview = true] and an empty text: when an unasked planned
    question still exists, the candidate carries that question's theme,
    [isEndOfInterview] is demoted to false, and the text is the planned
    question, or the neutral filler question if the planned question is itself
    the empty string; when no planned question exists the text is the fixed
    closing remark and [isEndOfInterview] stays true. And whatever the service
    replies, the candidate's text is never the empty string. *)
Theorem empty_end_reply_repaired (researchPlan : ResearchPlan.t)
  (t : Transcript) (selectedLanguage : LanguageCode) (p : AIQuestionResponse.t) :
  AIQuestionResponse.isEndOfInterview p = true ->
  AIQuestionResponse.nextQuestionText p = "" ->
  (exists r,
     generateFollowUpQuestion researchPlan t selectedLanguage (ResponseText (Some p))
     = Resolved (Some r)
     /\ match nextPlannedQuestion researchPlan t with
        | Some planned =>
            AIQuestionResponse.nextQuestionText r
            = (if PlannedQuestion.question planned =? "" then fillerQuestion
               else PlannedQuestion.question planned)
            /\ AIQuestionResponse.theme r = PlannedQuestion.theme planned
            /\ AIQuestionResponse.isProbing r = false
            /\ AIQuestionResponse.isEndOfInterview r = false
        | None =>
            AIQuestionResponse.nextQuestionText r = closingRemark
            /\ AIQuestionResponse.theme r = "Conclusion"
            /\ AIQuestionResponse.isEndOfInterview r = true
        end)
  /\ (forall parsed, exists r,
        generateFollowUpQuestion researchPlan t selectedLanguage (ResponseText parsed)
        = Resolved (Some r)
        /\ AIQuestionResponse.nextQuestionText r <> "").
Proof.
  intros Hend Hempty. split.
  - unfold generateFollowUpQuestion. eexists. split; [reflexivity|].
    destruct (nextPlannedQuestion researchPlan t) as [planned|].
    + unfold concludeOrRepair. rewrite Hend, Hempty. simpl.
      destruct (String.eqb_spec (PlannedQuestion.question planned) ""); simpl; auto.
    + rewrite concludeOrRepair_exhausted. rewrite Hempty. simpl. auto.
  - intros parsed. unfold generateFollowUpQuestion. eexists. split; [reflexivity|].
    apply concludeOrRepair_text_nonempty.
Qed.

Lemma empty_end_reply_repaired_witness :
  exists r,
    generateFollowUpQuestion onboardingPlan [] en_US
      (ResponseText (Some (AIQuestionResponse.mk "" "Conclusion" false true)))
    = Resolved (Some r)
    /\ AIQuestionResponse.nextQuestionText r = "How did you find our app?"
    /\ AIQuestionResponse.isEndOfInterview r = false.
Proof.
  destruct (@empty_end_reply_repaired onboardingPlan [] en_US
              (AIQuestionResponse.mk "" "Conclusion" false true)
              eq_refl eq_refl) as [[r [H1 H2]] _].
  exists r. split; [exact H1|]. simpl in H2. tauto.
Defined.

End GenerationFacts.

(** * Properties of the interview screen *)

Module ScreenFacts.
Import InterviewScreen.

Section Runs.

Variable plan : ResearchPlan.t.
Variable lang : LanguageCode.

Create HintDb screen.
#[local] Hint Unfold speakText stopListening startListening startFallbackRecording
  handleCompleteInterview speakEffect speechSettles finishTimer finishedEffect
  recognitionResult recognitionError recognitionEnd recorderStops
  transcriptionSettles onError handleSubmitResponse submitTimerFires
  fetchAndProcessNextQuestion questionArrives : screen.

Ltac handlers := repeat autounfold with screen.

Ltac break_match :=
  match goal with
  | |- context [match ?x with _ => _ end] => destruct x eqn:?
  end.

Lemma lastSpeaker_snoc (t : Transcript) (x : InterviewTranscriptItem.t) :
  lastSpeaker (t ++ [x]) = Some (InterviewTranscriptItem.speaker x).
Proof.
  induction t as [|y t IH]; simpl; [reflexivity|]. now rewrite IH.
Qed.

Lemma alternates_snoc (next : Speaker) (t : Transcript) (x : InterviewTranscriptItem.t) :
  alternates next t = true ->
  match lastSpeaker t with
  | Some sp => InterviewTranscriptItem.speaker x = otherSpeaker sp
  | None => InterviewTranscriptItem.speaker x = next
  end ->
  alternates next (t ++ [x]) = true.
Proof.
  revert next. induction t as [|y t IH]; simpl; intros next Halt Hlast.
  - rewrite Hlast. now destruct next.
  - apply andb_true_iff in Halt as [Hy Ht]. rewrite Hy. simpl.
    apply IH; [exact Ht|].
    destruct (lastSpeaker t) as [sp|] eqn:E; [exact Hlast|].
    destruct t as [|z t]; [|simpl in E; destruct (lastSpeaker t); discriminate].
    rewrite Hlast.
    destruct (InterviewTranscriptItem.speaker y), next; simpl in *; congruence.
Qed.

Lemma quiet_frame (s : State) (e : Event) :
  quiet e = true ->
  transcript (step plan lang s e) = transcript s
  /\ isFetchingQuestion (step plan lang s e) = isFetchingQuestion s
  /\ submitDebounceRef (step plan lang s e) = submitDebounceRef s
  /\ request (step plan lang s e) = request s
  /\ requestLog (step plan lang s e) = requestLog s
  /\ currentAIQuestion (step plan lang s e) = currentAIQuestion s.
Proof.
  intros Hq. unfold step. destruct (outcome s); [repeat split|].
  destruct e; try discriminate Hq; clear Hq.
  all: handlers; repeat break_match; repeat split; try assumption; try congruence.
Qed.

Lemma step_unmounted (s : State) (e : Event) (o : Outcome) :
  outcome s = Some o -> step plan lang s e = s.
Proof. intros H. unfold step. now rewrite H. Qed.

Lemma submitTimerFires_spec (s : State) (c : FetchClosure.t) :
  submitDebounceRef s = Some c ->
  let s' := submitTimerFires s in
  let updated :=
    updatedTranscriptWithUserAnswer (FetchClosure.transcript c)
      (Some (FetchClosure.currentUserResponse c)) (FetchClosure.currentAIQuestion c) in
  submitDebounceRef s' = None
  /\ currentAIQuestion s' = currentAIQuestion s
  /\ outcome s' = outcome s
  /\ if FetchClosure.isFetchingQuestion c
     then transcript s' = transcript s
          /\ isFetchingQuestion s' = isFetchingQuestion s
          /\ request s' = request s
          /\ requestLog s' = requestLog s
          /\ interviewStage s' = interviewStage s
     else transcript s' = updated
          /\ isFetchingQuestion s' = true
          /\ request s' = Some updated
          /\ requestLog s' = requestLog s ++ [updated]
          /\ interviewStage s' = processing.
Proof.
  intros H. unfold submitTimerFires, fetchAndProcessNextQuestion. rewrite H.
  destruct (FetchClosure.isFetchingQuestion c); repeat split.
Qed.

Lemma questionArrives_spec (s : State) (sent : Transcript) (service : ServiceOutcome) :
  request s = Some sent ->
  let s' := questionArrives plan lang service s in
  let q := arrivingQuestion plan lang sent service in
  transcript s' = transcript s ++ [aiItem q]
  /\ currentAIQuestion s' = Some q
  /\ isFetchingQuestion s' = false
  /\ request s' = None
  /\ requestLog s' = requestLog s
  /\ submitDebounceRef s' = submitDebounceRef s
  /\ outcome s' = outcome s
  /\ interviewStage s'
     = (if AIQuestionResponse.isEndOfInterview q then concluding else asking).
Proof.
  intros H. unfold questionArrives, arrivingQuestion. rewrite H.
  destruct (generateFollowUpQuestion plan sent lang service) as [m|[r|]];
    repeat split.
Qed.

Lemma handleSubmitResponse_frame (s : State) :
  let s' := handleSubmitResponse s in
  transcript s' = transcript s
  /\ isFetchingQuestion s' = isFetchingQuestion s
  /\ request s' = request s
  /\ requestLog s' = requestLog s
  /\ currentAIQuestion s' = currentAIQuestion s
  /\ interviewStage s' = interviewStage s
  /\ outcome s' = outcome s
  /\ currentUserResponse s' = currentUserResponse s.
Proof.
  unfold handleSubmitResponse, onError. repeat break_match; repeat split.
Qed.

Lemma handleSubmitResponse_pending (s : State) (c : FetchClosure.t) :
  submitDebounceRef (handleSubmitResponse s) = Some c ->
  submitDebounceRef s = Some c
  \/ (submitDebounceRef s = None
      /\ c = FetchClosure.mk (currentUserResponse s) (currentAIQuestion s)
                             (transcript s) (isFetchingQuestion s)
      /\ isSpeaking s = false /\ isListening s = false
      /\ InterviewStage_eqb (interviewStage s) processing = false
      /\ ((trim (currentUserResponse s) =? "")
          && negb (themeIsConclusion (currentAIQuestion s))) = false).
Proof.
  unfold handleSubmitResponse, onError.
  destruct (isSpeaking s) eqn:E1; simpl; [now left|].
  destruct (isListening s) eqn:E2; simpl; [now left|].
  destruct (InterviewStage_eqb (interviewStage s) processing) eqn:E3; [now left|].
  destruct ((trim (currentUserResponse s) =? "")
            && negb (themeIsConclusion (currentAIQuestion s))) eqn:E4; [now left|].
  destruct (submitDebounceRef s) as [c0|] eqn:E5; simpl.
  - rewrite E5. now left.
  - intros H. injection H as <-. right. repeat split.
Qed.

Lemma consistent_mounted : consistent mounted.
Proof. split; [reflexivity | intros c H; discriminate H]. Qed.

Lemma consistent_step (s : State) (e : Event) :
  consistent s -> consistent (step plan lang s e).
Proof.
  intros [Hreq Hfresh].
  destruct (outcome s) as [o|] eqn:Ho.
  { rewrite (step_unmounted s e o Ho). now split. }
  destruct (quiet e) eqn:Hq.
  - destruct (quiet_frame s e Hq) as (Ht & Hf & Hd & Hr & _ & _).
    unfold consistent, closureFresh. rewrite Ht, Hf, Hd, Hr. now split.
  - unfold step. rewrite Ho.
    destruct e; try discriminate Hq; clear Hq.
    + (* ClickSubmit *)
      destruct (handleSubmitResponse_frame s) as (Ht & Hf & Hr & _).
      unfold consistent, closureFresh. rewrite Ht, Hf, Hr. split; [exact Hreq|].
      intros c Hc. apply handleSubmitResponse_pending in Hc as [Hc|(_ & -> & _)].
      * exact (Hfresh c Hc).
      * simpl. auto.
    + (* SubmitTimerFires *)
      destruct (submitDebounceRef s) as [c|] eqn:Hc.
      * destruct (submitTimerFires_spec s c Hc) as (Hd & _ & _ & Hcase).
        unfold consistent, closureFresh. rewrite Hd.
        split; [|intros c' H'; discriminate H'].
        destruct (FetchClosure.isFetchingQuestion c).
        -- destruct Hcase as (_ & -> & -> & _). exact Hreq.
        -- destruct Hcase as (_ & -> & -> & _). reflexivity.
      * unfold submitTimerFires. rewrite Hc.
        split; [exact Hreq | intros c' H'; congruence].
    + (* QuestionArrives *)
      destruct (request s) as [sent|] eqn:Hs.
      * destruct (questionArrives_spec s sent service Hs) as (_ & _ & Hf & Hr & _ & Hd & _).
        unfold consistent, closureFresh. rewrite Hf, Hr, Hd.
        split; [reflexivity|].
        intros c Hc Hcf. destruct (Hfresh c Hc Hcf) as [Hnf _].
        rewrite Hnf in Hreq. discriminate Hreq.
      * unfold questionArrives. rewrite Hs. split; [|exact Hfresh].
        rewrite Hs. exact Hreq.
Qed.

Lemma consistent_run (events : list Event) (s : State) :
  consistent s -> consistent (run plan lang s events).
Proof.
  revert s. induction events as [|e rest IH]; simpl; intros s H; [exact H|].
  apply IH, consistent_step, H.
Qed.

Lemma extends_refl (t : Transcript) : extends t t.
Proof. exists []. now rewrite app_nil_r. Qed.

Lemma extends_trans (t1 t2 t3 : Transcript) :
  extends t1 t2 -> extends t2 t3 -> extends t1 t3.
Proof.
  intros [a ->] [b ->]. exists (a ++ b). now rewrite app_assoc.
Qed.

Lemma updatedTranscript_extends (t : Transcript) (userAnswer : option string)
  (q : option AIQuestionResponse.t) :
  extends t (updatedTranscriptWithUserAnswer t userAnswer q).
Proof.
  unfold updatedTranscriptWithUserAnswer.
  repeat break_match; try apply extends_refl; eexists; reflexivity.
Qed.

Lemma step_extends (s : State) (e : Event) :
  consistent s -> extends (transcript s) (transcript (step plan lang s e)).
Proof.
  intros [Hreq Hfresh].
  destruct (outcome s) as [o|] eqn:Ho.
  { rewrite (step_unmounted s e o Ho). apply extends_refl. }
  destruct (quiet e) eqn:Hq.
  - destruct (quiet_frame s e Hq) as (-> & _). apply extends_refl.
  - unfold step. rewrite Ho.
    destruct e; try discriminate Hq; clear Hq.
    + destruct (handleSubmitResponse_frame s) as (-> & _). apply extends_refl.
    + destruct (submitDebounceRef s) as [c|] eqn:Hc.
      * destruct (submitTimerFires_spec s c Hc) as (_ & _ & _ & Hcase).
        destruct (FetchClosure.isFetchingQuestion c) eqn:Hcf.
        -- destruct Hcase as (-> & _). apply extends_refl.
        -- destruct Hcase as (-> & _). destruct (Hfresh c eq_refl Hcf) as [_ <-].
           apply updatedTranscript_extends.
      * unfold submitTimerFires. rewrite Hc. apply extends_refl.
    + destruct (request s) as [sent|] eqn:Hs.
      * destruct (questionArrives_spec s sent service Hs) as (-> & _).
        eexists; reflexivity.
      * unfold questionArrives. rewrite Hs. apply extends_refl.
Qed.

Lemma run_extends (events : list Event) (s : State) :
  consistent s -> extends (transcript s) (transcript (run plan lang s events)).
Proof.
  revert s. induction events as [|e rest IH]; simpl; intros s H.
  - apply extends_refl.
  - eapply extends_trans; [apply step_extends, H|]. apply IH, consistent_step, H.
Qed.

Lemma run_app (events1 events2 : list Event) (s : State) :
  run plan lang s (events1 ++ events2)
  = run plan lang (run plan lang s events1) events2.
Proof.
  revert s. induction events1 as [|e rest IH]; simpl; intros s; [reflexivity|].
  apply IH.
Qed.


Lemma InterviewStage_eqb_eq (a b : InterviewStage) :
  InterviewStage_eqb a b = true <-> a = b.
Proof. destruct a, b; simpl; split; congruence. Qed.

Lemma stageAfterSpeech_not_finished (theme : string) :
  stageAfterSpeech theme <> finished.
Proof. unfold stageAfterSpeech. destruct (negb (theme =? "Conclusion")); discriminate. Qed.

Lemma quiet_stage (s : State) (e : Event) :
  quiet e = true ->
  interviewStage (step plan lang s e) = finished ->
  interviewStage s = finished \/ isConcludingQuestion s = true.
Proof.
  intros Hq. unfold step. destruct (outcome s); [now left|].
  destruct e; try discriminate Hq; clear Hq.
  all: handlers; repeat break_match; cbn; intros H;
    try (now left); try (now apply stageAfterSpeech_not_finished in H).
  repeat match goal with
         | H : _ && _ = true |- _ => apply andb_true_iff in H as [? ?]
         end.
  now right.
Qed.

Lemma quiet_outcome (s : State) (e : Event) (t : Transcript) :
  quiet e = true ->
  outcome s = None ->
  outcome (step plan lang s e) = Some (Completed t) ->
  t = transcript s \/ (e = ClickFinish /\ t = finalTranscript s).
Proof.
  intros Hq Ho. unfold step. rewrite Ho.
  destruct e; try discriminate Hq; clear Hq.
  all: handlers; repeat break_match; cbn; intros H; try congruence.
  - right. split; [reflexivity | congruence].
  - left. congruence.
Qed.

Lemma orderly_mounted : orderly mounted.
Proof.
  split; [apply consistent_mounted|].
  cbn. repeat split; discriminate.
Qed.

Lemma alternates_finalTranscript (s : State) :
  alternates AI (transcript s) = true ->
  lastSpeaker (transcript s) = Some AI ->
  alternates AI (finalTranscript s) = true.
Proof.
  intros Halt Hlast. unfold finalTranscript.
  destruct (truthy (trim (currentUserResponse s))); [|exact Halt].
  apply alternates_snoc; [exact Halt|]. now rewrite Hlast.
Qed.

Lemma offered_submit (s : State) :
  offered s ClickSubmit = true ->
  isConcludingQuestion s = false /\ truthy (trim (currentUserResponse s)) = true.
Proof.
  unfold offered. intros H.
  apply andb_true_iff in H as [H H2]. apply andb_true_iff in H as [_ H1].
  apply negb_true_iff in H1. apply negb_true_iff in H2.
  apply orb_false_iff in H2 as [_ H2]. apply negb_false_iff in H2. now split.
Qed.

Lemma offered_finish (s : State) :
  offered s ClickFinish = true ->
  interviewStage s = finished \/ isConcludingQuestion s = true.
Proof.
  unfold offered. intros H. apply andb_true_iff in H as [_ H].
  apply orb_true_iff in H as [H|H].
  - left. now apply InterviewStage_eqb_eq.
  - right. now apply andb_true_iff in H as [H _].
Qed.

Lemma orderly_step (s : State) (e : Event) :
  orderly s -> offered s e = true -> orderly (step plan lang s e).
Proof.
  intros Hord Hoff.
  destruct (outcome s) as [o|] eqn:Ho.
  { now rewrite (step_unmounted s e o Ho). }
  pose proof Hord as (Hcons & Halt & Hlast & Hsub & Hfin & Hout).
  split; [now apply consistent_step|].
  destruct Hcons as [Hreq Hfresh].
  destruct (quiet e) eqn:Hq.
  - destruct (quiet_frame s e Hq) as (Ht & Hf & Hd & Hr & _ & Hcur).
    unfold isConcludingQuestion in *. rewrite Ht, Hf, Hd, Hcur.
    refine (conj Halt (conj Hlast (conj Hsub (conj _ _)))).
    + intros Hs. apply (quiet_stage s e Hq) in Hs as [Hs|Hs]; auto.
    + intros t Hs. apply (quiet_outcome s e t Hq Ho) in Hs as [->|[-> ->]].
      * exact Halt.
      * apply alternates_finalTranscript; [exact Halt|].
        destruct (isFetchingQuestion s); [|exact Hlast].
        destruct Hlast as [_ Hnc].
        apply offered_finish in Hoff as [Hs|Hs]; [apply Hfin in Hs|];
          unfold isConcludingQuestion in Hs; congruence.
  - unfold step. rewrite Ho.
    destruct e; try discriminate Hq; clear Hq.
    + (* ClickSubmit *)
      destruct (handleSubmitResponse_frame s) as (Ht & Hf & _ & _ & Hcur & Hst & Hou & _).
      unfold isConcludingQuestion in *. rewrite Ht, Hf, Hcur, Hst, Hou.
      refine (conj Halt (conj Hlast (conj _ (conj Hfin Hout)))).
      intros c Hc Hcf.
      apply handleSubmitResponse_pending in Hc as [Hc|(_ & -> & _)].
      * exact (Hsub c Hc Hcf).
      * apply offered_submit in Hoff as [H1 H2]. simpl. now split.
    + (* SubmitTimerFires *)
      destruct (submitDebounceRef s) as [c|] eqn:Hc.
      * destruct (submitTimerFires_spec s c Hc) as (Hd & Hcur & Hou & Hcase).
        unfold isConcludingQuestion in *. rewrite Hd, Hcur, Hou.
        destruct (FetchClosure.isFetchingQuestion c) eqn:Hcf.
        -- destruct Hcase as (-> & -> & _ & _ & ->).
           refine (conj Halt (conj Hlast (conj _ (conj Hfin Hout)))).
           intros c' H'. discriminate H'.
        -- destruct Hcase as (-> & -> & _ & _ & ->).
           destruct (Hfresh c eq_refl Hcf) as [Hnf Hct].
           destruct (Hsub c eq_refl Hcf) as [Hnb Hnc].
           rewrite Hnf in Hlast.
           unfold updatedTranscriptWithUserAnswer. rewrite Hnb, Hct.
           refine (conj _ (conj (conj _ Hnc) (conj _ (conj _ Hout)))).
           ++ apply alternates_snoc; [exact Halt|]. now rewrite Hlast.
           ++ rewrite lastSpeaker_snoc. discriminate.
           ++ intros c' H'. discriminate H'.
           ++ discriminate.
      * unfold submitTimerFires. rewrite Hc. exact (proj2 Hord).
    + (* QuestionArrives *)
      destruct (request s) as [sent|] eqn:Hs.
      * destruct (questionArrives_spec s sent service Hs)
          as (Ht & Hcur & Hf & _ & _ & Hd & Hou & Hst).
        unfold isConcludingQuestion in *. rewrite Ht, Hcur, Hf, Hd, Hou, Hst.
        simpl in Hreq. rewrite <- Hreq in Hlast. destruct Hlast as [Hlast _].
        refine (conj _ (conj _ (conj _ (conj _ Hout)))).
        -- apply alternates_snoc; [exact Halt|].
           destruct (lastSpeaker (transcript s)) as [[|]|]; simpl; congruence.
        -- apply lastSpeaker_snoc.
        -- intros c Hc Hcf. destruct (Hfresh c Hc Hcf) as [Hnf _]. congruence.
        -- intros H. destruct (AIQuestionResponse.isEndOfInterview _); discriminate H.
      * unfold questionArrives. rewrite Hs. exact (proj2 Hord).
Qed.

Lemma orderly_run (events : list Event) (s : State) :
  orderly s -> allOffered plan lang s events = true ->
  orderly (run plan lang s events).
Proof.
  revert s. induction events as [|e rest IH]; simpl; intros s H Hoff; [exact H|].
  apply andb_true_iff in Hoff as [H1 H2].
  apply IH; [now apply orderly_step | exact H2].
Qed.

Lemma alternates_adjacent (next : Speaker) (t : Transcript) :
  alternates next t = true ->
  forall before a b after,
    t = before ++ a :: b :: after ->
    InterviewTranscriptItem.speaker a <> InterviewTranscriptItem.speaker b.
Proof.
  intros Halt before. revert next t Halt.
  induction before as [|x before IH]; intros next t Halt a b after ->; simpl in Halt.
  - apply andb_true_iff in Halt as [Ha Hb]. apply andb_true_iff in Hb as [Hb _].
    destruct (InterviewTranscriptItem.speaker a), (InterviewTranscriptItem.speaker b),
      next; simpl in *; congruence.
  - apply andb_true_iff in Halt as [_ Halt].
    exact (IH _ _ Halt a b after eq_refl).
Qed.

(** *** Submissions *)

Lemma countSpeaker_snoc (sp : Speaker) (t : Transcript) (x : InterviewTranscriptItem.t) :
  countSpeaker sp (t ++ [x])
  = countSpeaker sp t
    + (if Speaker_eqb (InterviewTranscriptItem.speaker x) sp then 1 else 0).
Proof.
  unfold countSpeaker. rewrite filter_app, length_app. simpl.
  destruct (Speaker_eqb (InterviewTranscriptItem.speaker x) sp); reflexivity.
Qed.

(** C3 (amended): for every submission of a non-blank response that was
    made while no next-question request was pending, the timer callback
    appends the PARTICIPANT turn that carries the (trimmed) response to the
    transcript and issues the next-question request with exactly that updated
    transcript, so the turn is the last element of what the service receives,
    and the input field is cleared. A submission that was made while a
    request was pending is dropped by the re-entrancy guard: the callback
    only releases the timer; no turn is appended, no request is issued, the
    pending request stays as it was sent, and the response stays in the input
    field. *)
Theorem answer_precedes_request (events : list Event) (c : FetchClosure.t) :
  let s := run plan lang mounted events in
  outcome s = None ->
  submitDebounceRef s = Some c ->
  truthy (trim (FetchClosure.currentUserResponse c)) = true ->
  let s' := step plan lang s SubmitTimerFires in
  let turn :=
    userItem (trim (FetchClosure.currentUserResponse c))
             (option_map AIQuestionResponse.theme (FetchClosure.currentAIQuestion c)) in
  if FetchClosure.isFetchingQuestion c
  then s' = setSubmitDebounceRef None s
       /\ transcript s' = transcript s
       /\ request s' = request s
       /\ requestLog s' = requestLog s
       /\ currentUserResponse s' = currentUserResponse s
  else transcript s' = transcript s ++ [turn]
       /\ request s' = Some (transcript s ++ [turn])
       /\ requestLog s' = requestLog s ++ [transcript s ++ [turn]]
       /\ currentUserResponse s' = "".
Proof.
  intros s Ho Hc Hnb s' turn.
  assert (Hcons : consistent s) by apply consistent_run, consistent_mounted.
  subst s'. unfold step. rewrite Ho.
  destruct (submitTimerFires_spec s c Hc) as (_ & _ & _ & Hcase).
  destruct (FetchClosure.isFetchingQuestion c) eqn:Hcf.
  - destruct Hcase as (Ht & _ & Hr & Hl & _).
    assert (Hs : submitTimerFires s = setSubmitDebounceRef None s).
    { unfold submitTimerFires, fetchAndProcessNextQuestion. now rewrite Hc, Hcf. }
    refine (conj Hs (conj Ht (conj Hr (conj Hl _)))). now rewrite Hs.
  - destruct Hcase as (-> & _ & -> & -> & _).
    destruct Hcons as [_ Hfresh]. destruct (Hfresh c Hc Hcf) as [_ <-].
    unfold updatedTranscriptWithUserAnswer. rewrite Hnb. repeat split.
    unfold submitTimerFires, fetchAndProcessNextQuestion. now rewrite Hc, Hcf.
Qed.

(** C7 (amended): when a submission of a non-blank response is accepted
    while no next-question request is pending, a second call within the
    debounce window, and any number of further calls, leaves the state as the
    first call left it; when the window elapses exactly one PARTICIPANT turn is
    appended and exactly one next-question request is issued, and the timer
    does not run again. *)
Theorem debounce_single_submission (s : State) :
  outcome s = None ->
  submissionAccepted s = true ->
  truthy (trim (currentUserResponse s)) = true ->
  isFetchingQuestion s = false ->
  let s1 := step plan lang s ClickSubmit in
  let s3 := run plan lang s [ClickSubmit; ClickSubmit; SubmitTimerFires] in
  let turn :=
    userItem (trim (currentUserResponse s))
             (option_map AIQuestionResponse.theme (currentAIQuestion s)) in
  step plan lang s1 ClickSubmit = s1
  /\ (forall n, run plan lang s1 (repeat ClickSubmit n) = s1)
  /\ transcript s3 = transcript s ++ [turn]
  /\ countSpeaker User (transcript s3) = S (countSpeaker User (transcript s))
  /\ requestLog s3 = requestLog s ++ [transcript s ++ [turn]]
  /\ request s3 = Some (transcript s ++ [turn])
  /\ step plan lang s3 SubmitTimerFires = s3.
Proof.
  intros Ho Hacc Hnb Hnf.
  unfold submissionAccepted in Hacc. apply andb_true_iff in Hacc as [Hnone Hsome].
  destruct (submitDebounceRef s) as [c0|] eqn:Hd0; [discriminate Hnone|].
  destruct (submitDebounceRef (handleSubmitResponse s)) as [c|] eqn:Hd;
    [|discriminate Hsome].
  pose proof (handleSubmitResponse_pending s c Hd)
    as [Habs|(_ & Hceq & Hsp & Hli & Hst & Hgu)]; [congruence|].
  assert (Hs1 : handleSubmitResponse s
                = setSubmitDebounceRef (Some c) s).
  { unfold handleSubmitResponse. rewrite Hsp, Hli, Hst, Hgu, Hd0, Hceq. reflexivity. }
  assert (Hagain : step plan lang (step plan lang s ClickSubmit) ClickSubmit
                   = step plan lang s ClickSubmit).
  { unfold step. rewrite Ho, Hs1. cbn [outcome setSubmitDebounceRef].
    rewrite Ho. unfold handleSubmitResponse.
    cbn [isSpeaking isListening interviewStage currentUserResponse currentAIQuestion
         submitDebounceRef setSubmitDebounceRef].
    rewrite Hsp, Hli, Hst, Hgu. reflexivity. }
  cbn zeta. split; [exact Hagain|]. split.
  { induction n as [|n IH]; simpl; [reflexivity|]. rewrite Hagain. exact IH. }
  cbn [run]. rewrite Hagain.
  assert (Hfire : step plan lang (step plan lang s ClickSubmit) SubmitTimerFires
                  = submitTimerFires (setSubmitDebounceRef (Some c) s)).
  { unfold step. rewrite Ho, Hs1. cbn [outcome setSubmitDebounceRef]. now rewrite Ho. }
  rewrite Hfire.
  destruct (submitTimerFires_spec (setSubmitDebounceRef (Some c) s) c eq_refl)
    as (Hd3 & _ & _ & Hcase).
  assert (Hcf : FetchClosure.isFetchingQuestion c = false)
    by (rewrite Hceq; exact Hnf).
  assert (Hct : FetchClosure.transcript c = transcript s)
    by (rewrite Hceq; reflexivity).
  assert (Hcr : FetchClosure.currentUserResponse c = currentUserResponse s)
    by (rewrite Hceq; reflexivity).
  assert (Hcq : FetchClosure.currentAIQuestion c = currentAIQuestion s)
    by (rewrite Hceq; reflexivity).
  rewrite Hcf, Hct, Hcr, Hcq in Hcase.
  destruct Hcase as (Ht3 & _ & Hr3 & Hl3 & _).
  cbn [requestLog setSubmitDebounceRef] in Hl3.
  unfold updatedTranscriptWithUserAnswer in Ht3, Hr3, Hl3.
  rewrite Hnb in Ht3, Hr3, Hl3.
  rewrite Ht3, Hr3, Hl3, countSpeaker_snoc. cbn [userItem InterviewTranscriptItem.speaker Speaker_eqb].
  repeat split; try lia.
  unfold step.
  destruct (outcome (submitTimerFires (setSubmitDebounceRef (Some c) s)));
    [reflexivity|].
  unfold submitTimerFires at 1. now rewrite Hd3.
Qed.




(** *** Replay *)

(** C9 (amended): replaying the current question never changes the
    transcript, neither when it is requested nor when it completes, however
    the speech operation settles; when the replay completes the stage is the
    one the question's theme determines ([listening], or [concluding] for the
    theme "Conclusion"), so the stage is what it was at the request exactly
    when the replay was requested in that stage. *)
Theorem replay_keeps_transcript_sets_stage (s : State) (q : AIQuestionResponse.t)
  (result : SpeechResult) :
  outcome s = None ->
  currentAIQuestion s = Some q ->
  let s1 := step plan lang s ClickReplay in
  let s2 := step plan lang s1 (SpeechSettles result) in
  transcript s1 = transcript s
  /\ transcript s2 = transcript s
  /\ interviewStage s2 = stageAfterSpeech (AIQuestionResponse.theme q)
  /\ (interviewStage s2 = interviewStage s
      <-> interviewStage s = stageAfterSpeech (AIQuestionResponse.theme q)).
Proof.
  intros Ho Hq.
  assert (Hs1 : step plan lang s ClickReplay
                = speakText (AIQuestionResponse.nextQuestionText q) lang
                            (AIQuestionResponse.theme q) true s).
  { unfold step. now rewrite Ho, Hq. }
  cbn zeta. rewrite Hs1. clear Hs1.
  unfold speakText. rewrite !andb_false_r.
  destruct (negb (truthy (trim (AIQuestionResponse.nextQuestionText q)))).
  - unfold step. cbn [outcome setSpeakingPromiseRef setInterviewStage setIsSpeaking].
    rewrite Ho. unfold speechSettles.
    cbn [speakingPromiseRef setSpeakingPromiseRef transcript interviewStage
         setInterviewStage setIsSpeaking].
    repeat split; congruence.
  - unfold step. cbn [outcome setSpeakingPromiseRef setIsSpeaking
                       setLastSpokenQuestionTextRef].
    rewrite Ho. unfold speechSettles, onError.
    cbn [speakingPromiseRef setSpeakingPromiseRef Utterance.theme Utterance.text].
    destruct result; repeat break_match;
      cbn -[stageAfterSpeech]; repeat split; congruence.
Qed.

(** *** Voice capture, fallback tier *)

(** C10: when the transcription backend answers successfully with a body
    that has no [transcript] field (or a null body, or an empty transcript),
    [transcribeAudio] resolves to the empty string instead of failing; the
    [onstop] handler of the recorder, having found a non-empty recording,
    stores that empty string as the participant's input, sets the capture
    status to [readyToSubmit] and clears the capture error, so no
    transcription error is shown. *)
Theorem missing_transcript_field_yields_empty_input (s : State)
  (chunks : list nat) (audioBlob : Blob.t) (result : option SttJson.t) :
  outcome s = None ->
  mediaRecorderRef s = true ->
  (0 < list_sum (filter (fun n => 0 <? n) chunks))%nat ->
  lacksTranscript result = true ->
  let s1 := step plan lang s (RecorderStops chunks) in
  let s2 := step plan lang s1 (TranscriptionSettles audioBlob (OkJson result)) in
  transcribeAudio (Some audioBlob) lang (OkJson result) = Resolved ""
  /\ voiceInputStage s1 = VoiceInputStage.transcribing
  /\ currentUserResponse s2 = ""
  /\ voiceInputStage s2 = VoiceInputStage.readyToSubmit
  /\ sttError s2 = None
  /\ transcript s2 = transcript s.
Proof.
  intros Ho Hrec Hsize Hlacks.
  assert (Ht : transcribeAudio (Some audioBlob) lang (OkJson result) = Resolved "").
  { unfold transcribeAudio. now rewrite Hlacks. }
  assert (Hs1 : step plan lang s (RecorderStops chunks)
                = setTranscription true
                    (setCurrentUserResponse "Transcribing audio..."
                      (setVoiceInputStage VoiceInputStage.transcribing
                        (setMediaRecorderRef false (setIsListening false s))))).
  { unfold step. rewrite Ho. unfold recorderStops. rewrite Hrec. cbn [Blob.size].
    destruct (list_sum (filter (fun n => 0 <? n) chunks) =? 0)%nat eqn:E;
      [apply Nat.eqb_eq in E; lia | reflexivity]. }
  cbn zeta. rewrite Hs1. clear Hs1.
  split; [exact Ht|].
  unfold step. cbn [outcome setTranscription setCurrentUserResponse
                    setVoiceInputStage setMediaRecorderRef setIsListening].
  rewrite Ho. unfold transcriptionSettles.
  cbn [transcription setTranscription]. rewrite Ht. repeat split.
Qed.

(** *** Rejected calls *)

Lemma rejectedSession_mounted : rejectedSession mounted.
Proof. unfold rejectedSession. cbn. repeat split. left. repeat split. Qed.

Lemma quiet_waiting (s : State) (e : Event) :
  quiet e = true ->
  currentAIQuestion s = None ->
  speakingPromiseRef s = None ->
  interviewStage s = processing ->
  speakingPromiseRef (step plan lang s e) = None
  /\ interviewStage (step plan lang s e) = processing.
Proof.
  intros Hq Hcur Hsp Hst. unfold step. destruct (outcome s); [now split|].
  destruct e; try discriminate Hq; clear Hq.
  all: handlers; rewrite ?Hcur, ?Hsp, ?Hst; cbn;
    repeat break_match; cbn; split; congruence.
Qed.

Lemma rejectedSession_step (s : State) (e : Event) :
  rejectedSession s ->
  offered s e = true ->
  everyCallRejected [e] = true ->
  rejectedSession (step plan lang s e).
Proof.
  intros (Hd & Hlog & Hcase) Hoff Hrej.
  destruct (outcome s) as [o|] eqn:Ho.
  { rewrite (step_unmounted s e o Ho). now split. }
  destruct (quiet e) eqn:Hq.
  - destruct (quiet_frame s e Hq) as (Ht & Hf & Hd' & Hr & Hl & Hcur).
    unfold rejectedSession. rewrite Ht, Hf, Hd', Hr, Hl, Hcur.
    refine (conj Hd (conj Hlog _)).
    destruct Hcase as [(H1 & H2 & H3 & H4 & H5 & H6)|H]; [left|now right].
    destruct (quiet_waiting s e Hq H4 H5 H6) as [-> ->]. repeat split; assumption.
  - destruct e; try discriminate Hq; clear Hq.
    + (* the submit button is not on offer *)
      exfalso. unfold offered, isGlobalInteractionDisabled, isConcludingQuestion in Hoff.
      destruct Hcase as [(_ & _ & _ & _ & _ & Hst)|(_ & _ & _ & Hcur)].
      * rewrite Hst in Hoff. cbn in Hoff.
        rewrite orb_true_r in Hoff. cbn in Hoff. now rewrite andb_false_r in Hoff.
      * rewrite Hcur in Hoff. cbn in Hoff. now rewrite andb_false_r in Hoff.
    + unfold step. rewrite Ho. unfold submitTimerFires. rewrite Hd. now split.
    + destruct service as [m| |]; try discriminate Hrej.
      unfold step. rewrite Ho.
      destruct Hcase as [(H1 & H2 & H3 & H4 & H5 & H6)|(H1 & H2 & H3 & H4)].
      * destruct (questionArrives_spec s [] (ClientInitFails m) H2)
          as (Ht & Hcur & Hf & Hr & Hl & Hd' & _).
        unfold rejectedSession. rewrite Ht, Hcur, Hf, Hr, Hl, Hd', H3.
        refine (conj Hd (conj Hlog _)). right. repeat split.
      * unfold questionArrives. rewrite H2. split; [exact Hd|].
        split; [exact Hlog|]. right. now repeat split.
Qed.

Lemma everyCallRejected_cons (e : Event) (events : list Event) :
  everyCallRejected (e :: events) = true ->
  everyCallRejected [e] = true /\ everyCallRejected events = true.
Proof.
  unfold everyCallRejected. simpl. intros H.
  apply andb_true_iff in H as [H1 H2]. now rewrite H1.
Qed.

Lemma rejectedSession_run (events : list Event) (s : State) :
  rejectedSession s ->
  allOffered plan lang s events = true ->
  everyCallRejected events = true ->
  rejectedSession (run plan lang s events).
Proof.
  revert s. induction events as [|e rest IH]; intros s H Hoff Hrej; [exact H|].
  simpl in Hoff. apply andb_true_iff in Hoff as [H1 H2].
  apply everyCallRejected_cons in Hrej as [H3 H4].
  simpl. apply IH; [now apply rejectedSession_step | exact H2 | exact H4].
Qed.

(** C1 (amended): when the call of [generateFollowUpQuestion] is rejected
    (the client cannot be initialised), the orchestrator reports the failure,
    appends the emergency closing candidate (a fixed apologetic remark, theme
    "Conclusion", [isEndOfInterview] set) as an AGENT turn, makes it the
    current question, proceeds to [concluding], and issues no further request.
    A failure of the remote call itself is absorbed by
    [generateFollowUpQuestion]: while the transcript that was sent leaves a
    planned question unasked, the call resolves to that question under its
    theme with [isEndOfInterview] unset, the orchestrator appends it as the
    AGENT turn and goes on to [asking], and nothing is reported; only when
    the plan is exhausted the call resolves to an apologetic remark of theme
    "Conclusion" with [isEndOfInterview] set, and the orchestrator proceeds to
    [concluding]. In every session driven through the rendered controls in
    which every call is rejected, exactly one request is ever made and the
    transcript is empty or consists of the emergency conclusion alone; once
    that remark has been spoken, however the speech operation settles, the
    session reaches [finished] with exactly that one AGENT turn and hands it
    off. *)
Theorem rejected_call_concludes (events : list Event) (message : string)
  (result : SpeechResult) :
  allOffered plan lang mounted events = true ->
  everyCallRejected events = true ->
  let s := run plan lang mounted events in
  (forall s0 sent,
      outcome s0 = None -> request s0 = Some sent ->
      let s1 := step plan lang s0 (QuestionArrives (ClientInitFails message)) in
      transcript s1 = transcript s0 ++ [aiItem emergencyConclusion]
      /\ currentAIQuestion s1 = Some emergencyConclusion
      /\ interviewStage s1 = concluding
      /\ isFetchingQuestion s1 = false
      /\ request s1 = None
      /\ requestLog s1 = requestLog s0
      /\ errors s1
         = errors s0 ++ [("Failed to get next question: " ++ message ++ ".")%string])
  /\ (forall s0 sent,
        outcome s0 = None -> request s0 = Some sent ->
        let s1 := step plan lang s0 (QuestionArrives GenerateContentFails) in
        let q :=
          match nextPlannedQuestion plan sent with
          | Some p =>
              AIQuestionResponse.mk (PlannedQuestion.question p)
                                    (PlannedQuestion.theme p) false false
          | None =>
              AIQuestionResponse.mk
                ("Apologies, I encountered an issue. Let's try this: Is there anything else you'd like to share in "
                   ++ LANGUAGE_OPTIONS lang ++ "?")
                "Conclusion" false true
          end in
        generateFollowUpQuestion plan sent lang GenerateContentFails
        = Resolved (Some q)
        /\ transcript s1 = transcript s0 ++ [aiItem q]
        /\ currentAIQuestion s1 = Some q
        /\ interviewStage s1
           = match nextPlannedQuestion plan sent with
             | Some _ => asking
             | None => concluding
             end
        /\ isFetchingQuestion s1 = false
        /\ request s1 = None
        /\ requestLog s1 = requestLog s0
        /\ errors s1 = errors s0)
  /\ requestLog s = [[]]
  /\ (transcript s = [] \/ transcript s = [aiItem emergencyConclusion])
  /\ (interviewStage s = finished -> transcript s = [aiItem emergencyConclusion])
  /\ (let final :=
        run plan lang mounted
            [QuestionArrives (ClientInitFails message); SpeakEffect;
             SpeechSettles result; FinishTimer; FinishedEffect] in
      interviewStage final = finished
      /\ transcript final = [aiItem emergencyConclusion]
      /\ outcome final = Some (Completed [aiItem emergencyConclusion])).
Proof.
  intros Hoff Hrej s.
  pose proof (rejectedSession_run events mounted rejectedSession_mounted Hoff Hrej)
    as (_ & Hlog & Hcase).
  fold s in Hlog, Hcase.
  split; [|split; [|split; [|split; [|split]]]].
  - intros s0 sent Ho Hs. cbn zeta. unfold step. rewrite Ho.
    destruct (questionArrives_spec s0 sent (ClientInitFails message) Hs)
      as (Ht & Hcur & Hf & Hr & Hl & _ & _ & Hst).
    unfold arrivingQuestion, generateFollowUpQuestion in *.
    cbn [AIQuestionResponse.isEndOfInterview emergencyConclusion] in Hst.
    repeat split; try assumption.
    unfold questionArrives. rewrite Hs. reflexivity.
  - intros s0 sent Ho Hs. cbn zeta. unfold step. rewrite Ho.
    destruct (questionArrives_spec s0 sent GenerateContentFails Hs)
      as (Ht & Hcur & Hf & Hr & Hl & _ & _ & Hst).
    assert (Herr : errors (questionArrives plan lang GenerateContentFails s0)
                   = errors s0).
    { unfold questionArrives. rewrite Hs. reflexivity. }
    unfold arrivingQuestion, generateFollowUpQuestion, callFailureFallback in *.
    destruct (nextPlannedQuestion plan sent) as [p|];
      cbn [AIQuestionResponse.isEndOfInterview] in Hst;
      repeat split; assumption.
  - exact Hlog.
  - destruct Hcase as [(_ & _ & -> & _)|(_ & _ & -> & _)]; auto.
  - intros Hfin. destruct Hcase as [(_ & _ & _ & _ & _ & Hst)|(_ & _ & -> & _)];
      [congruence | reflexivity].
  - destruct result; vm_compute; repeat split.
Qed.

(** C2: in every session driven through the rendered controls the transcript
    only grows (what it held at any earlier moment is an initial segment of
    what it holds later), its turns alternate AGENT, PARTICIPANT, AGENT, ...
    starting with the agent, so that only the last AGENT turn can lack its
    answer and no two neighbouring turns have the same speaker, and the
    transcript handed off at completion alternates in the same way. *)
Theorem transcript_append_only_and_alternating (events later : list Event) :
  allOffered plan lang mounted (events ++ later) = true ->
  let s := run plan lang mounted events in
  let s' := run plan lang mounted (events ++ later) in
  extends (transcript s) (transcript s')
  /\ alternates AI (transcript s') = true
  /\ (forall before a b after,
        transcript s' = before ++ a :: b :: after ->
        InterviewTranscriptItem.speaker a <> InterviewTranscriptItem.speaker b)
  /\ (forall t, outcome s' = Some (Completed t) -> alternates AI t = true).
Proof.
  intros Hoff s s'.
  pose proof (orderly_run (events ++ later) mounted orderly_mounted Hoff)
    as (_ & Halt & _ & _ & _ & Hout).
  fold s' in Halt, Hout.
  split; [|split; [exact Halt|split; [|exact Hout]]].
  - subst s s'. rewrite run_app.
    apply run_extends, consistent_run, consistent_mounted.
  - exact (alternates_adjacent AI (transcript s') Halt).
Qed.

End Runs.

(** *** Concrete sessions *)

Lemma rejected_call_concludes_witness :
  let final :=
    run onboardingPlan en_US mounted
        [QuestionArrives (ClientInitFails "VITE_GEMINI_API_KEY environment variable is not set.");
         SpeakEffect; SpeechSettles Ended; FinishTimer; FinishedEffect] in
  interviewStage final = finished
  /\ transcript final = [aiItem emergencyConclusion].
Proof.
  assert (Hoff : allOffered onboardingPlan en_US mounted
                   [QuestionArrives (ClientInitFails "no key"); SpeakEffect] = true)
    by (vm_compute; reflexivity).
  assert (Hrej : everyCallRejected
                   [QuestionArrives (ClientInitFails "no key"); SpeakEffect] = true)
    by (vm_compute; reflexivity).
  pose proof (rejected_call_concludes onboardingPlan en_US
                [QuestionArrives (ClientInitFails "no key"); SpeakEffect]
                "VITE_GEMINI_API_KEY environment variable is not set." Ended
                Hoff Hrej) as (_ & _ & _ & _ & _ & H1 & H2 & _).
  split; assumption.
Defined.

(** C1, as the claim states it, fails: the remote call fails on the first
    fetch while the plan still has its question; the orchestrator receives that
    planned question, appends it, and goes on to [asking]; nothing is
    reported. *)
Lemma failed_remote_call_asks_planned_question :
  let s := step onboardingPlan en_US mounted (QuestionArrives GenerateContentFails) in
  interviewStage s = asking
  /\ currentAIQuestion s
     = Some (AIQuestionResponse.mk "How did you find our app?" "Onboarding" false false)
  /\ transcript s <> [aiItem emergencyConclusion]
  /\ errors s = [].
Proof. vm_compute. repeat split. discriminate. Qed.

Lemma transcript_append_only_and_alternating_witness :
  alternates AI (transcript (run onboardingPlan en_US mounted
                               (answeredSession ++ concludedSession))) = true.
Proof.
  assert (Hoff : allOffered onboardingPlan en_US mounted
                   (answeredSession ++ concludedSession) = true)
    by (vm_compute; reflexivity).
  exact (proj1 (proj2 (transcript_append_only_and_alternating
                         onboardingPlan en_US answeredSession concludedSession
                         Hoff))).
Defined.

(** The hypothesis on the controls cannot be dropped: [handleSubmitResponse]
    called with an empty input while the current question is a concluding one,
    which no rendered control does, is accepted, and the reply to the request
    it triggers becomes a second AGENT turn in a row. *)
Lemma unoffered_submission_breaks_alternation :
  let events :=
    concludedSession
    ++ [ClickSubmit; SubmitTimerFires; QuestionArrives (ResponseText (Some farewell))] in
  allOffered onboardingPlan en_US mounted events = false
  /\ transcript (run onboardingPlan en_US mounted events)
     = [aiItem farewell; aiItem farewell].
Proof. vm_compute. split; reflexivity. Qed.

(** C3, as the claim states it, fails. After [overlappedSession], every
    event of which used a control on offer, the first request is still
    pending while the stage is [listening] again; the participant submits the
    non-blank response "And from an ad" through the enabled submit button and
    the submission is accepted. When the window elapses the callback finds the
    re-entrancy flag it captured set: no PARTICIPANT turn carrying the
    response is appended, no request is issued, and the only request the
    service has for this question is the one sent before, which lacks the
    response. *)
Lemma pending_request_drops_submission :
  let s := run twoQuestionPlan en_US mounted overlappedSession in
  let s1 := step twoQuestionPlan en_US s ClickSubmit in
  let s2 := step twoQuestionPlan en_US s1 SubmitTimerFires in
  let sent := [aiItem firstQuestion; userItem "Via a friend" (Some "Onboarding")] in
  allOffered twoQuestionPlan en_US mounted
             (overlappedSession ++ [ClickSubmit; SubmitTimerFires]) = true
  /\ currentUserResponse s = "And from an ad"
  /\ submissionAccepted s = true
  /\ submitDebounceRef s1
     = Some (FetchClosure.mk "And from an ad" (Some firstQuestion) sent true)
  /\ transcript s2 = sent
  /\ countSpeaker User (transcript s2) = countSpeaker User (transcript s)
  /\ requestLog s2 = [[]; sent]
  /\ request s2 = Some sent
  /\ submitDebounceRef s2 = None
  /\ currentUserResponse s2 = "And from an ad".
Proof. vm_compute. repeat split. Qed.

Lemma answer_precedes_request_witness :
  request (step onboardingPlan en_US
             (run onboardingPlan en_US mounted submittedSession) SubmitTimerFires)
  = Some onboardingTranscript.
Proof.
  set (c := FetchClosure.mk "Via a friend" (Some firstQuestion)
                            [aiItem firstQuestion] false).
  assert (H1 : outcome (run onboardingPlan en_US mounted submittedSession) = None)
    by (vm_compute; reflexivity).
  assert (H2 : submitDebounceRef (run onboardingPlan en_US mounted submittedSession)
               = Some c)
    by (vm_compute; reflexivity).
  assert (H3 : truthy (trim (FetchClosure.currentUserResponse c)) = true)
    by (vm_compute; reflexivity).
  pose proof (answer_precedes_request onboardingPlan en_US submittedSession c H1 H2 H3)
    as (_ & H & _).
  rewrite H. vm_compute. reflexivity.
Defined.

Lemma debounce_single_submission_witness :
  transcript (run onboardingPlan en_US
                (run onboardingPlan en_US mounted typedSession)
                [ClickSubmit; ClickSubmit; SubmitTimerFires])
  = onboardingTranscript.
Proof.
  set (s := run onboardingPlan en_US mounted typedSession).
  assert (H1 : outcome s = None) by (vm_compute; reflexivity).
  assert (H2 : submissionAccepted s = true) by (vm_compute; reflexivity).
  assert (H3 : truthy (trim (currentUserResponse s)) = true)
    by (vm_compute; reflexivity).
  assert (H4 : isFetchingQuestion s = false) by (vm_compute; reflexivity).
  pose proof (debounce_single_submission onboardingPlan en_US s H1 H2 H3 H4)
    as (_ & _ & H & _).
  rewrite H. vm_compute. reflexivity.
Defined.

(** C7, as the claim states it, fails. After [overlappedSession] the stage is
    [listening], nothing is spoken or captured, no submission is scheduled, and
    the first request is still pending. The participant presses the enabled
    submit button twice with the same non-blank input; the first call is
    accepted, the second ignored; when the window elapses
    [fetchAndProcessNextQuestion] finds its re-entrancy flag set and returns:
    no PARTICIPANT turn is appended and no request is issued. And after
    [concludedSession] two calls with the same empty input are accepted as one
    submission, which issues a request and appends no PARTICIPANT turn. *)
Lemma debounced_pair_appends_nothing :
  (let s := run twoQuestionPlan en_US mounted overlappedSession in
   let s' := run twoQuestionPlan en_US s [ClickSubmit; ClickSubmit; SubmitTimerFires] in
   allOffered twoQuestionPlan en_US mounted
              (overlappedSession ++ [ClickSubmit; ClickSubmit]) = true
   /\ interviewStage s = listening
   /\ currentUserResponse s = "And from an ad"
   /\ submissionAccepted s = true
   /\ isFetchingQuestion s = true
   /\ transcript s' = transcript s
   /\ countSpeaker User (transcript s') = countSpeaker User (transcript s)
   /\ requestLog s' = requestLog s)
  /\ (let s := run onboardingPlan en_US mounted concludedSession in
      let s' := run onboardingPlan en_US s [ClickSubmit; ClickSubmit; SubmitTimerFires] in
      submissionAccepted s = true
      /\ isFetchingQuestion s = false
      /\ countSpeaker User (transcript s') = countSpeaker User (transcript s)
      /\ requestLog s' = requestLog s ++ [transcript s]).
Proof. vm_compute. repeat split. Qed.



(** C9, as the claim states it, fails. After the race of [replayRace] the
    stage is [listening] and the current question is the concluding one;
    nothing is being spoken, processed or captured, and the replay control is
    on offer; the replay is requested and plays to its end, and the stage is
    [concluding]. And while the recorder of [fallbackRecording] is capturing,
    the replay control is on offer all the same. *)
Lemma replay_changes_stage :
  (let s := run twoQuestionPlan en_US mounted replayRace in
   let s' := run twoQuestionPlan en_US s [ClickReplay; SpeechSettles Ended] in
   allOffered twoQuestionPlan en_US mounted replayRace = true
   /\ offered s ClickReplay = true
   /\ isSpeaking s = false
   /\ isListening s = false
   /\ isFetchingQuestion s = false
   /\ interviewStage s = listening
   /\ interviewStage s' = concluding
   /\ interviewStage s' <> interviewStage s)
  /\ (let s := run onboardingPlan en_US mounted fallbackRecording in
      allOffered onboardingPlan en_US mounted fallbackRecording = true
      /\ isListening s = true
      /\ mediaRecorderRef s = true
      /\ offered s ClickReplay = true).
Proof. vm_compute. repeat split. discriminate. Qed.

Lemma replay_keeps_transcript_sets_stage_witness :
  interviewStage (step onboardingPlan en_US
                    (step onboardingPlan en_US
                       (run onboardingPlan en_US mounted concludedSession)
                       ClickReplay)
                    (SpeechSettles PlaybackError))
  = concluding.
Proof.
  set (s := run onboardingPlan en_US mounted concludedSession).
  assert (H1 : outcome s = None) by (vm_compute; reflexivity).
  assert (H2 : currentAIQuestion s = Some farewell) by (vm_compute; reflexivity).
  pose proof (replay_keeps_transcript_sets_stage onboardingPlan en_US s farewell
                PlaybackError H1 H2) as (_ & _ & H & _).
  rewrite H. vm_compute. reflexivity.
Defined.

Lemma missing_transcript_field_yields_empty_input_witness :
  let s := run onboardingPlan en_US mounted fallbackRecording in
  let s' := step onboardingPlan en_US
              (step onboardingPlan en_US s (RecorderStops [0; 16]))
              (TranscriptionSettles (Blob.mk 16) (OkJson (Some (SttJson.mk None)))) in
  currentUserResponse s' = ""
  /\ voiceInputStage s' = VoiceInputStage.readyToSubmit.
Proof.
  set (s := run onboardingPlan en_US mounted fallbackRecording).
  assert (H1 : outcome s = None) by (vm_compute; reflexivity).
  assert (H2 : mediaRecorderRef s = true) by (vm_compute; reflexivity).
  assert (H3 : (0 < list_sum (filter (fun n => 0 <? n) [0; 16]))%nat)
    by (simpl; lia).
  pose proof (missing_transcript_field_yields_empty_input onboardingPlan en_US s
                [0; 16] (Blob.mk 16) (Some (SttJson.mk None)) H1 H2 H3 eq_refl)
    as (_ & _ & H4 & H5 & _).
  split; assumption.
Defined.

End ScreenFacts.

(** * Properties of the validation of generated plans *)

Module ServiceFacts.

Lemma trimEnd_idempotent (s : string) : trimEnd (trimEnd s) = trimEnd s.
Proof.
  induction s as [|c r IH]; simpl; [reflexivity|].
  destruct (trimEnd r) as [|c' r'] eqn:E.
  - destruct (isWhiteSpace c) eqn:W; simpl; [reflexivity|]. now rewrite W.
  - change (trimEnd (String c (String c' r')))
      with (match trimEnd (String c' r') with
            | "" => if isWhiteSpace c then "" else String c ""
            | String a b => String c (String a b)
            end).
    now rewrite IH.
Qed.

Lemma trimEnd_head (c : ascii) (r : string) :
  isWhiteSpace c = false -> exists r', trimEnd (String c r) = String c r'.
Proof.
  intros W. simpl. destruct (trimEnd r) as [|c' r'].
  - rewrite W. now exists "".
  - now exists (String c' r').
Qed.

Lemma trimStart_head (s : string) :
  trimStart s = "" \/ exists c r, trimStart s = String c r /\ isWhiteSpace c = false.
Proof.
  induction s as [|c r IH]; simpl; [now left|].
  destruct (isWhiteSpace c) eqn:W; [exact IH|]. right. now exists c, r.
Qed.

Lemma trim_idempotent (s : string) : trim (trim s) = trim s.
Proof.
  unfold trim. destruct (trimStart_head s) as [->|(c & r & -> & W)]; [reflexivity|].
  destruct (trimEnd_head c r W) as [r' E]. rewrite E. simpl trimStart. rewrite W.
  rewrite <- E. apply trimEnd_idempotent.
Qed.


Lemma isNonBlankString_spec (item : Json) :
  isNonBlankString item = true -> exists s, item = JString s /\ trim s <> "".
Proof.
  destruct item; simpl; try discriminate. intros H. exists s. split; [reflexivity|].
  apply negb_true_iff in H. now apply String.eqb_neq.
Qed.

Lemma stringsOf_filter_nonblank (items : list Json) :
  Forall (fun s => trim s <> "") (stringsOf (filter isNonBlankString items)).
Proof.
  induction items as [|item items IH]; simpl; [constructor|].
  destruct (isNonBlankString item) eqn:E; [|exact IH].
  destruct (isNonBlankString_spec item E) as (s & -> & Hs). simpl.
  now constructor.
Qed.

Lemma normalized_nonblank (value : option Json) :
  Forall (fun s => trim s <> "") (normalizeStringOrArray value).
Proof.
  destruct value as [[| | |s|items|]|]; simpl; try constructor.
  - destruct (String.eqb_spec (trim s) "") as [E|E]; simpl; constructor; [|constructor].
    now rewrite trim_idempotent.
  - apply stringsOf_filter_nonblank.
Qed.

Lemma nonblank_strings_kept (l : list string) :
  Forall (fun s => trim s <> "") l ->
  stringsOf (filter isNonBlankString (map JString l)) = l.
Proof.
  induction 1 as [|s l Hs _ IH]; simpl; [reflexivity|].
  apply String.eqb_neq in Hs. rewrite Hs. simpl. now rewrite IH.
Qed.

Lemma mapOrThrow_Forall {A B : Type} (f : A -> option B) (P : B -> Prop)
  (items : list A) (mapped : list B) :
  (forall a b, f a = Some b -> P b) ->
  mapOrThrow f items = Some mapped -> Forall P mapped.
Proof.
  intros Hf. revert mapped. induction items as [|a items IH]; simpl; intros mapped H.
  - injection H as <-. constructor.
  - destruct (f a) as [b|] eqn:Ea; [|discriminate].
    destruct (mapOrThrow f items) as [bs|]; [|discriminate].
    injection H as <-. constructor; [now apply (Hf a) | now apply IH].
Qed.

Lemma mapOrThrow_None {A B : Type} (f : A -> option B) (items : list A) :
  mapOrThrow f items = None <-> exists a, In a items /\ f a = None.
Proof.
  induction items as [|a items IH]; simpl.
  - split; [discriminate | intros (a & [] & _)].
  - destruct (f a) as [b|] eqn:Ea.
    + destruct (mapOrThrow f items) as [bs|].
      * split; [discriminate|]. intros (x & [<-|Hx] & Hn); [congruence|].
        assert (Hc : Some bs = None) by (apply IH; now exists x). discriminate Hc.
      * split; [|reflexivity]. intros _.
        destruct (proj1 IH eq_refl) as (x & Hx & Hn). exists x. split; [now right | exact Hn].
    + split; [|reflexivity]. intros _. exists a. split; [now left | exact Ea].
Qed.

Lemma questionnaireItem_sound (item : Json) (built : KeyQuestionnaireItem.t) :
  questionnaireItem item = Some built ->
  Forall (fun s => trim s <> "") (KeyQuestionnaireItem.questions built).
Proof.
  unfold questionnaireItem.
  destruct (getProp item "theme") as [theme|]; [|discriminate].
  destruct (getProp item "questions") as [questions|]; [|discriminate].
  intros H. injection H as <-. apply normalized_nonblank.
Qed.

Lemma questionnaireItem_None (item : Json) :
  questionnaireItem item = None <-> item = JNull.
Proof.
  unfold questionnaireItem. destruct item; simpl; split; congruence.
Qed.

Lemma validatedKeyQuestionnaire_wellFormed (parsed : Json)
  (kq : list KeyQuestionnaireItem.t) :
  validatedKeyQuestionnaire parsed = Some (Some kq) -> wellFormedQuestionnaire kq.
Proof.
  assert (Hdef : wellFormedQuestionnaire defaultQuestionnaire).
  { split; [discriminate|]. repeat constructor; try discriminate. }
  assert (Hem : wellFormedQuestionnaire emergencyQuestionnaire).
  { split; [discriminate|]. repeat constructor; try discriminate. }
  unfold validatedKeyQuestionnaire.
  destruct (truthyJson parsed); [|discriminate].
  destruct (getProp parsed "keyQuestionnaire") as [[v|]|]; [| |discriminate].
  2: { intros H. injection H as <-. exact Hdef. }
  destruct v; try (intros H; injection H as <-; exact Hdef).
  destruct (mapOrThrow questionnaireItem items) as [mapped|] eqn:Em; [|discriminate].
  intros H. injection H as <-.
  set (kept := filter _ mapped).
  destruct kept as [|x kept'] eqn:Ek; [exact Hem|]. simpl.
  split; [discriminate|]. rewrite <- Ek. subst kept.
  apply Forall_forall. intros item Hin. apply filter_In in Hin as [Hin Hq].
  split.
  - apply Nat.ltb_lt in Hq. destruct (KeyQuestionnaireItem.questions item);
      [simpl in Hq; lia | discriminate].
  - pose proof (mapOrThrow_Forall questionnaireItem _ items mapped
                  questionnaireItem_sound Em) as Hall.
    rewrite Forall_forall in Hall. now apply Hall.
Qed.

(** X1: whatever value the model sends for a string-or-array field,
    [normalizeStringOrArray] returns only strings that are not blank, and
    normalising the array of its own results changes nothing. *)
Theorem normalizeStringOrArray_nonblank_fixpoint (value : option Json) :
  Forall (fun s => trim s <> "") (normalizeStringOrArray value)
  /\ normalizeStringOrArray (Some (JArray (map JString (normalizeStringOrArray value))))
     = normalizeStringOrArray value.
Proof.
  pose proof (normalized_nonblank value) as H.
  split; [exact H|].
  change (stringsOf (filter isNonBlankString (map JString (normalizeStringOrArray value)))
          = normalizeStringOrArray value).
  now apply nonblank_strings_kept.
Qed.

(** X2: when [generateResearchPlan] returns a plan, its questionnaire has at
    least one theme, every theme has at least one question, and no question
    is blank. *)
Theorem validated_questionnaire_has_questions (parsed : Json)
  (kq : list KeyQuestionnaireItem.t) :
  validatedKeyQuestionnaire parsed = Some (Some kq) ->
  kq <> []
  /\ Forall (fun item =>
               (0 < length (KeyQuestionnaireItem.questions item))%nat
               /\ Forall (fun s => trim s <> "") (KeyQuestionnaireItem.questions item))
            kq.
Proof.
  intros H. destruct (validatedKeyQuestionnaire_wellFormed parsed kq H) as [Hne Hall].
  split; [exact Hne|].
  eapply Forall_impl; [|exact Hall]. intros item [Hq Hb]. split; [|exact Hb].
  destruct (KeyQuestionnaireItem.questions item); [contradiction | simpl; lia].
Qed.

Lemma validated_questionnaire_has_questions_witness :
  validatedKeyQuestionnaire onboardingReply
  = Some (Some (ResearchPlan.keyQuestionnaire onboardingPlan))
  /\ ResearchPlan.keyQuestionnaire onboardingPlan <> []
  /\ Forall (fun item =>
               (0 < length (KeyQuestionnaireItem.questions item))%nat
               /\ Forall (fun s => trim s <> "") (KeyQuestionnaireItem.questions item))
            (ResearchPlan.keyQuestionnaire onboardingPlan).
Proof.
  assert (H : validatedKeyQuestionnaire onboardingReply
              = Some (Some (ResearchPlan.keyQuestionnaire onboardingPlan)))
    by (vm_compute; reflexivity).
  split; [exact H|].
  exact (validated_questionnaire_has_questions onboardingReply _ H).
Defined.

(** X3: building the questionnaire throws, so that [generateResearchPlan]
    rejects, exactly when the parsed reply is truthy and its
    [keyQuestionnaire] is an array with a [null] element; the function
    returns [null] exactly when the parsed reply is falsy. *)
Theorem validated_questionnaire_throws_iff (parsed : Json) :
  (validatedKeyQuestionnaire parsed = None
   <-> truthyJson parsed = true
       /\ exists items, getProp parsed "keyQuestionnaire" = Some (Some (JArray items))
                         /\ In JNull items)
  /\ (validatedKeyQuestionnaire parsed = Some None <-> truthyJson parsed = false).
Proof.
  unfold validatedKeyQuestionnaire.
  destruct (truthyJson parsed) eqn:T.
  2: { split; split; try discriminate; try reflexivity. intros [H _]. discriminate H. }
  destruct (getProp parsed "keyQuestionnaire") as [[v|]|] eqn:E.
  - destruct v;
      try (split; split; try discriminate; intros (_ & items & H & _); discriminate H).
    destruct (mapOrThrow questionnaireItem items) as [mapped|] eqn:Em.
    + split; split; try discriminate. intros (_ & items' & H & Hin). injection H as <-.
      assert (Hn : mapOrThrow questionnaireItem items = None).
      { apply mapOrThrow_None. exists JNull. split; [exact Hin | reflexivity]. }
      congruence.
    + split; split; try discriminate; try (intros _; reflexivity).
      intros _. split; [reflexivity|].
      exists items. split; [reflexivity|].
      apply mapOrThrow_None in Em as (a & Ha & Hn).
      apply questionnaireItem_None in Hn. now subst a.
  - split; split; try discriminate;
      try (intros (_ & items & H & _); discriminate H).
  - destruct parsed; simpl in E; discriminate.
Qed.

End ServiceFacts.

(** * Properties of the plans the interview starts from *)

Module PlanFacts.
Import GenerationFacts.

Lemma scanThemes_fresh (kq : list KeyQuestionnaireItem.t) :
  scanThemes [] kq = None
  <-> forallb (fun theme => (length (KeyQuestionnaireItem.questions theme) =? 0)%nat) kq
      = true.
Proof.
  induction kq as [|theme kq IH]; simpl; [tauto|].
  destruct (KeyQuestionnaireItem.questions theme) as [|q rest]; simpl.
  - exact IH.
  - split; discriminate.
Qed.

Lemma scanThemes_fresh_first (kq : list KeyQuestionnaireItem.t) (p : PlannedQuestion.t) :
  scanThemes [] kq = Some p ->
  exists theme, In theme kq
    /\ PlannedQuestion.theme p = KeyQuestionnaireItem.theme theme
    /\ In (PlannedQuestion.question p) (KeyQuestionnaireItem.questions theme).
Proof.
  induction kq as [|theme kq IH]; simpl; [discriminate|].
  destruct (KeyQuestionnaireItem.questions theme) as [|q rest] eqn:E; simpl.
  - intros H. destruct (IH H) as (th & Hin & Ht & Hq). exists th. auto.
  - intros H. injection H as <-. exists theme. rewrite E. simpl. auto.
Qed.

Lemma admitted_iff (s : App.State) :
  App.error (App.startInterviewProcess s) = None
  /\ App.currentStep (App.startInterviewProcess s) = INTERVIEW_PREPARATION
  <-> exists plan, App.researchPlan s = Some plan
                   /\ scanThemes [] (ResearchPlan.keyQuestionnaire plan) <> None.
Proof.
  unfold App.startInterviewProcess.
  destruct (App.researchPlan s) as [plan|].
  - destruct (ResearchPlan.keyQuestionnaire plan) as [|theme kq] eqn:E.
    + simpl. split; [intros [H _]; discriminate H|].
      intros (plan' & H & Hn). injection H as <-. rewrite E in Hn. now elim Hn.
    + cbn [length Nat.eqb orb].
      destruct (forallb _ (theme :: kq)) eqn:F.
      * simpl. split; [intros [H _]; discriminate H|].
        intros (plan' & H & Hn). injection H as <-. rewrite E in Hn.
        apply scanThemes_fresh in F. contradiction.
      * simpl. split; [|now split]. intros _. exists plan. split; [reflexivity|].
        rewrite E. intros Hn. apply scanThemes_fresh in Hn. congruence.
  - simpl. split; [intros [H _]; discriminate H | intros (plan & H & _); discriminate H].
Qed.

(** X4: for every plan none of whose questions is the empty string, and every
    transcript, the next planned question that [generateFollowUpQuestion]
    computes is the first planned question, themes and questions in declared
    order, whose exact text appears in no AGENT turn. *)
Theorem plan_without_empty_question_meets_spec (researchPlan : ResearchPlan.t)
  (t : Transcript) :
  (forall p, In p (plannedQuestions researchPlan) -> PlannedQuestion.question p <> "") ->
  nextPlannedQuestion researchPlan t = spec_nextPlannedQuestion researchPlan t.
Proof.
  intros Hplan.
  unfold nextPlannedQuestion, spec_nextPlannedQuestion.
  rewrite scanThemes_find. fold (plannedQuestions researchPlan).
  apply find_ext_in. intros p Hp.
  rewrite includesQuestion_asked. unfold appearsAsSpokenAgentTurn, truthy.
  apply Hplan in Hp. apply String.eqb_neq in Hp. rewrite Hp.
  now rewrite andb_true_r.
Qed.

Lemma plan_without_empty_question_meets_spec_witness :
  (forall p, In p (plannedQuestions onboardingPlan) -> PlannedQuestion.question p <> "")
  /\ nextPlannedQuestion onboardingPlan [emptyAgentTurn]
     = spec_nextPlannedQuestion onboardingPlan [emptyAgentTurn].
Proof.
  assert (H : forall p, In p (plannedQuestions onboardingPlan) ->
                        PlannedQuestion.question p <> "").
  { intros p [<-|[]]. simpl. discriminate. }
  split; [exact H|].
  exact (plan_without_empty_question_meets_spec onboardingPlan [emptyAgentTurn] H).
Defined.

(** X5: [startInterviewProcess] moves on to the interview preparation, with
    the error cleared, exactly when a plan is present for which the first
    request of the interview (empty transcript) finds a planned question.
    Otherwise it stays on the step it was called in and leaves an error: that
    the plan is missing, or that the plan has no questions. The plan is never
    touched. *)
Theorem startInterviewProcess_admits_iff_first_question (s : App.State) :
  let s' := App.startInterviewProcess s in
  ((App.error s' = None /\ App.currentStep s' = INTERVIEW_PREPARATION)
   <-> exists plan, App.researchPlan s = Some plan
                    /\ nextPlannedQuestion plan [] <> None)
  /\ ((App.error s' = None /\ App.currentStep s' = INTERVIEW_PREPARATION)
      \/ (App.currentStep s' = App.currentStep s
          /\ App.error s'
             = Some match App.researchPlan s with
                    | None => "Research plan is missing. Cannot start interview."
                    | Some _ =>
                        "Research plan has no questions. Please edit the plan to add questions before starting the interview."
                    end))
  /\ App.researchPlan s' = App.researchPlan s.
Proof.
  cbn zeta. split; [|split].
  - unfold nextPlannedQuestion. simpl askedQuestionsInTranscript.
    split.
    + intros H. apply admitted_iff in H as (plan & Hp & Hq). now exists plan.
    + intros (plan & Hp & Hq). apply admitted_iff. now exists plan.
  - unfold App.startInterviewProcess.
    destruct (App.researchPlan s) as [plan|]; [|right; split; reflexivity].
    destruct ((length (ResearchPlan.keyQuestionnaire plan) =? 0)%nat
              || forallb _ (ResearchPlan.keyQuestionnaire plan));
      [right | left]; split; reflexivity.
  - unfold App.startInterviewProcess.
    destruct (App.researchPlan s) as [plan|] eqn:E; [|now rewrite <- E].
    destruct ((length (ResearchPlan.keyQuestionnaire plan) =? 0)%nat
              || forallb _ (ResearchPlan.keyQuestionnaire plan));
      now rewrite <- E.
Qed.

(** X6: a plan whose questionnaire came out of [generateResearchPlan] is
    always admitted by [startInterviewProcess], whatever the step and the
    error shown before. The first request of the interview then finds a
    planned question that is not blank, and whenever the model's answer to
    that request cannot be had (the remote call fails, or the reply does not
    parse) the interview opens on that question: it is the first AGENT turn
    and the current question, under its planned theme, and the screen goes on
    to ask it instead of concluding. *)
Theorem generated_plan_is_admitted (parsed : Json) (plan : ResearchPlan.t)
  (s : App.State) (lang : LanguageCode) :
  validatedKeyQuestionnaire parsed = Some (Some (ResearchPlan.keyQuestionnaire plan)) ->
  App.researchPlan s = Some plan ->
  App.startInterviewProcess s = App.mkState INTERVIEW_PREPARATION (Some plan) None
  /\ exists p,
       nextPlannedQuestion plan [] = Some p
       /\ trim (PlannedQuestion.question p) <> ""
       /\ forall service,
            service = GenerateContentFails \/ service = ResponseText None ->
            let opening :=
              AIQuestionResponse.mk (PlannedQuestion.question p)
                                    (PlannedQuestion.theme p) false false in
            let s1 :=
              InterviewScreen.step plan lang InterviewScreen.mounted
                (InterviewScreen.QuestionArrives service) in
            InterviewScreen.transcript s1 = [InterviewScreen.aiItem opening]
            /\ InterviewScreen.currentAIQuestion s1 = Some opening
            /\ InterviewScreen.interviewStage s1 = asking
            /\ InterviewScreen.errors s1 = [].
Proof.
  intros Hv Hs.
  destruct (ServiceFacts.validatedKeyQuestionnaire_wellFormed parsed _ Hv) as [Hne Hall].
  assert (Hq : exists p, scanThemes [] (ResearchPlan.keyQuestionnaire plan) = Some p).
  { destruct (ResearchPlan.keyQuestionnaire plan) as [|theme kq]; [contradiction|].
    inversion Hall as [|? ? [Hth _] _]; subst. simpl.
    destruct (KeyQuestionnaireItem.questions theme) as [|q rest]; [contradiction|].
    simpl. eauto. }
  destruct Hq as [p Hp]. split.
  - unfold App.startInterviewProcess. rewrite Hs.
    assert (F : forallb (fun theme =>
                           (length (KeyQuestionnaireItem.questions theme) =? 0)%nat)
                        (ResearchPlan.keyQuestionnaire plan) = false).
    { destruct (forallb _ _) eqn:F; [|reflexivity].
      apply scanThemes_fresh in F. congruence. }
    rewrite F.
    destruct (ResearchPlan.keyQuestionnaire plan); [contradiction|].
    unfold App.setCurrentStep, App.setError. simpl. now rewrite Hs.
  - exists p.
    assert (Hnb : trim (PlannedQuestion.question p) <> "").
    { destruct (scanThemes_fresh_first _ p Hp) as (theme & Hin & _ & Hq).
      rewrite Forall_forall in Hall. destruct (Hall theme Hin) as [_ Hb].
      rewrite Forall_forall in Hb. now apply Hb. }
    refine (conj Hp (conj Hnb _)).
    assert (Hq0 : (PlannedQuestion.question p =? "") = false).
    { apply String.eqb_neq. intros E. apply Hnb. now rewrite E. }
    intros service Hservice. cbn zeta.
    unfold InterviewScreen.step, InterviewScreen.questionArrives.
    cbn [InterviewScreen.outcome InterviewScreen.request InterviewScreen.mounted
         InterviewScreen.mountEffect InterviewScreen.initialState].
    change (InterviewScreen.outcome InterviewScreen.mounted) with (@None Outcome).
    change (InterviewScreen.request InterviewScreen.mounted)
      with (Some (@nil InterviewTranscriptItem.t)).
    unfold generateFollowUpQuestion, nextPlannedQuestion.
    cbn [askedQuestionsInTranscript filter map]. rewrite Hp.
    destruct Hservice as [-> | ->].
    + unfold callFailureFallback. repeat split.
    + unfold concludeOrRepair, unparsedFallback.
      cbn [AIQuestionResponse.isEndOfInterview AIQuestionResponse.nextQuestionText
           andb].
      rewrite Hq0. repeat split.
Qed.

Lemma generated_plan_is_admitted_witness :
  let s := App.mkState RESEARCH_PLAN_DISPLAY_EDIT (Some onboardingPlan)
             (Some "Research plan has no questions.") in
  validatedKeyQuestionnaire onboardingReply
  = Some (Some (ResearchPlan.keyQuestionnaire onboardingPlan))
  /\ App.startInterviewProcess s
     = App.mkState INTERVIEW_PREPARATION (Some onboardingPlan) None.
Proof.
  assert (H : validatedKeyQuestionnaire onboardingReply
              = Some (Some (ResearchPlan.keyQuestionnaire onboardingPlan)))
    by (vm_compute; reflexivity).
  split; [exact H|].
  exact (proj1 (generated_plan_is_admitted onboardingReply onboardingPlan
                  (App.mkState RESEARCH_PLAN_DISPLAY_EDIT (Some onboardingPlan)
                     (Some "Research plan has no questions."))
                  en_US H eq_refl)).
Defined.

(** X7: for a questionnaire that came out of [generateResearchPlan],
    [QuestionnaireDisplay] shows neither of its two notes: it renders one card
    per theme, in order, and every card lists all the questions of its
    theme. *)
Theorem generated_questionnaire_is_displayed (parsed : Json)
  (kq : list KeyQuestionnaireItem.t) :
  validatedKeyQuestionnaire parsed = Some (Some kq) ->
  exists cards,
    QuestionnaireDisplay.render (Some kq) = Some cards
    /\ map QuestionnaireDisplay.listed cards
       = map (fun item => Some (KeyQuestionnaireItem.questions item)) kq.
Proof.
  intros Hv.
  destruct (ServiceFacts.validatedKeyQuestionnaire_wellFormed parsed kq Hv) as [Hne Hall].
  unfold QuestionnaireDisplay.render.
  destruct kq as [|item kq]; [contradiction|]. cbn [length Nat.eqb].
  eexists. split; [reflexivity|].
  rewrite map_map. apply map_ext_in. intros x Hx. cbn.
  rewrite Forall_forall in Hall. destruct (Hall x Hx) as [Hq _].
  destruct (KeyQuestionnaireItem.questions x); [contradiction | reflexivity].
Qed.

Lemma generated_questionnaire_is_displayed_witness :
  validatedKeyQuestionnaire onboardingReply
  = Some (Some (ResearchPlan.keyQuestionnaire onboardingPlan))
  /\ exists cards,
       QuestionnaireDisplay.render (Some (ResearchPlan.keyQuestionnaire onboardingPlan))
       = Some cards
       /\ map QuestionnaireDisplay.listed cards
          = map (fun item => Some (KeyQuestionnaireItem.questions item))
                (ResearchPlan.keyQuestionnaire onboardingPlan).
Proof.
  assert (H : validatedKeyQuestionnaire onboardingReply
              = Some (Some (ResearchPlan.keyQuestionnaire onboardingPlan)))
    by (vm_compute; reflexivity).
  split; [exact H|].
  exact (generated_questionnaire_is_displayed onboardingReply _ H).
Defined.

End PlanFacts.

(** * Properties of reports, of the client and of the backend *)

Module ReportFacts.

Lemma normalizedOr_nonblank (v : option Json) (fallback : string) :
  trim fallback <> "" ->
  normalizedOr v fallback <> []
  /\ Forall (fun s => trim s <> "") (normalizedOr v fallback).
Proof.
  intros Hf. unfold normalizedOr.
  destruct (0 <? length (normalizeStringOrArray v))%nat eqn:E.
  - split; [|apply ServiceFacts.normalized_nonblank].
    apply Nat.ltb_lt in E. destruct (normalizeStringOrArray v); [simpl in E; lia | discriminate].
  - split; [discriminate|]. now repeat constructor.
Qed.

(** X8: when [generateResearchReport] returns a report, the executive
    summary is not blank, the key findings and the recommendations are not
    empty and hold no blank string, no theme consists of the two placeholder
    texts, and no quote is the placeholder quote. *)
Theorem validated_report_is_presentable (parsed : Json) (report : ResearchReport.t) :
  validatedReport parsed = Some (Some report) ->
  trim (ResearchReport.executiveSummary report) <> ""
  /\ ResearchReport.keyFindings report <> []
  /\ Forall (fun s => trim s <> "") (ResearchReport.keyFindings report)
  /\ ResearchReport.recommendations report <> []
  /\ Forall (fun s => trim s <> "") (ResearchReport.recommendations report)
  /\ Forall (fun item => ~ (IdentifiedTheme.theme item = "Untitled Theme"
                            /\ IdentifiedTheme.description item
                               = "No description provided."))
            (ResearchReport.identifiedThemes report)
  /\ Forall (fun item => IllustrativeQuote.quote item <> "No quote available.")
            (ResearchReport.illustrativeQuotes report).
Proof.
  unfold validatedReport.
  destruct (truthyJson parsed); [|discriminate].
  destruct (getProp parsed "executiveSummary") as [summary|]; [|discriminate].
  destruct (getProp parsed "keyFindings") as [findings|]; [|discriminate].
  destruct (getProp parsed "identifiedThemes") as [themes|]; [|discriminate].
  destruct (getProp parsed "illustrativeQuotes") as [quotes|]; [|discriminate].
  destruct (getProp parsed "recommendations") as [recommendations|]; [|discriminate].
  cbv zeta.
  match goal with
  | |- match ?T with _ => _ end = _ -> _ => destruct T as [ts|] eqn:Et; [|discriminate]
  end.
  match goal with
  | |- match ?Q with _ => _ end = _ -> _ => destruct Q as [qs|] eqn:Eq; [|discriminate]
  end.
  intros H. injection H as <-. simpl.
  assert (Hsum : trim "Executive summary not available." <> "") by (vm_compute; discriminate).
  destruct (normalizedOr_nonblank findings
              "No specific key findings were derived from the interview.")
    as [Hf1 Hf2]; [vm_compute; discriminate|].
  destruct (normalizedOr_nonblank recommendations
              "No specific recommendations were derived from the interview.")
    as [Hr1 Hr2]; [vm_compute; discriminate|].
  refine (conj _ (conj Hf1 (conj Hf2 (conj Hr1 (conj Hr2 (conj _ _)))))).
  - destruct summary as [[| | |s| |]|]; try exact Hsum.
    destruct (String.eqb_spec (trim s) "") as [E|E]; simpl; [exact Hsum | exact E].
  - destruct themes as [[| | | |items|]|];
      try (injection Et as <-; repeat constructor; intros [H _]; discriminate H).
    destruct (mapOrThrow reportTheme items) as [mapped|]; [|discriminate].
    simpl in Et. injection Et as <-.
    apply Forall_forall. intros item Hin. apply filter_In in Hin as [_ Hk].
    intros [H1 H2]. rewrite H1, H2 in Hk. discriminate Hk.
  - destruct quotes as [[| | | |items|]|];
      try (injection Eq as <-; repeat constructor; discriminate).
    destruct (mapOrThrow reportQuote items) as [mapped|]; [|discriminate].
    simpl in Eq. injection Eq as <-.
    apply Forall_forall. intros item Hin. apply filter_In in Hin as [_ Hk].
    intros H. rewrite H in Hk. discriminate Hk.
Qed.

Lemma validated_report_is_presentable_witness :
  validatedReport sparseReportReply = Some (Some sparseReport)
  /\ trim (ResearchReport.executiveSummary sparseReport) <> ""
  /\ ResearchReport.keyFindings sparseReport <> []
  /\ ResearchReport.recommendations sparseReport <> [].
Proof.
  assert (H : validatedReport sparseReportReply = Some (Some sparseReport))
    by (vm_compute; reflexivity).
  destruct (validated_report_is_presentable sparseReportReply sparseReport H)
    as (H1 & H2 & _ & H3 & _).
  exact (conj H (conj H1 (conj H2 H3))).
Defined.

End ReportFacts.

Module ClientFacts.
Import AiClient.

Lemma calls_cached_error (envKeys : list (option string)) (cache : Cache)
  (message : string) :
  clientInitializationError cache = Some message ->
  Forall (fun r => r = Rejected message) (calls envKeys cache).
Proof.
  revert cache. induction envKeys as [|e rest IH]; simpl; intros cache H; [constructor|].
  unfold getAiClient. rewrite H. simpl. constructor; [reflexivity|]. now apply IH.
Qed.

Lemma calls_cached_client (envKeys : list (option string)) (client : Client) :
  Forall (fun r => r = Resolved client) (calls envKeys (mkCache (Some client) None)).
Proof.
  induction envKeys as [|e rest IH]; simpl; constructor; [reflexivity | exact IH].
Qed.

(** X9: after [resetAiClientState], every call of [getAiClient] returns what
    the first call returned: the client made from the key the first call
    saw, or the failure of the first call, whatever the environment holds at
    the later calls. *)
Theorem getAiClient_answers_as_first_call (cache : Cache) (envKey : option string)
  (envKeys : list (option string)) :
  Forall (fun r => r = snd (getAiClient envKey empty))
         (calls (envKey :: envKeys) (resetAiClientState cache)).
Proof.
  unfold resetAiClientState. fold empty.
  cbn [calls]. constructor; [reflexivity|].
  unfold getAiClient. cbn [empty clientInitializationError aiClientInstance].
  destruct envKey as [key|]; [destruct (truthy key)|]; cbn [fst snd].
  - apply calls_cached_client.
  - now apply calls_cached_error.
  - now apply calls_cached_error.
Qed.

End ClientFacts.

Module BackendFacts.
Import Server.

Lemma LanguageCode_value_truthy (lang : LanguageCode) :
  truthyOpt (Some (LanguageCode_value lang)) = true.
Proof. now destruct lang. Qed.

(** X10: [transcribeAudio] against the [/transcribe-speech] handler, for an
    upload that arrives with its audio and its language: the promise
    resolves to the first alternatives of the recognition results joined by
    line feeds (the empty string when nothing was recognised), and rejects
    with the handler's message when reading the upload or the recognition
    fails or a result has no alternative. The status text is never used. *)
Theorem transcribeAudio_against_backend (audioBlob : Blob.t) (lang : LanguageCode)
  (typeErrorMessage statusText : string) (recognition : Recognition) :
  let failure (message : string) : Settled string :=
    Rejected ("Failed to transcribe audio: "
              ++ "Internal server error during transcription: " ++ message)%string in
  transcribeAudio (Some audioBlob) lang
    (asSttBackend
       (transcribeSpeech false (Some audioBlob) (Some (LanguageCode_value lang))
          typeErrorMessage recognition)
       statusText)
  = match recognition with
    | ReadFileThrows message | RecognizeThrows message => failure message
    | Recognized results =>
        match mapOrThrow firstTranscript results with
        | Some transcripts =>
            Resolved (String.concat (String (ascii_of_nat 10) "") transcripts)
        | None => failure typeErrorMessage
        end
    end.
Proof.
  intros failure. unfold transcribeSpeech.
  rewrite LanguageCode_value_truthy. cbn [negb].
  assert (Hfail : forall message,
             transcribeAudio (Some audioBlob) lang
               (asSttBackend
                  (mkResponse 500
                     (TextBody ("Internal server error during transcription: "
                                ++ message)%string))
                  statusText)
             = failure message).
  { intros message. reflexivity. }
  destruct recognition as [message|message|results]; try apply Hfail.
  destruct (mapOrThrow firstTranscript results) as [transcripts|]; [|apply Hfail].
  unfold asSttBackend. cbn.
  destruct (String.concat _ transcripts) as [|c r] eqn:E; reflexivity.
Qed.

(** X11: every request [synthesizeSpeech] sends passes the guard of the
    [/synthesize-speech] handler: whatever the speech API does, the handler
    does not answer that text and language are required. *)
Theorem synthesizeSpeech_request_passes_guard (text : string) (lang : LanguageCode)
  (backend : TtsBackend) (api : SpeechApi) :
  Forall (fun sent =>
            body (synthesizeSpeechEndpoint (Some (TtsRequest.text sent))
                    (Some (LanguageCode_value (TtsRequest.lang sent))) api)
            <> TextBody "Text and language are required.")
         (snd (synthesizeSpeech text lang backend)).
Proof.
  unfold synthesizeSpeech.
  destruct (truthy text) eqn:T; cbn [negb orb]; [|constructor].
  destruct (trim text =? "") eqn:B; cbn [snd]; constructor; [|constructor].
  cbn [TtsRequest.text TtsRequest.lang]. unfold synthesizeSpeechEndpoint.
  rewrite LanguageCode_value_truthy. cbn [truthyOpt]. rewrite T. cbn [negb orb].
  destruct api as [|apiStatus errorText|[audio|]]; cbn; discriminate.
Qed.

End BackendFacts.

(** * Properties of the step indicator *)

Module IndicatorFacts.
Import StepIndicator.

Lemma AppStep_eqb_eq (a b : AppStep) : AppStep_eqb a b = true <-> a = b.
Proof.
  unfold AppStep_eqb. split.
  - intros H. apply Nat.eqb_eq in H. destruct a, b; simpl in H; congruence.
  - intros ->. apply Nat.eqb_refl.
Qed.

Lemma indexOf_range (steps : list AppStep) (step : AppStep) :
  indexOf steps step = (-1)%Z
  \/ (0 <= indexOf steps step < Z.of_nat (length steps))%Z.
Proof.
  induction steps as [|x rest IH]; [now left|].
  cbn [indexOf length]. destruct (AppStep_eqb x step); [right; lia|].
  destruct (Z.eqb_spec (indexOf rest step) (-1)); [now left|].
  right. destruct IH as [IH|IH]; [contradiction | lia].
Qed.

Lemma indexOf_In (steps : list AppStep) (step : AppStep) :
  indexOf steps step <> (-1)%Z <-> In step steps.
Proof.
  induction steps as [|x rest IH]; cbn [indexOf In]; [tauto|].
  destruct (AppStep_eqb x step) eqn:E.
  - apply AppStep_eqb_eq in E. split; [now left | lia].
  - destruct (Z.eqb_spec (indexOf rest step) (-1)) as [Hi|Hi].
    + split; [congruence|]. intros [Hx|Hin].
      * apply AppStep_eqb_eq in Hx. congruence.
      * apply IH in Hin. contradiction.
    + split; [intros _; right; now apply IH|].
      intros _. destruct (indexOf_range rest step); lia.
Qed.

Lemma indexOf_at (steps : list AppStep) (step : AppStep) :
  indexOf steps step <> (-1)%Z -> at_ steps (indexOf steps step) = Some step.
Proof.
  unfold at_. induction steps as [|x rest IH]; cbn [indexOf]; [congruence|].
  destruct (AppStep_eqb x step) eqn:E.
  - intros _. apply AppStep_eqb_eq in E. now subst.
  - destruct (Z.eqb_spec (indexOf rest step) (-1)) as [Hi|Hi]; [congruence|].
    intros _. specialize (IH Hi).
    destruct (indexOf_range rest step) as [Hr|Hr]; [contradiction|].
    destruct (Z.ltb_spec (indexOf rest step) 0); [lia|].
    destruct (Z.ltb_spec (indexOf rest step + 1) 0); [lia|].
    replace (Z.to_nat (indexOf rest step + 1)) with (S (Z.to_nat (indexOf rest step)))
      by lia.
    exact IH.
Qed.

Lemma firstDisplayable_range (displayableSteps candidates : list AppStep) (i : Z) :
  firstDisplayable displayableSteps candidates = Some i ->
  (0 <= i < Z.of_nat (length displayableSteps))%Z.
Proof.
  induction candidates as [|c rest IH]; cbn [firstDisplayable]; [discriminate|].
  destruct (Z.eqb_spec (indexOf displayableSteps c) (-1)) as [E|E]; cbn [negb].
  - exact IH.
  - intros H. injection H as <-.
    destruct (indexOf_range displayableSteps c); [contradiction | assumption].
Qed.

Lemma firstDisplayable_some (displayableSteps candidates : list AppStep) (i : Z) :
  firstDisplayable displayableSteps candidates = Some i ->
  exists x, In x candidates /\ In x displayableSteps
            /\ i = indexOf displayableSteps x.
Proof.
  induction candidates as [|c rest IH]; cbn [firstDisplayable]; [discriminate|].
  destruct (Z.eqb_spec (indexOf displayableSteps c) (-1)) as [E|E]; cbn [negb].
  - intros H. destruct (IH H) as (x & Hx & Hd & Hi). exists x. split; [now right | auto].
  - intros H. injection H as <-. exists c. split; [now left|].
    split; [now apply indexOf_In | reflexivity].
Qed.

Lemma firstDisplayable_none_inv (displayableSteps candidates : list AppStep) :
  firstDisplayable displayableSteps candidates = None ->
  forall x, In x candidates -> ~ In x displayableSteps.
Proof.
  induction candidates as [|c rest IH]; cbn [firstDisplayable]; intros H x Hx; [elim Hx|].
  destruct (Z.eqb_spec (indexOf displayableSteps c) (-1)) as [E|E]; cbn [negb] in H;
    [|discriminate H].
  destruct Hx as [<-|Hx]; [|now apply IH].
  intros Hin. apply indexOf_In in Hin. contradiction.
Qed.

Lemma skipn_at (steps : list AppStep) (n : nat) (step : AppStep) :
  nth_error steps n = Some step -> skipn n steps = step :: skipn (S n) steps.
Proof.
  revert n. induction steps as [|x rest IH]; intros [|n]; simpl; try discriminate.
  - intros H. now injection H as <-.
  - intros H. now apply IH.
Qed.

Lemma around_current (steps : list AppStep) (currentStep x : AppStep) :
  indexOf steps currentStep <> (-1)%Z ->
  In x steps ->
  x = currentStep
  \/ In x (firstn (Z.to_nat (indexOf steps currentStep)) steps)
  \/ In x (skipn (Z.to_nat (indexOf steps currentStep + 1)) steps).
Proof.
  intros Hi Hx.
  pose proof (indexOf_at steps currentStep Hi) as Hat. unfold at_ in Hat.
  destruct (indexOf_range steps currentStep) as [Hr|Hr]; [contradiction|].
  destruct (Z.ltb_spec (indexOf steps currentStep) 0); [lia|].
  replace (Z.to_nat (indexOf steps currentStep + 1))
    with (S (Z.to_nat (indexOf steps currentStep))) by lia.
  rewrite <- (firstn_skipn (Z.to_nat (indexOf steps currentStep)) steps) in Hx.
  rewrite (skipn_at _ _ _ Hat) in Hx.
  apply in_app_or in Hx as [Hx|[Hx|Hx]]; auto.
Qed.

Lemma in_skipn (n : nat) (steps : list AppStep) (x : AppStep) :
  In x (skipn n steps) -> In x steps.
Proof. intros H. rewrite <- (firstn_skipn n steps). apply in_or_app. now right. Qed.

Lemma in_firstn (n : nat) (steps : list AppStep) (x : AppStep) :
  In x (firstn n steps) -> In x steps.
Proof. intros H. rewrite <- (firstn_skipn n steps). apply in_or_app. now left. Qed.

(** X12: with at least one displayable step, the display index that
    [getEffectiveDisplayIndex] returns is a position of [displayableSteps],
    whatever the current step and the logical order are. *)
Theorem display_index_in_range (currentStep : AppStep)
  (allAppStepsOrdered displayableSteps : list AppStep) :
  displayableSteps <> [] ->
  (0 <= getEffectiveDisplayIndex currentStep allAppStepsOrdered displayableSteps
   < Z.of_nat (length displayableSteps))%Z.
Proof.
  intros Hne.
  assert (Hlen : (0 < Z.of_nat (length displayableSteps))%Z).
  { destruct displayableSteps; [contradiction | simpl; lia]. }
  unfold getEffectiveDisplayIndex. cbv zeta.
  destruct (Z.eqb_spec (indexOf displayableSteps currentStep) (-1)) as [E|E]; cbn [negb].
  2: { destruct (indexOf_range displayableSteps currentStep); [contradiction | assumption]. }
  destruct (Z.eqb_spec (indexOf allAppStepsOrdered currentStep) (-1)); [lia|].
  destruct (firstDisplayable displayableSteps (skipn _ _)) as [i|] eqn:F1.
  { now apply firstDisplayable_range in F1. }
  destruct (firstDisplayable displayableSteps (rev _)) as [i|] eqn:F2.
  { now apply firstDisplayable_range in F2. }
  destruct (_ >=? _)%Z; lia.
Qed.

Lemma display_index_in_range_witness :
  App.DISPLAYABLE_STEPS_FOR_INDICATOR <> []
  /\ (0 <= getEffectiveDisplayIndex REPORT_GENERATING App.ALL_APP_STEPS_ORDERED
             App.DISPLAYABLE_STEPS_FOR_INDICATOR
      < Z.of_nat (length App.DISPLAYABLE_STEPS_FOR_INDICATOR))%Z.
Proof.
  assert (H : App.DISPLAYABLE_STEPS_FOR_INDICATOR <> []) by discriminate.
  split; [exact H|].
  exact (display_index_in_range REPORT_GENERATING App.ALL_APP_STEPS_ORDERED
           App.DISPLAYABLE_STEPS_FOR_INDICATOR H).
Defined.

(** X13: for a current step that is displayable, the step at the returned
    display index is the current step itself. *)
Theorem displayable_step_marks_itself (currentStep : AppStep)
  (allAppStepsOrdered displayableSteps : list AppStep) :
  In currentStep displayableSteps ->
  at_ displayableSteps
      (getEffectiveDisplayIndex currentStep allAppStepsOrdered displayableSteps)
  = Some currentStep.
Proof.
  intros Hin. apply indexOf_In in Hin.
  unfold getEffectiveDisplayIndex. cbv zeta.
  destruct (Z.eqb_spec (indexOf displayableSteps currentStep) (-1)) as [E|E];
    [contradiction|].
  cbn [negb]. now apply indexOf_at.
Qed.

Lemma displayable_step_marks_itself_witness :
  In INTERVIEW_SESSION App.DISPLAYABLE_STEPS_FOR_INDICATOR
  /\ at_ App.DISPLAYABLE_STEPS_FOR_INDICATOR
         (getEffectiveDisplayIndex INTERVIEW_SESSION App.ALL_APP_STEPS_ORDERED
            App.DISPLAYABLE_STEPS_FOR_INDICATOR)
     = Some INTERVIEW_SESSION.
Proof.
  assert (H : In INTERVIEW_SESSION App.DISPLAYABLE_STEPS_FOR_INDICATOR).
  { simpl. tauto. }
  split; [exact H|].
  exact (displayable_step_marks_itself INTERVIEW_SESSION App.ALL_APP_STEPS_ORDERED
           App.DISPLAYABLE_STEPS_FOR_INDICATOR H).
Defined.

(** X14: the last [return 0] of [getEffectiveDisplayIndex] is never reached:
    for a current step of the logical order that is not displayable, the
    result is the display index of a displayable step of the logical order
    or, when the logical order has no displayable step, the last display
    index, which is [-1] for an empty list of displayable steps. *)
Theorem transient_step_never_falls_through (currentStep : AppStep)
  (allAppStepsOrdered displayableSteps : list AppStep) :
  In currentStep allAppStepsOrdered ->
  ~ In currentStep displayableSteps ->
  let shown :=
    getEffectiveDisplayIndex currentStep allAppStepsOrdered displayableSteps in
  (exists x, In x allAppStepsOrdered /\ In x displayableSteps
             /\ shown = indexOf displayableSteps x)
  \/ ((forall x, In x allAppStepsOrdered -> ~ In x displayableSteps)
      /\ shown = (Z.of_nat (length displayableSteps) - 1)%Z).
Proof.
  intros Hcur Hnot shown. subst shown.
  unfold getEffectiveDisplayIndex. cbv zeta.
  destruct (Z.eqb_spec (indexOf displayableSteps currentStep) (-1)) as [E|E]; cbn [negb].
  2: { apply indexOf_In in E. contradiction. }
  pose proof Hcur as Hlog. apply indexOf_In in Hlog.
  destruct (Z.eqb_spec (indexOf allAppStepsOrdered currentStep) (-1)); [contradiction|].
  destruct (firstDisplayable displayableSteps (skipn _ _)) as [i|] eqn:F1.
  { left. apply firstDisplayable_some in F1 as (x & Hx & Hd & Hi).
    exists x. split; [eapply in_skipn; exact Hx | auto]. }
  destruct (firstDisplayable displayableSteps (rev _)) as [i|] eqn:F2.
  { left. apply firstDisplayable_some in F2 as (x & Hx & Hd & Hi).
    exists x. split; [apply in_rev in Hx; eapply in_firstn; exact Hx | auto]. }
  right.
  assert (Hnone : forall x, In x allAppStepsOrdered -> ~ In x displayableSteps).
  { intros x Hx.
    destruct (around_current allAppStepsOrdered currentStep x Hlog Hx) as [->|[H|H]].
    - exact Hnot.
    - apply (firstDisplayable_none_inv _ _ F2). now apply in_rev in H.
    - now apply (firstDisplayable_none_inv _ _ F1). }
  split; [exact Hnone|].
  assert (Hlast : indexOfOpt allAppStepsOrdered
                    (at_ displayableSteps (Z.of_nat (length displayableSteps) - 1))
                  = (-1)%Z).
  { unfold at_. destruct (Z.ltb_spec (Z.of_nat (length displayableSteps) - 1) 0);
      [reflexivity|].
    destruct (nth_error displayableSteps _) as [x|] eqn:N; [|reflexivity].
    apply nth_error_In in N. simpl.
    destruct (Z.eqb_spec (indexOf allAppStepsOrdered x) (-1)) as [Hx|Hx]; [exact Hx|].
    apply indexOf_In in Hx. elim (Hnone x Hx N). }
  rewrite Hlast.
  destruct (indexOf_range allAppStepsOrdered currentStep) as [Hr|Hr]; [contradiction|].
  destruct (Z.geb_spec (indexOf allAppStepsOrdered currentStep) (-1)); [reflexivity | lia].
Qed.

Lemma transient_step_never_falls_through_witness :
  let shown :=
    getEffectiveDisplayIndex REPORT_GENERATING App.ALL_APP_STEPS_ORDERED
      App.DISPLAYABLE_STEPS_FOR_INDICATOR in
  In REPORT_GENERATING App.ALL_APP_STEPS_ORDERED
  /\ ~ In REPORT_GENERATING App.DISPLAYABLE_STEPS_FOR_INDICATOR
  /\ ((exists x, In x App.ALL_APP_STEPS_ORDERED
                 /\ In x App.DISPLAYABLE_STEPS_FOR_INDICATOR
                 /\ shown = indexOf App.DISPLAYABLE_STEPS_FOR_INDICATOR x)
      \/ ((forall x, In x App.ALL_APP_STEPS_ORDERED ->
                     ~ In x App.DISPLAYABLE_STEPS_FOR_INDICATOR)
          /\ shown = (Z.of_nat (length App.DISPLAYABLE_STEPS_FOR_INDICATOR) - 1)%Z)).
Proof.
  assert (H1 : In REPORT_GENERATING App.ALL_APP_STEPS_ORDERED) by (simpl; tauto).
  assert (H2 : ~ In REPORT_GENERATING App.DISPLAYABLE_STEPS_FOR_INDICATOR).
  { simpl. intuition discriminate. }
  refine (conj H1 (conj H2 _)).
  exact (transient_step_never_falls_through REPORT_GENERATING
           App.ALL_APP_STEPS_ORDERED App.DISPLAYABLE_STEPS_FOR_INDICATOR H1 H2).
Defined.

(** X15: with the two step lists of [App.tsx], the display index never
    decreases along the logical order of the steps, and every step for which
    the indicator is shown and that the logical order holds is marked as
    itself. *)
Theorem app_indicator_follows_the_flow (a b : AppStep) :
  let idx (step : AppStep) :=
    getEffectiveDisplayIndex step App.ALL_APP_STEPS_ORDERED
      App.DISPLAYABLE_STEPS_FOR_INDICATOR in
  In a App.ALL_APP_STEPS_ORDERED ->
  (indexOf App.ALL_APP_STEPS_ORDERED a <= indexOf App.ALL_APP_STEPS_ORDERED b)%Z ->
  (idx a <= idx b)%Z
  /\ (App.showStepIndicator a = true ->
      at_ App.DISPLAYABLE_STEPS_FOR_INDICATOR (idx a) = Some a).
Proof.
  intros idx Ha Hab. subst idx. cbv beta.
  destruct a; try (exfalso; simpl in Ha; intuition discriminate); clear Ha;
    destruct b; vm_compute in Hab; try (elim Hab; reflexivity); clear Hab;
    (split; [vm_compute; discriminate | vm_compute; congruence]).
Qed.

Lemma app_indicator_follows_the_flow_witness :
  In RESEARCH_PLAN_GENERATING App.ALL_APP_STEPS_ORDERED
  /\ (indexOf App.ALL_APP_STEPS_ORDERED RESEARCH_PLAN_GENERATING
      <= indexOf App.ALL_APP_STEPS_ORDERED INTERVIEW_SESSION)%Z
  /\ (getEffectiveDisplayIndex RESEARCH_PLAN_GENERATING App.ALL_APP_STEPS_ORDERED
        App.DISPLAYABLE_STEPS_FOR_INDICATOR
      <= getEffectiveDisplayIndex INTERVIEW_SESSION App.ALL_APP_STEPS_ORDERED
           App.DISPLAYABLE_STEPS_FOR_INDICATOR)%Z.
Proof.
  assert (H1 : In RESEARCH_PLAN_GENERATING App.ALL_APP_STEPS_ORDERED)
    by (simpl; tauto).
  assert (H2 : (indexOf App.ALL_APP_STEPS_ORDERED RESEARCH_PLAN_GENERATING
                <= indexOf App.ALL_APP_STEPS_ORDERED INTERVIEW_SESSION)%Z)
    by (vm_compute; discriminate).
  refine (conj H1 (conj H2 _)).
  exact (proj1 (app_indicator_follows_the_flow RESEARCH_PLAN_GENERATING
                  INTERVIEW_SESSION H1 H2)).
Defined.

End IndicatorFacts.

(** * Properties of all sessions *)

Module SessionFacts.
Import InterviewScreen.
Import Sessions.

Create HintDb sessions.
#[local] Hint Unfold speakText stopListening startListening startFallbackRecording
  handleCompleteInterview speakEffect speechSettles finishTimer finishedEffect
  recognitionResult recognitionError recognitionEnd recorderStops
  transcriptionSettles onError handleSubmitResponse submitTimerFires
  fetchAndProcessNextQuestion questionArrives : sessions.

Ltac unfold_handlers := repeat autounfold with sessions.

Ltac split_match :=
  match goal with
  | |- context [match ?x with _ => _ end] => destruct x eqn:?
  end.

Lemma lastAgentTurn_snoc (t : Transcript) (x : InterviewTranscriptItem.t) :
  lastAgentTurn (t ++ [x]) = if isAgentTurn x then Some x else lastAgentTurn t.
Proof.
  induction t as [|y t IH]; simpl; [now destruct (isAgentTurn x)|].
  rewrite IH. destruct (isAgentTurn x); [reflexivity|].
  reflexivity.
Qed.

Lemma filedFrom_snoc (current : option string) (t : Transcript)
  (x : InterviewTranscriptItem.t) :
  filedFrom current (t ++ [x])
  = filedFrom current t
    && (isAgentTurn x
        || optionString_eqb (InterviewTranscriptItem.theme x)
             match lastAgentTurn t with
             | Some a => InterviewTranscriptItem.theme a
             | None => current
             end).
Proof.
  revert current. induction t as [|y t IH]; intros current; simpl.
  - destruct (isAgentTurn x); simpl; [reflexivity|]. now rewrite andb_true_r.
  - destruct (isAgentTurn y) eqn:Ey.
    + rewrite IH. destruct (lastAgentTurn t); reflexivity.
    + rewrite IH. destruct (lastAgentTurn t); now rewrite andb_assoc.
Qed.

Lemma optionString_eqb_refl (a : option string) : optionString_eqb a a = true.
Proof. destruct a; simpl; [apply String.eqb_refl | reflexivity]. Qed.

Lemma countSpeaker_updated (t : Transcript) (userAnswer : option string)
  (q : option AIQuestionResponse.t) :
  countSpeaker AI (updatedTranscriptWithUserAnswer t userAnswer q) = countSpeaker AI t.
Proof.
  unfold updatedTranscriptWithUserAnswer.
  repeat split_match; try reflexivity;
    rewrite ScreenFacts.countSpeaker_snoc; simpl; lia.
Qed.

Lemma updated_shape (t : Transcript) (userAnswer : option string)
  (q : option AIQuestionResponse.t) :
  updatedTranscriptWithUserAnswer t userAnswer q = t
  \/ exists answer,
       updatedTranscriptWithUserAnswer t userAnswer q
       = t ++ [userItem answer (option_map AIQuestionResponse.theme q)]
       /\ answer <> "" /\ trim answer = answer.
Proof.
  unfold updatedTranscriptWithUserAnswer.
  destruct userAnswer as [a|]; [|now left].
  destruct (truthy (trim a)) eqn:T.
  - right. exists (trim a). split; [reflexivity|]. split.
    + unfold truthy in T. apply negb_true_iff in T. now apply String.eqb_neq.
    + apply ServiceFacts.trim_idempotent.
  - destruct (negb (themeIsConclusion q)); [|now left].
    right. exists "No response provided.". split; [reflexivity|].
    split; [discriminate | reflexivity].
Qed.

Lemma wellAnswered_userItem (answer : string) (theme : option string) :
  answer <> "" -> trim answer = answer -> wellAnswered (userItem answer theme) = true.
Proof.
  intros Hne Htrim. unfold wellAnswered. simpl.
  apply String.eqb_neq in Hne. rewrite Hne, Htrim, String.eqb_refl. reflexivity.
Qed.

Section AllRuns.

Variable plan : ResearchPlan.t.
Variable lang : LanguageCode.

Lemma accounted_mounted : accounted mounted.
Proof.
  split; [apply ScreenFacts.consistent_mounted|].
  cbn. repeat split. intros c H. discriminate H.
Qed.

Lemma accounted_step (s : State) (e : Event) :
  accounted s -> accounted (step plan lang s e).
Proof.
  intros Hacc.
  destruct (outcome s) as [o|] eqn:Ho.
  { now rewrite (ScreenFacts.step_unmounted plan lang s e o Ho). }
  pose proof Hacc as (Hcons & Hcount & Hlast & Hcur & Hans & Hfiled).
  split; [now apply ScreenFacts.consistent_step|].
  destruct Hcons as [Hreq Hfresh].
  destruct (quiet e) eqn:Hq.
  - destruct (ScreenFacts.quiet_frame plan lang s e Hq) as (Ht & Hf & Hd & _ & Hl & Hc).
    rewrite Ht, Hf, Hd, Hl, Hc. now repeat split.
  - unfold step. rewrite Ho.
    destruct e; try discriminate Hq; clear Hq.
    + (* ClickSubmit *)
      destruct (ScreenFacts.handleSubmitResponse_frame s)
        as (Ht & Hf & _ & Hl & Hc & _).
      rewrite Ht, Hf, Hl, Hc.
      refine (conj Hcount (conj Hlast (conj _ (conj Hans Hfiled)))).
      intros c Hsome Hcf.
      apply ScreenFacts.handleSubmitResponse_pending in Hsome as [Hsome|(_ & -> & _)].
      * exact (Hcur c Hsome Hcf).
      * reflexivity.
    + (* SubmitTimerFires *)
      destruct (submitDebounceRef s) as [c|] eqn:Hc.
      2: { unfold submitTimerFires. rewrite Hc. exact (proj2 Hacc). }
      destruct (ScreenFacts.submitTimerFires_spec s c Hc) as (Hd & Hq & _ & Hcase).
      rewrite Hd, Hq.
      destruct (FetchClosure.isFetchingQuestion c) eqn:Hcf.
      * destruct Hcase as (-> & -> & _ & -> & _).
        refine (conj Hcount (conj Hlast (conj _ (conj Hans Hfiled)))).
        intros c' H'. discriminate H'.
      * destruct Hcase as (-> & -> & _ & -> & _).
        destruct (Hfresh c eq_refl Hcf) as [Hnf Hct].
        specialize (Hcur c eq_refl Hcf).
        rewrite Hnf in Hcount. rewrite Hct, Hcur.
        rewrite countSpeaker_updated, length_app. cbn [length].
        refine (conj _ (conj _ (conj _ _))).
        -- lia.
        -- destruct (updated_shape (transcript s)
                       (Some (FetchClosure.currentUserResponse c)) (currentAIQuestion s))
             as [->|(answer & -> & _)]; [exact Hlast|].
           rewrite lastAgentTurn_snoc. exact Hlast.
        -- intros c' H'. discriminate H'.
        -- destruct (updated_shape (transcript s)
                       (Some (FetchClosure.currentUserResponse c)) (currentAIQuestion s))
             as [->|(answer & -> & Hne & Htrim)]; [now split|].
           split.
           ++ rewrite forallb_app, Hans. simpl.
              now rewrite (wellAnswered_userItem answer _ Hne Htrim).
           ++ rewrite filedFrom_snoc, Hfiled, Hlast. simpl.
              destruct (currentAIQuestion s); simpl; [apply String.eqb_refl | reflexivity].
    + (* QuestionArrives *)
      destruct (request s) as [sent|] eqn:Hs.
      2: { unfold questionArrives. rewrite Hs. exact (proj2 Hacc). }
      destruct (ScreenFacts.questionArrives_spec plan lang s sent service Hs)
        as (Ht & Hq & Hf & _ & Hl & Hd & _).
      rewrite Ht, Hq, Hf, Hl, Hd.
      simpl in Hreq. rewrite <- Hreq in Hcount.
      rewrite ScreenFacts.countSpeaker_snoc. simpl.
      refine (conj _ (conj _ (conj _ (conj _ _)))).
      * lia.
      * now rewrite lastAgentTurn_snoc.
      * intros c Hc Hcf. destruct (Hfresh c Hc Hcf) as [Hnf _]. congruence.
      * rewrite forallb_app, Hans. reflexivity.
      * rewrite filedFrom_snoc, Hfiled. reflexivity.
Qed.

Lemma accounted_run (events : list Event) (s : State) :
  accounted s -> accounted (run plan lang s events).
Proof.
  revert s. induction events as [|e rest IH]; simpl; intros s H; [exact H|].
  apply IH, accounted_step, H.
Qed.

Lemma lastAgentTurn_none (t : Transcript) :
  lastAgentTurn t = None -> countSpeaker AI t = 0.
Proof.
  unfold countSpeaker. induction t as [|x t IH]; simpl; [reflexivity|].
  destruct (lastAgentTurn t); [discriminate|].
  unfold isAgentTurn. destruct (Speaker_eqb _ AI); [discriminate|].
  intros _. now apply IH.
Qed.

Lemma wellAnswered_finalTranscript (s : State) :
  forallb wellAnswered (transcript s) = true ->
  forallb wellAnswered (finalTranscript s) = true.
Proof.
  intros H. unfold finalTranscript.
  destruct (truthy (trim (currentUserResponse s))) eqn:T; [|exact H].
  rewrite forallb_app, H. simpl. rewrite andb_true_r.
  apply wellAnswered_userItem; [|apply ServiceFacts.trim_idempotent].
  unfold truthy in T. apply negb_true_iff in T. now apply String.eqb_neq.
Qed.

Lemma audible_step (s : State) (e : Event) :
  audible s -> audible (step plan lang s e).
Proof.
  unfold audible. intros H. unfold step.
  destruct (outcome s); [exact H|].
  destruct e; unfold_handlers; repeat split_match; cbn; intros u Hu;
    try discriminate Hu; try (now apply H).
  all: try congruence.
  all: inversion Hu; cbn [Utterance.text];
    match goal with
    | E : negb (truthy (trim ?x)) = false |- truthy (trim ?x) = true =>
        now apply negb_false_iff in E
    end.
Qed.

Lemma audible_run (events : list Event) (s : State) :
  audible s -> audible (run plan lang s events).
Proof.
  revert s. induction events as [|e rest IH]; simpl; intros s H; [exact H|].
  apply IH, audible_step, H.
Qed.

Lemma nextPlannedQuestion_planned (t : Transcript) (p : PlannedQuestion.t) :
  nextPlannedQuestion plan t = Some p -> In p (plannedQuestions plan).
Proof.
  unfold nextPlannedQuestion. rewrite GenerationFacts.scanThemes_find.
  intros H. apply find_some in H. exact (proj1 H).
Qed.

Lemma arrivingQuestion_text (sent : Transcript) (service : ServiceOutcome) :
  (forall p, In p (plannedQuestions plan) -> PlannedQuestion.question p <> "") ->
  AIQuestionResponse.nextQuestionText (arrivingQuestion plan lang sent service) <> "".
Proof.
  intros Hplan. unfold arrivingQuestion, generateFollowUpQuestion.
  destruct service as [message| |parsed]; cbv zeta.
  - discriminate.
  - unfold callFailureFallback.
    destruct (nextPlannedQuestion plan sent) as [p|] eqn:E; simpl.
    + apply Hplan. now apply (nextPlannedQuestion_planned sent).
    + discriminate.
  - apply GenerationFacts.concludeOrRepair_text_nonempty.
Qed.

Lemma asked_step (s : State) (e : Event) :
  (forall p, In p (plannedQuestions plan) -> PlannedQuestion.question p <> "") ->
  consistent s /\ forallb wellAsked (transcript s) = true ->
  consistent (step plan lang s e)
  /\ forallb wellAsked (transcript (step plan lang s e)) = true.
Proof.
  intros Hplan [Hcons Hasked].
  split; [now apply ScreenFacts.consistent_step|].
  destruct (outcome s) as [o|] eqn:Ho.
  { now rewrite (ScreenFacts.step_unmounted plan lang s e o Ho). }
  destruct Hcons as [Hreq Hfresh].
  destruct (quiet e) eqn:Hq.
  - destruct (ScreenFacts.quiet_frame plan lang s e Hq) as (-> & _). exact Hasked.
  - unfold step. rewrite Ho.
    destruct e; try discriminate Hq; clear Hq.
    + destruct (ScreenFacts.handleSubmitResponse_frame s) as (-> & _). exact Hasked.
    + destruct (submitDebounceRef s) as [c|] eqn:Hc.
      2: { unfold submitTimerFires. now rewrite Hc. }
      destruct (ScreenFacts.submitTimerFires_spec s c Hc) as (_ & _ & _ & Hcase).
      destruct (FetchClosure.isFetchingQuestion c) eqn:Hcf.
      * destruct Hcase as (-> & _). exact Hasked.
      * destruct Hcase as (-> & _). destruct (Hfresh c eq_refl Hcf) as [_ ->].
        destruct (updated_shape (transcript s)
                    (Some (FetchClosure.currentUserResponse c))
                    (FetchClosure.currentAIQuestion c))
          as [->|(answer & -> & _)]; [exact Hasked|].
        rewrite forallb_app, Hasked. reflexivity.
    + destruct (request s) as [sent|] eqn:Hs.
      2: { unfold questionArrives. now rewrite Hs. }
      destruct (ScreenFacts.questionArrives_spec plan lang s sent service Hs) as (-> & _).
      rewrite forallb_app, Hasked. cbn. rewrite andb_true_r.
      unfold truthy. apply negb_true_iff, String.eqb_neq.
      now apply arrivingQuestion_text.
Qed.


(** X17: in every session, while a next-question request is pending no event
    issues another one: the log of requests stays as it is, and the pending
    request stays or settles. *)
Theorem no_request_while_one_is_pending (events : list Event) (e : Event) :
  let s := run plan lang mounted events in
  request s <> None ->
  requestLog (step plan lang s e) = requestLog s
  /\ (request (step plan lang s e) = request s \/ request (step plan lang s e) = None).
Proof.
  intros s Hpending.
  destruct (ScreenFacts.consistent_run plan lang events mounted
              ScreenFacts.consistent_mounted) as [Hreq Hfresh].
  fold s in Hreq, Hfresh.
  destruct (outcome s) as [o|] eqn:Ho.
  { rewrite (ScreenFacts.step_unmounted plan lang s e o Ho). auto. }
  destruct (quiet e) eqn:Hq.
  - destruct (ScreenFacts.quiet_frame plan lang s e Hq) as (_ & _ & _ & -> & -> & _). auto.
  - unfold step. rewrite Ho.
    destruct e; try discriminate Hq; clear Hq.
    + destruct (ScreenFacts.handleSubmitResponse_frame s) as (_ & _ & -> & -> & _). auto.
    + destruct (submitDebounceRef s) as [c|] eqn:Hc.
      2: { unfold submitTimerFires. rewrite Hc. auto. }
      destruct (ScreenFacts.submitTimerFires_spec s c Hc) as (_ & _ & _ & Hcase).
      destruct (FetchClosure.isFetchingQuestion c) eqn:Hcf.
      * destruct Hcase as (_ & _ & -> & -> & _). auto.
      * destruct (Hfresh c eq_refl Hcf) as [Hnf _]. rewrite Hnf in Hreq.
        destruct (request s); [discriminate Hreq | contradiction].
    + destruct (request s) as [sent|] eqn:Hs; [|contradiction].
      destruct (ScreenFacts.questionArrives_spec plan lang s sent service Hs)
        as (_ & _ & _ & -> & -> & _).
      auto.
Qed.

(** X18: in every session, the current question is the last AGENT turn on
    record, and as long as there is no current question there is no AGENT
    turn. *)
Theorem current_question_is_last_agent_turn (events : list Event) :
  let s := run plan lang mounted events in
  lastAgentTurn (transcript s) = option_map aiItem (currentAIQuestion s)
  /\ (currentAIQuestion s = None -> countSpeaker AI (transcript s) = 0).
Proof.
  intros s.
  destruct (accounted_run events mounted accounted_mounted) as (_ & _ & Hlast & _).
  fold s in Hlast. split; [exact Hlast|].
  intros Hnone. rewrite Hnone in Hlast. now apply lastAgentTurn_none.
Qed.

(** X19: in every session, every PARTICIPANT turn on record has an answer that
    is not empty and has no white space at its ends, and carries the theme of
    the AGENT turn it follows; the turn that "Finish Interview" adds has such
    an answer too. *)
Theorem participant_turns_are_answered_and_filed (events : list Event) :
  let s := run plan lang mounted events in
  forallb wellAnswered (transcript s) = true
  /\ filedFrom None (transcript s) = true
  /\ forallb wellAnswered (finalTranscript s) = true.
Proof.
  intros s.
  destruct (accounted_run events mounted accounted_mounted)
    as (_ & _ & _ & _ & Hans & Hfiled).
  fold s in Hans, Hfiled.
  refine (conj Hans (conj Hfiled _)).
  now apply wellAnswered_finalTranscript.
Qed.

(** X20: in every session, the text of a pending speech operation is not
    blank: [synthesizeSpeech] sends exactly one request for it and does not
    resolve to [null], so the operation never settles in the branch that
    reports "Speech generation failed.". *)
Theorem pending_speech_is_synthesized (events : list Event) (u : Utterance.t)
  (backend : TtsBackend) (playback : Playback) :
  speakingPromiseRef (run plan lang mounted events) = Some u ->
  snd (synthesizeSpeech (Utterance.text u) lang backend)
  = [TtsRequest.mk (Utterance.text u) lang]
  /\ speechOperation (Utterance.text u) lang backend playback <> SynthesisNull.
Proof.
  intros Hu.
  assert (Haud : audible (run plan lang mounted events)).
  { apply audible_run. intros u0 H0. discriminate H0. }
  specialize (Haud u Hu).
  assert (Hne : truthy (Utterance.text u) = true).
  { destruct (Utterance.text u); [discriminate Haud | reflexivity]. }
  unfold truthy in Haud. apply negb_true_iff in Haud.
  unfold speechOperation, synthesizeSpeech. rewrite Hne, Haud. cbn [negb orb fst snd].
  split; [reflexivity|].
  destruct backend; [discriminate | discriminate |].
  destruct playback; discriminate.
Qed.

(** X21: for a plan none of whose questions is the empty string, in every
    session in which each reply of the model that parses is an object of the
    declared shape [AIQuestionResponse] (the shape of [ResponseText]), every
    AGENT turn on record has a question text that is not empty, whatever the
    four fields of the replies hold and however the calls fail: client not
    initialised, remote call failing, reply that does not parse. *)
Theorem agent_turns_are_never_empty (events : list Event) :
  (forall p, In p (plannedQuestions plan) -> PlannedQuestion.question p <> "") ->
  forallb wellAsked (transcript (run plan lang mounted events)) = true.
Proof.
  intros Hplan.
  assert (H : forall s, consistent s /\ forallb wellAsked (transcript s) = true ->
                        forallb wellAsked (transcript (run plan lang s events)) = true).
  { induction events as [|e rest IH]; simpl; intros s Hs; [exact (proj2 Hs)|].
    apply IH. now apply asked_step. }
  apply H. split; [apply ScreenFacts.consistent_mounted | reflexivity].
Qed.

End AllRuns.

Section OfferedRuns.

Variable plan : ResearchPlan.t.
Variable lang : LanguageCode.

Lemma offered_voice_idle (s : State) (capture : CaptureStart) :
  offered s (ClickVoice capture) = true ->
  isRecording (voiceInputStage s) = false ->
  isListening s = false.
Proof.
  unfold offered, voiceButtonDisabled, isGlobalInteractionDisabled.
  destruct (panelShown s); [|discriminate].
  destruct (voiceInputStage s); simpl; try discriminate;
    destruct (isListening s); rewrite ?orb_true_r; simpl; congruence.
Qed.

Lemma recognitionIdle_step (s : State) (e : Event) :
  recognitionIdle s -> offered s e = true -> recognitionIdle (step plan lang s e).
Proof.
  unfold recognitionIdle. intros H Hoff. unfold step.
  destruct (outcome s); [exact H|].
  destruct e; unfold_handlers; repeat split_match; cbn; intros c Hc;
    try discriminate Hc; try (now apply H); try (apply H; congruence);
    try congruence.
  all: inversion Hc; cbn [RecognitionClosure.isListening];
    eapply offered_voice_idle; eassumption.
Qed.

Lemma recognitionIdle_run (events : list Event) (s : State) :
  recognitionIdle s -> allOffered plan lang s events = true ->
  recognitionIdle (run plan lang s events).
Proof.
  revert s. induction events as [|e rest IH]; simpl; intros s H Hoff; [exact H|].
  apply andb_true_iff in Hoff as [H1 H2].
  apply IH; [now apply recognitionIdle_step | exact H2].
Qed.

Lemma completed_by (s : State) (e : Event) (t : Transcript) :
  outcome s = None ->
  outcome (step plan lang s e) = Some (Completed t) ->
  (interviewStage s = finished /\ t = transcript s)
  \/ (e = ClickFinish /\ t = finalTranscript s).
Proof.
  intros Ho. unfold step. rewrite Ho.
  destruct e; unfold_handlers; repeat split_match; cbn; intros H; try congruence.
  - right. split; [reflexivity | congruence].
  - left. split; [|congruence].
    match goal with
    | E : _ && _ = true |- _ => apply andb_true_iff in E as [E _]
    end.
    now apply ScreenFacts.InterviewStage_eqb_eq.
Qed.

Lemma existsb_snoc (t : Transcript) (x : InterviewTranscriptItem.t) :
  existsb isConclusionTurn (t ++ [x])
  = existsb isConclusionTurn t || isConclusionTurn x.
Proof. rewrite existsb_app. simpl. now rewrite orb_false_r. Qed.

Lemma concluded_final (s : State) (pre : Transcript) (q : AIQuestionResponse.t) :
  currentAIQuestion s = Some q ->
  AIQuestionResponse.theme q = "Conclusion" ->
  transcript s = pre ++ [aiItem q] ->
  existsb isConclusionTurn pre = false ->
  concludedTranscript (transcript s) /\ concludedTranscript (finalTranscript s).
Proof.
  intros Hq Hth Ht Hpre. split.
  - exists pre, q. auto.
  - exists pre, q. refine (conj Hth (conj Hpre _)).
    unfold finalTranscript. rewrite Hq, Hth, Ht.
    destruct (truthy (trim (currentUserResponse s))) eqn:T; [|now left].
    right. exists (currentUserResponse s). split; [exact T|].
    now rewrite <- app_assoc.
Qed.

Lemma find_conclusion_last (pre : Transcript) (x : InterviewTranscriptItem.t) :
  existsb isConclusionTurn pre = false ->
  find isConclusionTurn (pre ++ [x]) = find isConclusionTurn [x].
Proof.
  induction pre as [|y pre IH]; simpl; intros H; [reflexivity|].
  apply orb_false_iff in H as [-> H]. now apply IH.
Qed.

Lemma concluding_theme (s : State) :
  isConcludingQuestion s = true ->
  exists q, currentAIQuestion s = Some q /\ AIQuestionResponse.theme q = "Conclusion".
Proof.
  unfold isConcludingQuestion, themeIsConclusion.
  destruct (currentAIQuestion s) as [q|]; [|discriminate].
  intros H. exists q. split; [reflexivity | now apply String.eqb_eq].
Qed.

Lemma concluding_last_mounted : concluding_last mounted.
Proof.
  split; [apply ScreenFacts.orderly_mounted|].
  split; [reflexivity|]. intros t H. discriminate H.
Qed.

Lemma concluding_last_step (s : State) (e : Event) :
  concluding_last s -> offered s e = true -> concluding_last (step plan lang s e).
Proof.
  intros Hinv Hoff.
  destruct (outcome s) as [o|] eqn:Ho.
  { now rewrite (ScreenFacts.step_unmounted plan lang s e o Ho). }
  pose proof Hinv as (Hord & Hk & _).
  split; [now apply ScreenFacts.orderly_step|].
  pose proof Hord as ((Hreq & Hfresh) & _ & Hlast & Hsub & Hfin & _).
  assert (Hout : forall t, outcome (step plan lang s e) = Some (Completed t) ->
                           concludedTranscript t).
  { intros t Ht.
    assert (Hc : isConcludingQuestion s = true).
    { destruct (completed_by s e t Ho Ht) as [[Hs _]|[-> _]]; [now apply Hfin|].
      apply ScreenFacts.offered_finish in Hoff as [Hs|Hs]; [now apply Hfin | exact Hs]. }
    rewrite Hc in Hk. destruct Hk as (pre & q & Hq & Htr & Hpre).
    destruct (concluding_theme s Hc) as (q' & Hq' & Hth).
    assert (q' = q) by congruence. subst q'.
    destruct (concluded_final s pre q Hq Hth Htr Hpre) as [H1 H2].
    destruct (completed_by s e t Ho Ht) as [[_ ->]|[_ ->]]; assumption. }
  split; [|exact Hout]. clear Hout.
  destruct (quiet e) eqn:Hq.
  - destruct (ScreenFacts.quiet_frame plan lang s e Hq) as (Ht & _ & _ & _ & _ & Hc).
    unfold isConcludingQuestion in *. rewrite Ht, Hc. exact Hk.
  - unfold step. rewrite Ho.
    destruct e; try discriminate Hq; clear Hq.
    + destruct (ScreenFacts.handleSubmitResponse_frame s) as (Ht & _ & _ & _ & Hc & _).
      unfold isConcludingQuestion in *. rewrite Ht, Hc. exact Hk.
    + destruct (submitDebounceRef s) as [c|] eqn:Hc.
      2: { unfold submitTimerFires. rewrite Hc. exact Hk. }
      destruct (ScreenFacts.submitTimerFires_spec s c Hc) as (_ & Hcur & _ & Hcase).
      unfold isConcludingQuestion in *. rewrite Hcur.
      destruct (FetchClosure.isFetchingQuestion c) eqn:Hcf.
      * destruct Hcase as (-> & _). exact Hk.
      * destruct Hcase as (-> & _).
        destruct (Hfresh c eq_refl Hcf) as [_ Hct].
        destruct (Hsub c eq_refl Hcf) as [_ Hnc].
        rewrite Hnc in Hk |- *. rewrite Hct.
        destruct (updated_shape (transcript s)
                    (Some (FetchClosure.currentUserResponse c))
                    (FetchClosure.currentAIQuestion c))
          as [->|(answer & -> & _)]; [exact Hk|].
        rewrite existsb_snoc, Hk. reflexivity.
    + destruct (request s) as [sent|] eqn:Hs.
      2: { unfold questionArrives. rewrite Hs. exact Hk. }
      destruct (ScreenFacts.questionArrives_spec plan lang s sent service Hs)
        as (Ht & Hcur & _).
      simpl in Hreq. rewrite <- Hreq in Hlast. destruct Hlast as [_ Hnc].
      rewrite Hnc in Hk.
      unfold isConcludingQuestion. rewrite Ht, Hcur. cbn [themeIsConclusion].
      destruct (AIQuestionResponse.theme (arrivingQuestion plan lang sent service)
                =? "Conclusion") eqn:E.
      * exists (transcript s), (arrivingQuestion plan lang sent service). auto.
      * rewrite existsb_snoc, Hk. unfold isConclusionTurn. cbn. now rewrite E.
Qed.

Lemma concluding_last_run (events : list Event) (s : State) :
  concluding_last s -> allOffered plan lang s events = true ->
  concluding_last (run plan lang s events).
Proof.
  revert s. induction events as [|e rest IH]; simpl; intros s H Hoff; [exact H|].
  apply andb_true_iff in Hoff as [H1 H2].
  apply IH; [now apply concluding_last_step | exact H2].
Qed.

Lemma closing_step (s : State) (e : Event) :
  orderly s -> isConcludingQuestion s = true ->
  transcript (step plan lang s e) = transcript s
  /\ currentAIQuestion (step plan lang s e) = currentAIQuestion s
  /\ requestLog (step plan lang s e) = requestLog s.
Proof.
  intros ((Hreq & Hfresh) & _ & Hlast & Hsub & _) Hc.
  assert (Hnf : isFetchingQuestion s = false).
  { destruct (isFetchingQuestion s); [|reflexivity]. destruct Hlast. congruence. }
  destruct (outcome s) as [o|] eqn:Ho.
  { rewrite (ScreenFacts.step_unmounted plan lang s e o Ho). auto. }
  destruct (quiet e) eqn:Hq.
  - destruct (ScreenFacts.quiet_frame plan lang s e Hq) as (-> & _ & _ & _ & -> & ->). auto.
  - unfold step. rewrite Ho.
    destruct e; try discriminate Hq; clear Hq.
    + destruct (ScreenFacts.handleSubmitResponse_frame s) as (-> & _ & _ & -> & -> & _).
      auto.
    + destruct (submitDebounceRef s) as [c|] eqn:Hd.
      2: { unfold submitTimerFires. rewrite Hd. auto. }
      destruct (ScreenFacts.submitTimerFires_spec s c Hd) as (_ & -> & _ & Hcase).
      destruct (FetchClosure.isFetchingQuestion c) eqn:Hcf.
      * destruct Hcase as (-> & _ & _ & -> & _). auto.
      * destruct (Hsub c eq_refl Hcf) as [_ Hnc]. congruence.
    + rewrite Hnf in Hreq. unfold questionArrives.
      destruct (request s); [discriminate Hreq | auto].
Qed.

(** X22: in the sessions driven through the rendered controls, whenever the
    handler of [recognition.onend] runs it releases the recognition: the
    value of [isListening] it captured is always [false], so the recognition
    is never started again from there. *)
Theorem recognition_end_never_restarts (events : list Event) :
  allOffered plan lang mounted events = true ->
  outcome (run plan lang mounted events) = None ->
  speechRecognitionRef (step plan lang (run plan lang mounted events) RecognitionEnd)
  = None.
Proof.
  intros Hoff Ho.
  assert (Hidle : recognitionIdle (run plan lang mounted events)).
  { apply recognitionIdle_run; [|exact Hoff]. intros c Hc. discriminate Hc. }
  unfold step. rewrite Ho. unfold recognitionEnd.
  destruct (speechRecognitionRef (run plan lang mounted events)) as [c|] eqn:Hc;
    [|exact Hc].
  now rewrite (Hidle c Hc).
Qed.

(** X23: in the sessions driven through the rendered controls, the transcript
    handed to [onInterviewComplete] ends with a concluding AGENT turn, which
    is its only AGENT turn with the theme "Conclusion"; after it comes at most
    one PARTICIPANT turn, which has a non-blank answer and the theme
    "Conclusion". *)
Theorem handed_off_transcript_is_concluded (events : list Event) (t : Transcript) :
  allOffered plan lang mounted events = true ->
  outcome (run plan lang mounted events) = Some (Completed t) ->
  concludedTranscript t.
Proof.
  intros Hoff Ht.
  destruct (concluding_last_run events mounted concluding_last_mounted Hoff)
    as (_ & _ & Hout).
  exact (Hout t Ht).
Qed.

(** X24: in the sessions driven through the rendered controls, the panel of
    the stage [finished] shows the text of the current question, which is the
    concluding turn (or the stock thanks when that text is empty). *)
Theorem completion_panel_shows_closing_remark (events : list Event) :
  let s := run plan lang mounted events in
  allOffered plan lang mounted events = true ->
  interviewStage s = finished ->
  exists q, currentAIQuestion s = Some q
            /\ completionMessage (transcript s)
               = orElse (AIQuestionResponse.nextQuestionText q)
                        "Thank you for your responses.".
Proof.
  intros s Hoff Hfinished.
  destruct (concluding_last_run events mounted concluding_last_mounted Hoff)
    as (Hord & Hk & _).
  fold s in Hord, Hk.
  destruct Hord as (_ & _ & _ & _ & Hfin & _).
  specialize (Hfin Hfinished).
  rewrite Hfin in Hk. destruct Hk as (pre & q & Hq & Ht & Hpre).
  destruct (concluding_theme s Hfin) as (q' & Hq' & Hth).
  assert (q' = q) by congruence. subst q'.
  exists q. split; [exact Hq|].
  unfold completionMessage. rewrite Ht, (find_conclusion_last pre (aiItem q) Hpre).
  unfold isConclusionTurn. cbn. rewrite Hth. reflexivity.
Qed.

(** X25: in the sessions driven through the rendered controls, once the
    current question is a concluding one nothing is added to the transcript
    any more, no further request is made and the question stays. *)
Theorem nothing_follows_the_conclusion (events later : list Event) :
  let s := run plan lang mounted events in
  let s' := run plan lang mounted (events ++ later) in
  allOffered plan lang mounted (events ++ later) = true ->
  isConcludingQuestion s = true ->
  transcript s' = transcript s
  /\ currentAIQuestion s' = currentAIQuestion s
  /\ requestLog s' = requestLog s.
Proof.
  intros s s' Hoff Hc. subst s'. rewrite ScreenFacts.run_app. fold s.
  assert (Hs : orderly s /\ allOffered plan lang s later = true).
  { clear Hc. subst s. revert Hoff. generalize ScreenFacts.orderly_mounted.
    generalize mounted as s0.
    induction events as [|e rest IH]; simpl; intros s0 H0 Hoff; [now split|].
    apply andb_true_iff in Hoff as [H1 H2].
    apply IH; [now apply ScreenFacts.orderly_step | exact H2]. }
  destruct Hs as [Hord Hlater]. clear Hoff. revert Hord Hlater Hc.
  generalize s as s0. clear s.
  induction later as [|e rest IH]; simpl; intros s0 Hord Hoff Hc; [auto|].
  apply andb_true_iff in Hoff as [H1 H2].
  destruct (closing_step s0 e Hord Hc) as (Ht & Hq & Hl).
  destruct (IH (step plan lang s0 e)) as (Ht' & Hq' & Hl').
  - now apply ScreenFacts.orderly_step.
  - exact H2.
  - unfold isConcludingQuestion in *. now rewrite Hq.
  - rewrite Ht', Hq', Hl'. auto.
Qed.

End OfferedRuns.

(** *** Concrete sessions *)

Lemma no_request_while_one_is_pending_witness :
  let s := run twoQuestionPlan en_US mounted answeredSession in
  request s <> None
  /\ requestLog (step twoQuestionPlan en_US s SubmitTimerFires) = requestLog s.
Proof.
  assert (H : request (run twoQuestionPlan en_US mounted answeredSession) <> None)
    by (vm_compute; discriminate).
  split; [exact H|].
  exact (proj1 (no_request_while_one_is_pending twoQuestionPlan en_US answeredSession
                  SubmitTimerFires H)).
Defined.

Lemma pending_speech_is_synthesized_witness :
  let u := Utterance.mk "How did you find our app?" "Onboarding" in
  speakingPromiseRef (run twoQuestionPlan en_US mounted speakingSession) = Some u
  /\ speechOperation (Utterance.text u) en_US (TtsOk (Blob.mk 1)) PlaybackEnds
     <> SynthesisNull.
Proof.
  assert (H : speakingPromiseRef (run twoQuestionPlan en_US mounted speakingSession)
              = Some (Utterance.mk "How did you find our app?" "Onboarding"))
    by (vm_compute; reflexivity).
  split; [exact H|].
  exact (proj2 (pending_speech_is_synthesized twoQuestionPlan en_US speakingSession
                  (Utterance.mk "How did you find our app?" "Onboarding")
                  (TtsOk (Blob.mk 1)) PlaybackEnds H)).
Defined.

Lemma agent_turns_are_never_empty_witness :
  (forall p, In p (plannedQuestions twoQuestionPlan) -> PlannedQuestion.question p <> "")
  /\ forallb wellAsked
       (transcript (run twoQuestionPlan en_US mounted
                      (answeredSession ++ [QuestionArrives GenerateContentFails])))
     = true.
Proof.
  assert (H : forall p, In p (plannedQuestions twoQuestionPlan) ->
                        PlannedQuestion.question p <> "").
  { intros p [<-|[<-|[]]]; simpl; discriminate. }
  split; [exact H|].
  exact (agent_turns_are_never_empty twoQuestionPlan en_US
           (answeredSession ++ [QuestionArrives GenerateContentFails]) H).
Defined.

Lemma recognition_end_never_restarts_witness :
  allOffered twoQuestionPlan en_US mounted dictatedSession = true
  /\ outcome (run twoQuestionPlan en_US mounted dictatedSession) = None
  /\ speechRecognitionRef
       (step twoQuestionPlan en_US (run twoQuestionPlan en_US mounted dictatedSession)
          RecognitionEnd)
     = None.
Proof.
  assert (H1 : allOffered twoQuestionPlan en_US mounted dictatedSession = true)
    by (vm_compute; reflexivity).
  assert (H2 : outcome (run twoQuestionPlan en_US mounted dictatedSession) = None)
    by (vm_compute; reflexivity).
  refine (conj H1 (conj H2 _)).
  exact (recognition_end_never_restarts twoQuestionPlan en_US dictatedSession H1 H2).
Defined.

Lemma handed_off_transcript_is_concluded_witness :
  let t := [aiItem farewell; userItem "Bye" (Some "Conclusion")] in
  allOffered twoQuestionPlan en_US mounted lastWordSession = true
  /\ outcome (run twoQuestionPlan en_US mounted lastWordSession) = Some (Completed t)
  /\ concludedTranscript t.
Proof.
  assert (H1 : allOffered twoQuestionPlan en_US mounted lastWordSession = true)
    by (vm_compute; reflexivity).
  assert (H2 : outcome (run twoQuestionPlan en_US mounted lastWordSession)
               = Some (Completed [aiItem farewell; userItem "Bye" (Some "Conclusion")]))
    by (vm_compute; reflexivity).
  refine (conj H1 (conj H2 _)).
  exact (handed_off_transcript_is_concluded twoQuestionPlan en_US lastWordSession _ H1 H2).
Defined.

Lemma completion_panel_shows_closing_remark_witness :
  let s := run twoQuestionPlan en_US mounted finishedSession in
  allOffered twoQuestionPlan en_US mounted finishedSession = true
  /\ interviewStage s = finished
  /\ exists q, currentAIQuestion s = Some q
               /\ completionMessage (transcript s)
                  = orElse (AIQuestionResponse.nextQuestionText q)
                           "Thank you for your responses.".
Proof.
  assert (H1 : allOffered twoQuestionPlan en_US mounted finishedSession = true)
    by (vm_compute; reflexivity).
  assert (H2 : interviewStage (run twoQuestionPlan en_US mounted finishedSession)
               = finished)
    by (vm_compute; reflexivity).
  refine (conj H1 (conj H2 _)).
  exact (completion_panel_shows_closing_remark twoQuestionPlan en_US finishedSession
           H1 H2).
Defined.

Lemma nothing_follows_the_conclusion_witness :
  allOffered twoQuestionPlan en_US mounted (concludedSession ++ afterwards) = true
  /\ isConcludingQuestion (run twoQuestionPlan en_US mounted concludedSession) = true
  /\ transcript (run twoQuestionPlan en_US mounted (concludedSession ++ afterwards))
     = transcript (run twoQuestionPlan en_US mounted concludedSession).
Proof.
  assert (H1 : allOffered twoQuestionPlan en_US mounted (concludedSession ++ afterwards)
               = true)
    by (vm_compute; reflexivity).
  assert (H2 : isConcludingQuestion (run twoQuestionPlan en_US mounted concludedSession)
               = true)
    by (vm_compute; reflexivity).
  refine (conj H1 (conj H2 _)).
  exact (proj1 (nothing_follows_the_conclusion twoQuestionPlan en_US concludedSession
                  afterwards H1 H2)).
Defined.

End SessionFacts.

(** * The interview without the model *)

Module ScriptFacts.
Import InterviewScreen.
Import Sessions.

Ltac crank_in t :=
  eval cbv beta iota zeta delta
    [step offered
     questionArrives speakEffect speakText speechSettles finishTimer finishedEffect
     handleSubmitResponse submitTimerFires fetchAndProcessNextQuestion stopListening
     onError generateFollowUpQuestion
     panelShown spinnerShown isGlobalInteractionDisabled isConcludingQuestion
     themeIsConclusion isTranscribing isRecording isSome InterviewStage_eqb
     setCurrentAIQuestion setCurrentUserResponse setTranscript setInterviewStage
     setIsFetchingQuestion setIsSpeaking setIsListening setSttError
     setVoiceInputStage setLastSpokenQuestionTextRef setSpeakingPromiseRef
     setSubmitDebounceRef setSpeechRecognitionRef setMediaRecorderRef setRequest
     setTranscription setRequestLog setErrors setOutcome
     currentAIQuestion currentUserResponse transcript interviewStage
     isFetchingQuestion isSpeaking isListening sttError voiceInputStage
     lastSpokenQuestionTextRef speakingPromiseRef submitDebounceRef
     speechRecognitionRef mediaRecorderRef request transcription requestLog
     errors outcome
     FetchClosure.currentUserResponse FetchClosure.currentAIQuestion
     FetchClosure.transcript FetchClosure.isFetchingQuestion
     Utterance.text Utterance.theme
     negb andb orb] in t.

(** Unfold the innermost [step] of the goal. *)
Ltac advance :=
  match goal with
  | |- context [step ?pl ?la ?s ?e] =>
      lazymatch s with
      | context [step] => fail
      | _ => let r := crank_in (step pl la s e) in
             change (step pl la s e) with r
      end
  end.

(** Unfold the innermost [offered] of the goal. *)
Ltac offer :=
  match goal with
  | |- context [offered ?s ?e] =>
      lazymatch s with
      | context [step] => fail
      | _ => let r := crank_in (offered s e) in
             change (offered s e) with r
      end
  end.

Ltac settle := cbv beta iota delta [negb andb orb].

Section Scripted.

Variable plan : ResearchPlan.t.
Variable lang : LanguageCode.

Lemma reply_is_spoken (t : Transcript) (s : State) :
  awaiting t s ->
  let q := callFailureFallback (nextPlannedQuestion plan t) lang in
  let s' := run plan lang s
              [QuestionArrives GenerateContentFails; SpeakEffect; SpeechSettles Ended] in
  hearing t q s' /\ requestLog s' = requestLog s.
Proof.
  intros Hs q s'. subst s'.
  destruct s as [cq r tr st f sp li se vi ls spr sd sr mr rq trn lg er oc].
  unfold awaiting in Hs. cbn in Hs.
  destruct Hs as (-> & -> & -> & -> & -> & -> & -> & -> & -> & -> & ->).
  cbn [run]. advance. fold q.
  destruct (AIQuestionResponse.isEndOfInterview q); advance.
  all: destruct (match ls with
                 | Some spoken => spoken =? AIQuestionResponse.nextQuestionText q
                 | None => false
                 end);
    cbv beta iota;
    try destruct (truthy (trim (AIQuestionResponse.nextQuestionText q)));
    cbv beta iota; advance.
  all: unfold hearing; cbv beta iota; now repeat split.
Qed.

Lemma stageAfterSpeech_listening (theme : string) :
  (theme =? "Conclusion") = false -> stageAfterSpeech theme = listening.
Proof. intros H. unfold stageAfterSpeech. now rewrite H. Qed.

Lemma answer_is_submitted (t : Transcript) (q : AIQuestionResponse.t) (s : State)
  (answer : string) :
  hearing t q s ->
  (AIQuestionResponse.theme q =? "Conclusion") = false ->
  truthy (trim answer) = true ->
  let events := [TypeResponse answer; ClickSubmit; SubmitTimerFires] in
  let t' := t ++ [aiItem q; userItem (trim answer) (Some (AIQuestionResponse.theme q))] in
  allOffered plan lang s events = true
  /\ awaiting t' (run plan lang s events)
  /\ requestLog (run plan lang s events) = requestLog s ++ [t'].
Proof.
  intros Hs Htheme Hanswer events t'. subst events t'.
  destruct s as [cq r tr st f sp li se vi ls spr sd sr mr rq trn lg er oc].
  unfold hearing in Hs. cbn in Hs.
  destruct Hs as (-> & -> & -> & -> & -> & -> & -> & -> & -> & -> & -> & ->).
  rewrite (stageAfterSpeech_listening _ Htheme).
  assert (Hblank : (trim answer =? "") = false).
  { unfold truthy in Hanswer. now apply negb_true_iff in Hanswer. }
  cbn [run allOffered].
  offer. advance. offer. rewrite ?Htheme, ?Hanswer. settle.
  advance. rewrite ?Hblank, ?Htheme. settle.
  offer. advance.
  unfold updatedTranscriptWithUserAnswer. rewrite Hanswer.
  unfold awaiting. cbn. rewrite <- !app_assoc. cbn.
  now repeat split.
Qed.

Lemma stageAfterSpeech_concluding (theme : string) :
  (theme =? "Conclusion") = true -> stageAfterSpeech theme = concluding.
Proof. intros H. unfold stageAfterSpeech. now rewrite H. Qed.

Lemma snoc_not_empty (t : Transcript) (x : InterviewTranscriptItem.t) :
  (0 <? length (t ++ [x]))%nat = true.
Proof. rewrite length_app. simpl. apply Nat.ltb_lt. lia. Qed.

Lemma remark_is_handed_off (t : Transcript) (q : AIQuestionResponse.t) (s : State) :
  hearing t q s ->
  (AIQuestionResponse.theme q =? "Conclusion") = true ->
  let s' := run plan lang s [FinishTimer; FinishedEffect] in
  outcome s' = Some (Completed (t ++ [aiItem q]))
  /\ errors s' = []
  /\ requestLog s' = requestLog s.
Proof.
  intros Hs Htheme s'. subst s'.
  destruct s as [cq r tr st f sp li se vi ls spr sd sr mr rq trn lg er oc].
  unfold hearing in Hs. cbn in Hs.
  destruct Hs as (-> & -> & -> & -> & -> & -> & -> & -> & -> & -> & -> & ->).
  rewrite (stageAfterSpeech_concluding _ Htheme).
  cbn [run].
  advance. rewrite Htheme. settle.
  advance. rewrite snoc_not_empty. settle.
  cbn. now repeat split.
Qed.

Lemma allOffered_app (events1 events2 : list Event) (s : State) :
  allOffered plan lang s (events1 ++ events2)
  = allOffered plan lang s events1
    && allOffered plan lang (run plan lang s events1) events2.
Proof.
  revert s. induction events1 as [|e rest IH]; simpl; intros s; [reflexivity|].
  now rewrite IH, andb_assoc.
Qed.

Lemma scriptedTranscript_snoc (asked : list PlannedQuestion.t) (answers : list string)
  (p : PlannedQuestion.t) (answer : string) :
  length answers = length asked ->
  scriptedTranscript (asked ++ [p]) (answers ++ [answer])
  = scriptedTranscript asked answers
    ++ [aiItem (scriptedQuestion p);
        userItem (trim answer) (Some (PlannedQuestion.theme p))].
Proof.
  revert answers. induction asked as [|p0 asked IH]; intros [|a0 answers] H;
    try discriminate H; simpl; [reflexivity|].
  rewrite IH; [reflexivity|]. simpl in H. lia.
Qed.

Lemma appears_scripted (asked : list PlannedQuestion.t) (answers : list string)
  (text : string) :
  length answers = length asked ->
  appearsAsAgentTurn (scriptedTranscript asked answers) text
  = existsb (fun p => PlannedQuestion.question p =? text) asked.
Proof.
  revert answers. induction asked as [|p0 asked IH]; intros [|a0 answers] H;
    try discriminate H; simpl; [reflexivity|].
  rewrite IH; [reflexivity|]. simpl in H. lia.
Qed.

Lemma scripted_next (asked todo : list PlannedQuestion.t) (answers : list string) :
  plannedQuestions plan = asked ++ todo ->
  length answers = length asked ->
  NoDup (map PlannedQuestion.question (asked ++ todo)) ->
  Forall (fun p => PlannedQuestion.question p <> "") (asked ++ todo) ->
  nextPlannedQuestion plan (scriptedTranscript asked answers) = hd_error todo.
Proof.
  intros Hplan Hlen Hnodup Hne.
  unfold nextPlannedQuestion. rewrite GenerationFacts.scanThemes_find.
  fold (plannedQuestions plan). rewrite Hplan.
  rewrite (GenerationFacts.find_ext_in _
             (fun p => negb (existsb (fun p0 => PlannedQuestion.question p0
                                              =? PlannedQuestion.question p) asked))).
  2: { intros p Hp. rewrite GenerationFacts.includesQuestion_asked.
       unfold appearsAsSpokenAgentTurn. rewrite (appears_scripted _ _ _ Hlen).
       rewrite Forall_forall in Hne. specialize (Hne p Hp).
       unfold truthy. apply String.eqb_neq in Hne. rewrite Hne.
       now rewrite andb_true_r. }
  rewrite GenerationFacts.find_app_first.
  assert (Hasked : find (fun p => negb (existsb (fun p0 => PlannedQuestion.question p0
                                                     =? PlannedQuestion.question p) asked))
                        asked = None).
  { destruct (find _ asked) as [p|] eqn:F; [|reflexivity].
    apply find_some in F as [Hin Hp]. apply negb_true_iff in Hp.
    assert (Ht : existsb (fun p0 => PlannedQuestion.question p0
                                    =? PlannedQuestion.question p) asked = true).
    { apply existsb_exists. exists p. split; [exact Hin | apply String.eqb_refl]. }
    congruence. }
  rewrite Hasked. destruct todo as [|p todo]; [reflexivity|]. simpl.
  destruct (existsb _ asked) eqn:E; [|reflexivity].
  apply existsb_exists in E as (p0 & Hin & Heq). apply String.eqb_eq in Heq.
  rewrite map_app in Hnodup. simpl in Hnodup.
  apply NoDup_remove_2 in Hnodup. exfalso. apply Hnodup.
  apply in_or_app. left. rewrite <- Heq. now apply in_map.
Qed.

Lemma scripted_runs (todo : list PlannedQuestion.t) :
  forall (asked : list PlannedQuestion.t) (answers rest : list string) (s : State),
    plannedQuestions plan = asked ++ todo ->
    NoDup (map PlannedQuestion.question (plannedQuestions plan)) ->
    Forall (fun p => PlannedQuestion.question p <> ""
                     /\ PlannedQuestion.theme p <> "Conclusion")
           (plannedQuestions plan) ->
    length answers = length asked ->
    length rest = length todo ->
    Forall (fun a => trim a <> "") rest ->
    awaiting (scriptedTranscript asked answers) s ->
    let s' := run plan lang s (scriptedInterview rest) in
    allOffered plan lang s (scriptedInterview rest) = true
    /\ outcome s'
       = Some (Completed (scriptedTranscript (asked ++ todo) (answers ++ rest)
                          ++ [aiItem (callFailureFallback None lang)]))
    /\ errors s' = []
    /\ length (requestLog s') = length (requestLog s) + length rest.
Proof.
  induction todo as [|p todo IH];
    intros asked answers rest s Hplan Hnodup Hall Hlen Hrest Hnb Hs s'; subst s'.
  - destruct rest; [|discriminate Hrest]. clear Hrest Hnb.
    rewrite !app_nil_r.
    assert (Hnext : nextPlannedQuestion plan (scriptedTranscript asked answers) = None).
    { rewrite (scripted_next asked [] answers Hplan Hlen); [reflexivity | |].
      - now rewrite <- Hplan.
      - rewrite <- Hplan. eapply Forall_impl; [|exact Hall]. now intros p0 [H _]. }
    unfold scriptedInterview. cbn [flat_map app].
    change scriptedClosing
      with ([QuestionArrives GenerateContentFails; SpeakEffect; SpeechSettles Ended]
            ++ [FinishTimer; FinishedEffect]).
    rewrite ScreenFacts.run_app.
    destruct (reply_is_spoken _ s Hs) as [Hh Hlog]. rewrite Hnext in Hh.
    destruct (remark_is_handed_off _ _ _ Hh eq_refl) as (Ho & He & Hl).
    refine (conj eq_refl (conj Ho (conj He _))). rewrite Hl, Hlog. simpl. lia.
  - destruct rest as [|answer rest]; [discriminate Hrest|].
    injection Hrest as Hrest. inversion Hnb as [|? ? Hanswer Hnb']; subst.
    assert (Hp : PlannedQuestion.question p <> "" /\ PlannedQuestion.theme p <> "Conclusion").
    { rewrite Forall_forall in Hall. apply Hall. rewrite Hplan.
      apply in_or_app. right. now left. }
    assert (Hnext : nextPlannedQuestion plan (scriptedTranscript asked answers) = Some p).
    { rewrite (scripted_next asked (p :: todo) answers Hplan Hlen); [reflexivity | |].
      - now rewrite <- Hplan.
      - rewrite <- Hplan. eapply Forall_impl; [|exact Hall]. now intros p0 [H _]. }
    unfold scriptedInterview. cbn [flat_map].
    change (scriptedRound answer)
      with ([QuestionArrives GenerateContentFails; SpeakEffect; SpeechSettles Ended]
            ++ [TypeResponse answer; ClickSubmit; SubmitTimerFires]).
    rewrite <- !app_assoc.
    fold (scriptedInterview rest).
    rewrite !ScreenFacts.run_app, !allOffered_app.
    destruct (reply_is_spoken _ s Hs) as [Hh Hlog]. rewrite Hnext in Hh.
    change (callFailureFallback (Some p) lang) with (scriptedQuestion p) in Hh.
    assert (Htheme : (AIQuestionResponse.theme (scriptedQuestion p) =? "Conclusion")
                     = false).
    { apply String.eqb_neq. exact (proj2 Hp). }
    assert (Htruthy : truthy (trim answer) = true).
    { unfold truthy. apply negb_true_iff. now apply String.eqb_neq. }
    destruct (answer_is_submitted _ _ _ answer Hh Htheme Htruthy) as (Hoff & Haw & Hl).
    change (AIQuestionResponse.theme (scriptedQuestion p))
      with (PlannedQuestion.theme p) in Haw.
    rewrite <- (scriptedTranscript_snoc asked answers p answer Hlen) in Haw.
    assert (Hplan' : plannedQuestions plan = (asked ++ [p]) ++ todo)
      by now rewrite <- app_assoc.
    assert (Hlen' : length (answers ++ [answer]) = length (asked ++ [p]))
      by (rewrite !length_app; simpl; lia).
    destruct (IH (asked ++ [p]) (answers ++ [answer]) rest _
                Hplan' Hnodup Hall Hlen' Hrest Hnb' Haw) as (Ho' & Hc' & He' & Hl').
    rewrite <- !app_assoc in Hc'. cbn [app] in Hc'.
    refine (conj _ (conj Hc' (conj He' _))).
    + rewrite Hoff, Ho'. reflexivity.
    + rewrite Hl', Hl, Hlog, length_app. simpl. lia.
Qed.

(** X26: when every call of the model fails and the participant answers
    every question, the interview is the questionnaire: for a plan whose
    questions are distinct and not empty and none of whose themes is
    "Conclusion", and as many non-blank answers as there are planned
    questions, the session runs through the rendered controls, asks the
    planned questions in declared order, files every answer under the theme
    of its question, ends on the apology of the failed call as the concluding
    turn and hands that transcript off; one request is made per question and
    one more for the conclusion, and no error is reported. *)
Theorem unreachable_model_gives_scripted_interview (answers : list string) :
  NoDup (map PlannedQuestion.question (plannedQuestions plan)) ->
  Forall (fun p => PlannedQuestion.question p <> ""
                   /\ PlannedQuestion.theme p <> "Conclusion")
         (plannedQuestions plan) ->
  length answers = length (plannedQuestions plan) ->
  Forall (fun a => trim a <> "") answers ->
  let s := run plan lang mounted (scriptedInterview answers) in
  allOffered plan lang mounted (scriptedInterview answers) = true
  /\ outcome s
     = Some (Completed (scriptedTranscript (plannedQuestions plan) answers
                        ++ [aiItem (callFailureFallback None lang)]))
  /\ errors s = []
  /\ length (requestLog s) = S (length answers).
Proof.
  intros Hnodup Hall Hlen Hnb s. subst s.
  assert (Hstart : awaiting (scriptedTranscript [] []) mounted).
  { unfold awaiting. cbn. now repeat split. }
  destruct (scripted_runs (plannedQuestions plan) [] [] answers mounted
              eq_refl Hnodup Hall eq_refl Hlen Hnb Hstart) as (Hoff & Hout & Herr & Hlog).
  refine (conj Hoff (conj Hout (conj Herr _))).
  rewrite Hlog. reflexivity.
Qed.

End Scripted.

Lemma unreachable_model_gives_scripted_interview_witness :
  let answers := ["Via a friend"; " The search "] in
  allOffered twoQuestionPlan en_US mounted (scriptedInterview answers) = true
  /\ outcome (run twoQuestionPlan en_US mounted (scriptedInterview answers))
     = Some (Completed (scriptedTranscript (plannedQuestions twoQuestionPlan) answers
                        ++ [aiItem (callFailureFallback None en_US)])).
Proof.
  assert (H1 : NoDup (map PlannedQuestion.question (plannedQuestions twoQuestionPlan))).
  { repeat constructor; simpl; intuition discriminate. }
  assert (H2 : Forall (fun p => PlannedQuestion.question p <> ""
                                /\ PlannedQuestion.theme p <> "Conclusion")
                      (plannedQuestions twoQuestionPlan)).
  { repeat constructor; simpl; discriminate. }
  assert (H3 : length ["Via a friend"; " The search "]
               = length (plannedQuestions twoQuestionPlan)) by reflexivity.
  assert (H4 : Forall (fun a => trim a <> "") ["Via a friend"; " The search "]).
  { repeat constructor; vm_compute; discriminate. }
  destruct (unreachable_model_gives_scripted_interview twoQuestionPlan en_US
              ["Via a friend"; " The search "] H1 H2 H3 H4) as (Hoff & Hout & _).
  exact (conj Hoff Hout).
Defined.

End ScriptFacts.
